(** * fpatron/website: the portfolio server, embedded in Rocq

    A shallow embedding of the Go sources

    - [internal/handler] (package [handler]): the data model, [New],
      [loadJSON], [execute] and the six route methods of [Handler];
    - [cmd/server/main.go] (package [main]): [responseWriter] and
      [loggingMiddleware];

    together with the parts of the Go standard library whose behaviour these
    functions rely on: [encoding/json]'s [Decoder.Decode], [io/fs]'s [FS],
    [net/url]'s [ParseQuery], and [net/http]'s [Request.ParseForm],
    [Request.FormValue], [Error], the server's [ResponseWriter] and what
    the server does around a handler ([serverHandler], [finishRequest]).

    Go strings are byte sequences; they are modelled as [string] (one [ascii]
    per byte).  Go's [int] is the 64-bit integer of the build target and is
    modelled as [Z] with the range check written out where a value is
    produced. *)

From Stdlib Require Import ZArith String Ascii List Lia Bool.
From stdpp Require Import base strings gmap list.
Import ListNotations.

Set Warnings "-register-all".

#[local] Open Scope string_scope.
#[local] Open Scope list_scope.
#[local] Open Scope Z_scope.

(** ** Bytes and strings *)

Definition code (c : ascii) : Z := Z.of_N (N_of_ascii c).
Definition byte (n : Z) : ascii := ascii_of_N (Z.to_N (n mod 256)).
Definition str1 (c : ascii) : string := String c EmptyString.

(** The double quote cannot be written inside a Rocq string literal without
    doubling it, so it gets a name; [q] turns every single quote of a literal
    into a double quote, which lets JSON and HTML text be written legibly. *)
Definition dquote : ascii := "034"%char.

Fixpoint q (s : string) : string :=
  match s with
  | EmptyString => EmptyString
  | String c rest => String (if Ascii.eqb c "'"%char then dquote else c) (q rest)
  end.

Definition between (lo hi : Z) (c : ascii) : bool :=
  (lo <=? code c) && (code c <=? hi).

Definition isDigit (c : ascii) : bool := between 48 57 c.
Definition isDigit19 (c : ascii) : bool := between 49 57 c.
Definition isHex (c : ascii) : bool :=
  between 48 57 c || between 97 102 c || between 65 70 c.

(** The value of a hexadecimal digit. *)
Definition hexval (c : ascii) : Z :=
  if between 48 57 c then code c - 48
  else if between 97 102 c then code c - 97 + 10
  else code c - 65 + 10.

(** [strings.ToUpper] on the ASCII letters of a byte. *)
Definition upper (c : ascii) : ascii :=
  if between 97 122 c then byte (code c - 32) else c.

(** ** Errors

    Go's [error] values that the modelled functions produce.  [WrapError] is
    the value built by [fmt.Errorf] with one [%w] operand: [format] is the
    format string of the call, [cause] the operand, which the error wraps.
    [LibError] stands for an error of a library function that is taken as a
    parameter below (template parsing and execution, media types). *)
Inductive error : Type :=
| ErrNotExist                                   (* fs.ErrNotExist *)
| PathError (op path : string) (err : error)    (* *fs.PathError *)
| EOF                                           (* io.EOF *)
| ErrUnexpectedEOF                              (* io.ErrUnexpectedEOF *)
| SyntaxError (c : ascii) (context : string)    (* *json.SyntaxError: invalid character c context *)
| UnmarshalTypeError (value type : string)      (* *json.UnmarshalTypeError *)
| PhaseError                                    (* json: decoder out of sync *)
| EscapeError (s : string)                      (* url.EscapeError *)
| ErrorString (msg : string)                    (* errors.New / fmt.Errorf without operands *)
| LibError (pkg msg : string)
| WrapError (format : string) (cause : error).

(** ** io

    An [io.Reader] is the bytes it delivers followed by the error that ends
    the reading: [io.EOF] at the end of the stream ([failure] is [None], or
    [Some EOF]), or a read error. *)
Module io.

Record Reader : Type := { data : string; failure : option error }.

(** The error with which reading ends, if there is one: [io.EOF] is the
    normal end of a stream, also when the reader reports it as such. *)
Definition readError (r : Reader) : option error :=
  match failure r with
  | Some EOF => None
  | e => e
  end.

End io.

(** ** encoding/json: reading one value from a stream

    [Decoder.Decode] first runs the package's scanner, a push-down automaton
    fed one byte at a time, to find the extent of the next JSON value, and
    then unmarshals exactly those bytes.  The model keeps the automaton (the
    [state...] step functions and the [parseState] stack keep their Go names)
    and lets it build the value tree while it scans. *)
Module json.

Inductive Value : Type :=
| VNull
| VBool (b : bool)
| VNumber (lit : string)          (* the literal, converted when stored *)
| VString (s : string)            (* unquoted *)
| VArray (elems : list Value)
| VObject (members : list (string * Value)).

(** *** UTF-8 ([unicode/utf8]) and string unquoting *)

Definition RuneError : Z := 65533.

Definition EncodeRune (r : Z) : string :=
  if (0 <=? r) && (r <=? 127) then str1 (byte r)
  else if (0 <=? r) && (r <=? 2047) then
    String (byte (192 + r / 64)) (str1 (byte (128 + r mod 64)))
  else if (r <? 0) || (1114111 <? r) || ((55296 <=? r) && (r <=? 57343)) then
    String (byte 239) (String (byte 191) (str1 (byte 189)))
  else if r <=? 65535 then
    String (byte (224 + r / 4096))
      (String (byte (128 + (r / 64) mod 64)) (str1 (byte (128 + r mod 64))))
  else
    String (byte (240 + r / 262144))
      (String (byte (128 + (r / 4096) mod 64))
         (String (byte (128 + (r / 64) mod 64)) (str1 (byte (128 + r mod 64))))).

(** [DecodeRune s] is the first rune of [s] and its width in bytes; an
    invalid or truncated encoding gives [(RuneError, 1)]. *)
Definition DecodeRune (s : string) : Z * nat :=
  let cont c := between 128 191 c in
  let low6 c := code c mod 64 in
  match s with
  | EmptyString => (RuneError, 0%nat)
  | String b0 s1 =>
      let x := code b0 in
      if x <? 128 then (x, 1%nat)
      else if (x <? 194) || (244 <? x) then (RuneError, 1%nat)
      else
        match s1 with
        | EmptyString => (RuneError, 1%nat)
        | String b1 s2 =>
            let lo := if x =? 224 then 160 else if x =? 240 then 144 else 128 in
            let hi := if x =? 237 then 159 else if x =? 244 then 143 else 191 in
            if negb (between lo hi b1) then (RuneError, 1%nat)
            else if x <? 224 then ((x mod 32) * 64 + low6 b1, 2%nat)
            else
              match s2 with
              | EmptyString => (RuneError, 1%nat)
              | String b2 s3 =>
                  if negb (cont b2) then (RuneError, 1%nat)
                  else if x <? 240 then
                    ((x mod 16) * 4096 + low6 b1 * 64 + low6 b2, 3%nat)
                  else
                    match s3 with
                    | EmptyString => (RuneError, 1%nat)
                    | String b3 _ =>
                        if negb (cont b3) then (RuneError, 1%nat)
                        else ((x mod 8) * 262144 + low6 b1 * 4096
                              + low6 b2 * 64 + low6 b3, 4%nat)
                    end
              end
        end
  end.

Fixpoint drop (n : nat) (s : string) : string :=
  match n, s with
  | S n', String _ rest => drop n' rest
  | _, _ => s
  end.

(** [getu4 s] decodes a leading [\uXXXX]; [-1] when [s] does not start
    with one. *)
Definition getu4 (s : string) : Z :=
  match s with
  | String b (String u (String h1 (String h2 (String h3 (String h4 _))))) =>
      if Ascii.eqb b "\"%char && Ascii.eqb u "u"%char
         && isHex h1 && isHex h2 && isHex h3 && isHex h4
      then ((hexval h1 * 16 + hexval h2) * 16 + hexval h3) * 16 + hexval h4
      else -1
  | _ => -1
  end.

Definition IsSurrogate (r : Z) : bool := (55296 <=? r) && (r <? 57344).

(** [utf16.DecodeRune]. *)
Definition DecodeSurrogates (r1 r2 : Z) : Z :=
  if (55296 <=? r1) && (r1 <? 56320) && (56320 <=? r2) && (r2 <? 57344)
  then (r1 - 55296) * 1024 + (r2 - 56320) + 65536
  else RuneError.

(** [unquote] on the bytes between the quotes of a string literal.  Every
    round consumes at least one byte, so [String.length s] rounds suffice. *)
Fixpoint unquoteBytes (fuel : nat) (s : string) : option string :=
  match fuel with
  | O => match s with EmptyString => Some EmptyString | _ => None end
  | S fuel' =>
      match s with
      | EmptyString => Some EmptyString
      | String c rest =>
          if Ascii.eqb c "\"%char then
            match rest with
            | EmptyString => None
            | String e rest' =>
                let lit x := option_map (String x) (unquoteBytes fuel' rest') in
                if Ascii.eqb e dquote || Ascii.eqb e "\"%char
                   || Ascii.eqb e "/"%char || Ascii.eqb e "'"%char then lit e
                else if Ascii.eqb e "b"%char then lit (byte 8)
                else if Ascii.eqb e "f"%char then lit (byte 12)
                else if Ascii.eqb e "n"%char then lit (byte 10)
                else if Ascii.eqb e "r"%char then lit (byte 13)
                else if Ascii.eqb e "t"%char then lit (byte 9)
                else if Ascii.eqb e "u"%char then
                  let rr := getu4 s in
                  if rr <? 0 then None
                  else
                    let after := drop 6 s in
                    if IsSurrogate rr then
                      let dec := DecodeSurrogates rr (getu4 after) in
                      if negb (dec =? RuneError) then
                        option_map (String.append (EncodeRune dec))
                                   (unquoteBytes fuel' (drop 6 after))
                      else
                        option_map (String.append (EncodeRune RuneError))
                                   (unquoteBytes fuel' after)
                    else
                      option_map (String.append (EncodeRune rr))
                                 (unquoteBytes fuel' after)
                else None
            end
          else if Ascii.eqb c dquote || (code c <? 32) then None
          else if code c <? 128 then
            option_map (String c) (unquoteBytes fuel' rest)
          else
            let '(rr, size) := DecodeRune s in
            option_map (String.append (EncodeRune rr))
                       (unquoteBytes fuel' (drop size s))
      end
  end.

Definition unquote (raw : string) : option string :=
  unquoteBytes (String.length raw) raw.

(** *** The scanner ([scanner.go])

    [parseState] entries carry what has been built so far, most recent
    first: the members of the enclosing object with the key that is waiting
    for its colon or its value, or the elements of the enclosing array. *)
Definition members : Type := list (string * Value).

Inductive parseState : Type :=
| parseObjectKey (ms : members) (key : option string)
| parseObjectValue (ms : members) (key : option string)
| parseArrayValue (es : list Value).

Inductive step : Type :=
| stateBeginValueOrEmpty
| stateBeginValue
| stateBeginStringOrEmpty
| stateBeginString
| stateEndValue
| stateEndTop (v : Value)
| stateInString (raw : string)
| stateInStringEsc (raw : string)
| stateInStringEscU (raw : string) (more : nat)
| stateNeg (lit : string)
| state1 (lit : string)
| state0 (lit : string)
| stateDot (lit : string)
| stateDot0 (lit : string)
| stateE (lit : string)
| stateESign (lit : string)
| stateE0 (lit : string)
| stateLiteral (name rest : string) (v : Value).

(** What one byte does to the scanner: it goes on, it ends the top-level
    value (having consumed the byte or not), or it is a syntax error. *)
Inductive op : Type :=
| scanContinue (s : step) (stk : list parseState)
| scanEnd (v : Value) (consumed : bool)
| scanError (e : error).

Definition isSpace (c : ascii) : bool :=
  Ascii.eqb c " "%char || (code c =? 9) || (code c =? 13) || (code c =? 10).

Definition maxNestingDepth : Z := 10000.

Definition pushParseState (c : ascii) (p : parseState) (stk : list parseState)
    (next : step) : op :=
  if Z.of_nat (length (p :: stk)) <=? maxNestingDepth
  then scanContinue next (p :: stk)
  else scanError (SyntaxError c "exceeded max depth").

(** A value [v] is complete below the stack [stk].  Inside a container it is
    stored in the enclosing entry and the scanner expects a separator next.
    At top level a closing bracket ends the value at once ([readValue] does
    not wait for a further byte after an object or array); any other value
    ends with the byte that follows it, or with the end of the input. *)
Definition endValue (v : Value) (stk : list parseState) (bracket : bool) : op :=
  match stk with
  | [] => if bracket then scanEnd v true else scanContinue (stateEndTop v) []
  | parseObjectKey ms None :: stk' =>
      match v with
      | VString k => scanContinue stateEndValue (parseObjectKey ms (Some k) :: stk')
      | _ => scanError PhaseError
      end
  | parseObjectValue ms (Some k) :: stk' =>
      scanContinue stateEndValue (parseObjectValue ((k, v) :: ms) None :: stk')
  | parseArrayValue es :: stk' =>
      scanContinue stateEndValue (parseArrayValue (v :: es) :: stk')
  | _ => scanError PhaseError
  end.

Definition stepEndValue (stk : list parseState) (c : ascii) : op :=
  if isSpace c then scanContinue stateEndValue stk
  else
    match stk with
    | [] => scanError PhaseError
    | parseObjectKey ms (Some k) :: stk' =>
        if Ascii.eqb c ":"%char
        then scanContinue stateBeginValue (parseObjectValue ms (Some k) :: stk')
        else scanError (SyntaxError c "after object key")
    | parseObjectValue ms None :: stk' =>
        if Ascii.eqb c ","%char
        then scanContinue stateBeginString (parseObjectKey ms None :: stk')
        else if Ascii.eqb c "}"%char
        then endValue (VObject (rev ms)) stk' true
        else scanError (SyntaxError c "after object key:value pair")
    | parseArrayValue es :: stk' =>
        if Ascii.eqb c ","%char
        then scanContinue stateBeginValue stk
        else if Ascii.eqb c "]"%char
        then endValue (VArray (rev es)) stk' true
        else scanError (SyntaxError c "after array element")
    | _ => scanError PhaseError
    end.

(** A number or literal [v] has ended because [c] cannot continue it: [c] is
    then looked at as the byte after a value. *)
Definition endThen (v : Value) (stk : list parseState) (c : ascii) : op :=
  match endValue v stk false with
  | scanContinue stateEndValue stk' => stepEndValue stk' c
  | scanContinue (stateEndTop v') _ => scanEnd v' false
  | other => other
  end.

Definition snoc (s : string) (c : ascii) : string := s +:+ str1 c.

Definition stepBeginValue (stk : list parseState) (c : ascii) : op :=
  if isSpace c then scanContinue stateBeginValue stk
  else if Ascii.eqb c "{"%char
  then pushParseState c (parseObjectKey [] None) stk stateBeginStringOrEmpty
  else if Ascii.eqb c "["%char
  then pushParseState c (parseArrayValue []) stk stateBeginValueOrEmpty
  else if Ascii.eqb c dquote then scanContinue (stateInString EmptyString) stk
  else if Ascii.eqb c "-"%char then scanContinue (stateNeg (str1 c)) stk
  else if Ascii.eqb c "0"%char then scanContinue (state0 (str1 c)) stk
  else if Ascii.eqb c "t"%char
  then scanContinue (stateLiteral "true" "rue" (VBool true)) stk
  else if Ascii.eqb c "f"%char
  then scanContinue (stateLiteral "false" "alse" (VBool false)) stk
  else if Ascii.eqb c "n"%char
  then scanContinue (stateLiteral "null" "ull" VNull) stk
  else if isDigit19 c then scanContinue (state1 (str1 c)) stk
  else scanError (SyntaxError c "looking for beginning of value").

Definition stepBeginString (stk : list parseState) (c : ascii) : op :=
  if isSpace c then scanContinue stateBeginString stk
  else if Ascii.eqb c dquote then scanContinue (stateInString EmptyString) stk
  else scanError (SyntaxError c "looking for beginning of object key string").

Definition step0 (lit : string) (stk : list parseState) (c : ascii) : op :=
  if Ascii.eqb c "."%char then scanContinue (stateDot (snoc lit c)) stk
  else if Ascii.eqb c "e"%char || Ascii.eqb c "E"%char
  then scanContinue (stateE (snoc lit c)) stk
  else endThen (VNumber lit) stk c.

Definition stepESign (lit : string) (stk : list parseState) (c : ascii) : op :=
  if isDigit c then scanContinue (stateE0 (snoc lit c)) stk
  else scanError (SyntaxError c "in exponent of numeric literal").

(** The scanner's transition on one byte. *)
Definition next (s : step) (stk : list parseState) (c : ascii) : op :=
  match s with
  | stateBeginValueOrEmpty =>
      if isSpace c then scanContinue stateBeginValueOrEmpty stk
      else if Ascii.eqb c "]"%char then stepEndValue stk c
      else stepBeginValue stk c
  | stateBeginValue => stepBeginValue stk c
  | stateBeginStringOrEmpty =>
      if isSpace c then scanContinue stateBeginStringOrEmpty stk
      else if Ascii.eqb c "}"%char then
        match stk with
        | parseObjectKey ms None :: stk' =>
            stepEndValue (parseObjectValue ms None :: stk') c
        | _ => scanError PhaseError
        end
      else stepBeginString stk c
  | stateBeginString => stepBeginString stk c
  | stateEndValue => stepEndValue stk c
  | stateEndTop v => scanEnd v false
  | stateInString raw =>
      if Ascii.eqb c dquote then
        match unquote raw with
        | Some s => endValue (VString s) stk false
        | None => scanError PhaseError
        end
      else if Ascii.eqb c "\"%char then scanContinue (stateInStringEsc (snoc raw c)) stk
      else if code c <? 32 then scanError (SyntaxError c "in string literal")
      else scanContinue (stateInString (snoc raw c)) stk
  | stateInStringEsc raw =>
      if Ascii.eqb c "b"%char || Ascii.eqb c "f"%char || Ascii.eqb c "n"%char
         || Ascii.eqb c "r"%char || Ascii.eqb c "t"%char || Ascii.eqb c "\"%char
         || Ascii.eqb c "/"%char || Ascii.eqb c dquote
      then scanContinue (stateInString (snoc raw c)) stk
      else if Ascii.eqb c "u"%char
      then scanContinue (stateInStringEscU (snoc raw c) 4) stk
      else scanError (SyntaxError c "in string escape code")
  | stateInStringEscU raw more =>
      if isHex c then
        match more with
        | S (S n) => scanContinue (stateInStringEscU (snoc raw c) (S n)) stk
        | _ => scanContinue (stateInString (snoc raw c)) stk
        end
      else scanError (SyntaxError c "in \u hexadecimal character escape")
  | stateNeg lit =>
      if Ascii.eqb c "0"%char then scanContinue (state0 (snoc lit c)) stk
      else if isDigit19 c then scanContinue (state1 (snoc lit c)) stk
      else scanError (SyntaxError c "in numeric literal")
  | state1 lit =>
      if isDigit c then scanContinue (state1 (snoc lit c)) stk
      else step0 lit stk c
  | state0 lit => step0 lit stk c
  | stateDot lit =>
      if isDigit c then scanContinue (stateDot0 (snoc lit c)) stk
      else scanError (SyntaxError c "after decimal point in numeric literal")
  | stateDot0 lit =>
      if isDigit c then scanContinue (stateDot0 (snoc lit c)) stk
      else if Ascii.eqb c "e"%char || Ascii.eqb c "E"%char
      then scanContinue (stateE (snoc lit c)) stk
      else endThen (VNumber lit) stk c
  | stateE lit =>
      if Ascii.eqb c "+"%char || Ascii.eqb c "-"%char
      then scanContinue (stateESign (snoc lit c)) stk
      else stepESign lit stk c
  | stateESign lit => stepESign lit stk c
  | stateE0 lit =>
      if isDigit c then scanContinue (stateE0 (snoc lit c)) stk
      else endThen (VNumber lit) stk c
  | stateLiteral name rest v =>
      match rest with
      | String x rest' =>
          if Ascii.eqb c x then
            match rest' with
            | EmptyString => endValue v stk false
            | _ => scanContinue (stateLiteral name rest' v) stk
            end
          else scanError (SyntaxError c ("in literal " +:+ name +:+ " (expecting '"
                                         +:+ str1 x +:+ "')"))
      | EmptyString => scanError PhaseError
      end
  end.

(** *** [Decoder.readValue]

    The scanner runs over the bytes the reader delivers.  [Found v rest]:
    the first value is [v] and [rest] was not examined.  At the end of the
    data the reader reports either [io.EOF] or an error of its own. *)
Inductive scanResult : Type :=
| Found (v : Value) (rest : string)
| Failed (e : error)
| Exhausted (s : step) (stk : list parseState).

Fixpoint scan (s : step) (stk : list parseState) (input : string) : scanResult :=
  match input with
  | EmptyString => Exhausted s stk
  | String c rest =>
      match next s stk c with
      | scanContinue s' stk' => scan s' stk' rest
      | scanEnd v true => Found v rest
      | scanEnd v false => Found v input
      | scanError e => Failed e
      end
  end.

Fixpoint nonSpace (b : string) : bool :=
  match b with
  | EmptyString => false
  | String c rest => negb (isSpace c) || nonSpace rest
  end.

Definition readValue (r : io.Reader) : (Value * string) + error :=
  match scan stateBeginValue [] (io.data r) with
  | Found v rest => inl (v, rest)
  | Failed e => inr e
  | Exhausted s stk =>
      match io.readError r with
      | Some e => inr e
      | None =>
          match next s stk " "%char with
          | scanEnd v _ => inl (v, EmptyString)
          | _ => inr (if nonSpace (io.data r) then ErrUnexpectedEOF else EOF)
          end
      end
  end.

(** *** Storing a value ([decode.go])

    [store j cur] is what [Unmarshal] does with the value [j] when the target
    currently holds [cur]: the new contents of the target and the error, if
    any.  A value of the wrong JSON type is reported as an
    [UnmarshalTypeError] and skipped; decoding goes on, and the first such
    error is the one returned ([saveError]).  The error carries the JSON
    type and the Go type; its offset, struct and field are not modelled. *)
Class Unmarshaler (T : Type) : Type := {
  typeName : string;
  zero : T;
  store : Value -> T -> T * option error
}.

Definition saveError (saved e : option error) : option error :=
  match saved with
  | Some _ => saved
  | None => e
  end.

Definition mismatch (type : string) (j : Value) : option error :=
  match j with
  | VNull => None
  | VBool _ => Some (UnmarshalTypeError "bool" type)
  | VNumber _ => Some (UnmarshalTypeError "number" type)
  | VString _ => Some (UnmarshalTypeError "string" type)
  | VArray _ => Some (UnmarshalTypeError "array" type)
  | VObject _ => Some (UnmarshalTypeError "object" type)
  end.

#[export] Instance string_Unmarshaler : Unmarshaler string := {|
  typeName := "string";
  zero := EmptyString;
  store j cur :=
    match j with
    | VString s => (s, None)
    | _ => (cur, mismatch "string" j)
    end
|}.

#[export] Instance bool_Unmarshaler : Unmarshaler bool := {|
  typeName := "bool";
  zero := false;
  store j cur :=
    match j with
    | VBool b => (b, None)
    | _ => (cur, mismatch "bool" j)
    end
|}.

(** [strconv.ParseInt(s, 10, 64)] on a JSON number literal: an optional
    minus sign and decimal digits, within the range of [int64]. *)
Fixpoint digits (acc : Z) (s : string) : option Z :=
  match s with
  | EmptyString => Some acc
  | String c rest =>
      if isDigit c then digits (acc * 10 + (code c - 48)) rest else None
  end.

Definition ParseInt (s : string) : option Z :=
  let magnitude d :=
    match d with
    | EmptyString => None
    | _ => digits 0 d
    end in
  let signed :=
    match s with
    | String c rest =>
        if Ascii.eqb c "-"%char then option_map Z.opp (magnitude rest)
        else if Ascii.eqb c "+"%char then magnitude rest
        else magnitude s
    | EmptyString => None
    end in
  match signed with
  | Some n =>
      if (- 9223372036854775808 <=? n) && (n <=? 9223372036854775807)
      then Some n else None
  | None => None
  end.

#[export] Instance int_Unmarshaler : Unmarshaler Z := {|
  typeName := "int";
  zero := 0;
  store j cur :=
    match j with
    | VNumber lit =>
        match ParseInt lit with
        | Some n => (n, None)
        | None => (cur, Some (UnmarshalTypeError ("number " +:+ lit) "int"))
        end
    | _ => (cur, mismatch "int" j)
    end
|}.

(** A JSON array stored in a slice: element [i] is decoded into the slice's
    element [i] where the slice already has one and into a zero value
    otherwise, and the slice ends up with the length of the array.  A slice
    is a [list]; its capacity, and a nil slice as distinct from an empty
    one, are not modelled. *)
Fixpoint array `{Unmarshaler A} (es : list Value) (cur : list A)
    : list A * option error :=
  match es with
  | [] => ([], None)
  | e :: es' =>
      let '(x, err) := store e (hd zero cur) in
      let '(xs, err') := array es' (tl cur) in
      (x :: xs, saveError err err')
  end.

#[export] Instance slice_Unmarshaler `{Unmarshaler A} : Unmarshaler (list A) := {|
  typeName := "[]" +:+ typeName (T := A);
  zero := [];
  store j cur :=
    match j with
    | VNull => ([], None)
    | VArray es => array es cur
    | _ => (cur, mismatch ("[]" +:+ typeName (T := A)) j)
    end
|}.

(** A struct type is described by its fields in declaration order: the name
    given by the [json] tag and what storing into the field does to the
    struct. *)
Record Field (T : Type) : Type := field' {
  name : string;
  setField : Value -> T -> T * option error
}.
Arguments field' {T}.
Arguments name {T}.
Arguments setField {T}.

Definition field {T A} `{Unmarshaler A} (tag : string)
    (get : T -> A) (set : A -> T -> T) : Field T :=
  field' tag (fun j t => let '(a, e) := store j (get t) in (set a t, e)).

(** Key matching.  [foldHead key] is the first rune of [key] under
    [foldName] when that is an ASCII byte, with the rest of the key: ASCII letters go to upper case, and so do the two runes
    outside ASCII whose case orbit contains an ASCII letter, U+017F (long s)
    and U+212A (Kelvin sign).  No other rune folds to ASCII, so this decides
    [foldName key = foldName name] for the ASCII names of the tags. *)
Definition foldHead (key : string) : option (ascii * string) :=
  match key with
  | EmptyString => None
  | String c rest =>
      if code c <? 128 then Some (upper c, rest)
      else
        match rest with
        | String c1 rest1 =>
            if (code c =? 197) && (code c1 =? 191) then Some ("S"%char, rest1)
            else
              match rest1 with
              | String c2 rest2 =>
                  if (code c =? 226) && (code c1 =? 132) && (code c2 =? 170)
                  then Some ("K"%char, rest2) else None
              | EmptyString => None
              end
        | EmptyString => None
        end
  end.

Fixpoint equalFold (key tag : string) : bool :=
  match tag with
  | EmptyString => match key with EmptyString => true | _ => false end
  | String n tag' =>
      match foldHead key with
      | Some (c, key') => Ascii.eqb c (upper n) && equalFold key' tag'
      | None => false
      end
  end.

(** An exact match of the key is preferred to a case-insensitive one; among
    several fields the first declared wins. *)
Definition lookupField {T} (fields : list (Field T)) (key : string)
    : option (Field T) :=
  match find (fun f => String.eqb (name f) key) fields with
  | Some f => Some f
  | None => find (fun f => equalFold key (name f)) fields
  end.

(** The members of an object are stored in the order of the document; a key
    that matches no field is skipped. *)
Fixpoint object {T} (fields : list (Field T)) (ms : members) (t : T)
    (saved : option error) : T * option error :=
  match ms with
  | [] => (t, saved)
  | (k, v) :: ms' =>
      match lookupField fields k with
      | Some f =>
          let '(t', e) := setField f v t in
          object fields ms' t' (saveError saved e)
      | None => object fields ms' t saved
      end
  end.

Definition struct_Unmarshaler {T} (tname : string) (z : T)
    (fields : list (Field T)) : Unmarshaler T :=
  {| typeName := tname;
     zero := z;
     store j cur :=
       match j with
       | VObject ms => object fields ms cur None
       | _ => (cur, mismatch tname j)
       end |}.

(** *** [Decoder.Decode]

    [json.NewDecoder(r).Decode(v)]: one value is read from the stream and
    stored; what follows it stays in the decoder's buffer. *)
Definition Decode `{Unmarshaler T} (r : io.Reader) (v : T) : T * option error :=
  match readValue r with
  | inl (j, _) => store j v
  | inr e => (v, Some e)
  end.

End json.

(** ** io/fs

    An [fs.FS] is its [Open] method: a file to read from, or an error. *)
Module fs.

Definition File : Type := io.Reader.
Definition FS : Type := string -> File + error.

End fs.

(** ** log

    [log.Printf] appends one line to the standard logger.  A line is kept as
    the call that produced it, its format and operands; the logger's output
    is the list of lines, oldest first.  The date and time the logger puts in
    front of every line are not part of the model. *)
Module log.

Inductive Arg : Type :=
| ArgString (s : string)
| ArgInt (n : Z)
| ArgError (e : error)
| ArgDuration (nanoseconds : Z)
| ArgCaller.                      (* a code location, not modelled *)

Record Line : Type := Printf { format : string; args : list Arg }.

Abbreviation Logger := (list Line).

End log.

(** ** net/url *)
Module url.

Abbreviation Values := (gmap string (list string)).

(** [QueryUnescape]: [%XX] is a byte, [+] is a space; a [%] that is not
    followed by two hexadecimal digits is an [EscapeError] on the (at most
    three) bytes from it. *)
Fixpoint take (n : nat) (s : string) : string :=
  match n, s with
  | S n', String c rest => String c (take n' rest)
  | _, _ => EmptyString
  end.

Fixpoint QueryUnescape (s : string) : string + error :=
  match s with
  | EmptyString => inl EmptyString
  | String c rest =>
      if Ascii.eqb c "%"%char then
        match rest with
        | String h1 (String h2 rest') =>
            if isHex h1 && isHex h2 then
              match QueryUnescape rest' with
              | inl t => inl (String (byte (hexval h1 * 16 + hexval h2)) t)
              | inr e => inr e
              end
            else inr (EscapeError (take 3 s))
        | _ => inr (EscapeError (take 3 s))
        end
      else
        match QueryUnescape rest with
        | inl t => inl (String (if Ascii.eqb c "+"%char then " "%char else c) t)
        | inr e => inr e
        end
  end.

(** [strings.Cut] on a one-byte separator, and the segments between the
    occurrences of a separator. *)
Fixpoint Cut (sep : ascii) (s : string) : string * string * bool :=
  match s with
  | EmptyString => (EmptyString, EmptyString, false)
  | String c rest =>
      if Ascii.eqb c sep then (EmptyString, rest, true)
      else let '(before, after, found) := Cut sep rest in
           (String c before, after, found)
  end.

Fixpoint segments (sep : ascii) (s : string) : list string :=
  match s with
  | EmptyString => [EmptyString]
  | String c rest =>
      match segments sep rest with
      | seg :: segs =>
          if Ascii.eqb c sep then EmptyString :: seg :: segs
          else String c seg :: segs
      | [] => []
      end
  end.

Fixpoint Contains (c : ascii) (s : string) : bool :=
  match s with
  | EmptyString => false
  | String x rest => Ascii.eqb x c || Contains c rest
  end.

Definition Add (m : Values) (key value : string) : Values :=
  <[key := default [] (m !! key) ++ [value]]> m.

(** [parseQuery]: the loop over the [&]-separated pairs of the query.  A
    pair that cannot be used is dropped and parsing goes on; the error
    reported is the semicolon error of the last pair with a semicolon, or
    else the first unescaping error. *)
Definition parsePair (acc : Values * option error) (pair : string)
    : Values * option error :=
  let '(m, err) := acc in
  if Contains ";"%char pair
  then (m, Some (ErrorString "invalid semicolon separator in query"))
  else
    match pair with
    | EmptyString => (m, err)
    | _ =>
        let '(key, value, _) := Cut "="%char pair in
        match QueryUnescape key with
        | inr err1 => (m, json.saveError err (Some err1))
        | inl key' =>
            match QueryUnescape value with
            | inr err1 => (m, json.saveError err (Some err1))
            | inl value' => (Add m key' value', err)
            end
        end
    end.

Definition parseQuery (m : Values) (query : string) : Values * option error :=
  match query with
  | EmptyString => (m, None)
  | _ => fold_left parsePair (segments "&"%char query) (m, None)
  end.

Definition ParseQuery (query : string) : Values * option error :=
  parseQuery ∅ query.

Record URL : Type := { Path : string; RawQuery : string }.

End url.

(** ** mime

    [mime.ParseMediaType] is taken as a parameter: the media type of a
    [Content-Type] value and the error, if any, of parsing its parameters. *)
Module mime.

Class Package : Type := { ParseMediaType : string -> string * option error }.

End mime.

(** ** net/http *)
Module http.

Definition StatusOK : Z := 200.
Definition StatusSwitchingProtocols : Z := 101.
Definition StatusNoContent : Z := 204.
Definition StatusNotModified : Z := 304.
Definition StatusBadRequest : Z := 400.
Definition StatusInternalServerError : Z := 500.

(** A header map.  Its keys are in canonical form; the keys this program
    uses are written that way in the source. *)
Abbreviation Header := (gmap string (list string)).

Definition Get (h : Header) (key : string) : string :=
  match h !! key with
  | Some (v :: _) => v
  | _ => EmptyString
  end.

(** *** Requests *)
Record Request : Type := {
  Method : string;
  URL : url.URL;
  ReqHeader : Header;
  Body : io.Reader;
  PostForm : option url.Values;
  Form : option url.Values
}.

Definition copyValues (dst src : url.Values) : url.Values :=
  union_with (fun vs ws => Some (vs ++ ws)) dst src.

Definition maxFormSize : Z := 10485760.

(** [parsePostForm]: the body is read and parsed when the media type of the
    request is [application/x-www-form-urlencoded]; any other body is left
    alone, without error.  A request without [Content-Type] counts as
    [application/octet-stream]. *)
Definition contentType (r : Request) : string :=
  match Get (ReqHeader r) "Content-Type" with
  | EmptyString => "application/octet-stream"
  | ct => ct
  end.

Definition parsePostForm {Mime : mime.Package} (r : Request)
    : option url.Values * option error :=
  let '(ct, err) := mime.ParseMediaType (contentType r) in
  if String.eqb ct "application/x-www-form-urlencoded" then
    let b := io.data (Body r) in
    if maxFormSize <? Z.of_nat (String.length b)
    then (None, Some (ErrorString "http: POST too large"))
    else
      match io.readError (Body r) with
      | Some e => (None, json.saveError err (Some e))
      | None =>
          let '(vs, e) := url.ParseQuery b in
          (Some vs, json.saveError err e)
      end
  else (None, err).

(** [Request.ParseForm]: the request with [PostForm] and [Form] filled
    in, and the error. *)
Definition ParseForm {Mime : mime.Package} (r : Request) : Request * option error :=
  let '(postForm, err) :=
    match PostForm r with
    | Some pf => (pf, None)
    | None =>
        let '(pf, err) :=
          if String.eqb (Method r) "POST" || String.eqb (Method r) "PUT"
             || String.eqb (Method r) "PATCH"
          then parsePostForm r else (None, None) in
        (default ∅ pf, err)
    end in
  let '(form, err) :=
    match Form r with
    | Some f => (f, err)
    | None =>
        let '(newValues, e) := url.ParseQuery (url.RawQuery (URL r)) in
        (copyValues postForm newValues, json.saveError err e)
    end in
  ({| Method := Method r; URL := URL r; ReqHeader := ReqHeader r; Body := Body r;
      PostForm := Some postForm; Form := Some form |}, err).

(** [Request.FormValue]: the first value of the key in [Form], which is
    parsed first if it has not been (multipart bodies are not modelled). *)
Definition FormValue {Mime : mime.Package} (r : Request) (key : string) : string :=
  let form :=
    match Form r with
    | Some f => f
    | None => default ∅ (Form (fst (ParseForm r)))
    end in
  match form !! key with
  | Some (v :: _) => v
  | _ => EmptyString
  end.

(** *** Response writers

    What a handler does to its [ResponseWriter] and to the standard logger
    is the sequence of calls it makes.  A handler is run by giving the calls,
    in order, to a writer; [None] is a panic, which ends the handler. *)
Inductive Call : Type :=
| HeaderDel (key : string)                   (* w.Header().Del(key) *)
| HeaderSet (key value : string)             (* w.Header().Set(key, value) *)
| WriteHeader (code : Z)                     (* w.WriteHeader(code) *)
| Write (p : string)                         (* w.Write(p) *)
| LogPrintf (format : string) (args : list log.Arg).

Class ResponseWriter (W : Type) : Type := {
  header : W -> Header;
  setHeader : Header -> W -> W;
  write : string -> W -> log.Logger -> W * log.Logger;
  writeHeader : Z -> W -> log.Logger -> option (W * log.Logger)
}.

Definition call `{ResponseWriter W} (c : Call) (st : W * log.Logger)
    : option (W * log.Logger) :=
  let '(w, l) := st in
  match c with
  | HeaderDel key => Some (setHeader (delete key (header w)) w, l)
  | HeaderSet key value => Some (setHeader (<[key := [value]]> (header w)) w, l)
  | WriteHeader code => writeHeader code w l
  | Write p => Some (write p w l)
  | LogPrintf format args => Some (w, l ++ [log.Printf format args])
  end.

Fixpoint run `{ResponseWriter W} (calls : list Call) (st : W * log.Logger)
    : option (W * log.Logger) :=
  match calls with
  | [] => Some st
  | c :: calls' =>
      match call c st with
      | Some st' => run calls' st'
      | None => None
      end
  end.

(** [http.Error(w, error, code)]: the calls it makes on [w]. *)
Definition Error (error : string) (code : Z) : list Call :=
  [ HeaderDel "Content-Length";
    HeaderSet "Content-Type" "text/plain; charset=utf-8";
    HeaderSet "X-Content-Type-Options" "nosniff";
    WriteHeader code;
    Write (error +:+ str1 (byte 10)) ].

(** The server's own writer (the [response] of [net/http/server.go]).
    [status] is the status code of the reply and [sent] the handler's
    headers that go with it, both fixed by the first [WriteHeader] (the
    headers the server adds of its own are not modelled); [body] is what
    [Write] has accepted; [informational] lists the 1xx replies sent ahead
    of the reply. *)
Record response : Type := {
  handlerHeader : Header;
  wroteHeader : bool;
  status : Z;
  sent : Header;
  contentLength : Z;
  written : Z;
  body : string;
  informational : list Z
}.

Definition newResponse : response :=
  {| handlerHeader := ∅; wroteHeader := false; status := 0; sent := ∅;
     contentLength := -1; written := 0; body := EmptyString;
     informational := [] |}.

Definition superfluous : log.Line :=
  log.Printf "http: superfluous response.WriteHeader call from %s (%s:%d)"
             [log.ArgCaller; log.ArgCaller; log.ArgCaller].

Definition response_WriteHeader (code : Z) (w : response) (l : log.Logger)
    : option (response * log.Logger) :=
  if wroteHeader w then Some (w, l ++ [superfluous])
  else if (code <? 100) || (999 <? code) then None
  else if (100 <=? code) && (code <=? 199) && negb (code =? StatusSwitchingProtocols)
  then Some ({| handlerHeader := handlerHeader w; wroteHeader := false;
                status := status w; sent := sent w;
                contentLength := contentLength w; written := written w;
                body := body w;
                informational := informational w ++ [code] |}, l)
  else
    let cl := Get (handlerHeader w) "Content-Length" in
    let valid :=
      match cl with
      | EmptyString => None
      | _ => match json.ParseInt cl with
             | Some v => if 0 <=? v then Some v else None
             | None => None
             end
      end in
    let hdr :=
      match cl, valid with
      | String _ _, None => delete "Content-Length" (handlerHeader w)
      | _, _ => handlerHeader w
      end in
    let l' :=
      match cl, valid with
      | String _ _, None =>
          l ++ [log.Printf "http: invalid Content-Length of %q" [log.ArgString cl]]
      | _, _ => l
      end in
    Some ({| handlerHeader := hdr; wroteHeader := true; status := code;
             sent := handlerHeader w; contentLength := default (-1) valid;
             written := written w; body := body w;
             informational := informational w |}, l').

Definition bodyAllowedForStatus (status : Z) : bool :=
  negb (((100 <=? status) && (status <=? 199))
        || (status =? StatusNoContent) || (status =? StatusNotModified)).

Definition response_Write (p : string) (w : response) (l : log.Logger)
    : response * log.Logger :=
  let '(w, l) :=
    if wroteHeader w then (w, l)
    else match response_WriteHeader StatusOK w l with
         | Some st => st
         | None => (w, l)
         end in
  let n := Z.of_nat (String.length p) in
  if n =? 0 then (w, l)
  else if negb (bodyAllowedForStatus (status w)) then (w, l)
  else
    let accepted :=
      negb ((negb (contentLength w =? -1)) && (contentLength w <? written w + n)) in
    ({| handlerHeader := handlerHeader w; wroteHeader := wroteHeader w;
        status := status w; sent := sent w; contentLength := contentLength w;
        written := written w + n;
        body := if accepted then body w +:+ p else body w;
        informational := informational w |}, l).

#[export] Instance response_ResponseWriter : ResponseWriter response := {|
  header := handlerHeader;
  setHeader h w :=
    {| handlerHeader := h; wroteHeader := wroteHeader w; status := status w;
       sent := sent w; contentLength := contentLength w; written := written w;
       body := body w; informational := informational w |};
  write := response_Write;
  writeHeader := response_WriteHeader
|}.

(** [finishRequest]: a handler that returned without having sent a header
    gets the implicit 200. *)
Definition finishRequest (st : response * log.Logger) : response * log.Logger :=
  let '(w, l) := st in
  if wroteHeader w then (w, l)
  else match response_WriteHeader StatusOK w l with
       | Some st' => st'
       | None => (w, l)
       end.

(** [serverHandler.ServeHTTP]: the server calls the handler it was given
    and, for a request whose query string holds a semicolon, logs a warning
    once the handler has returned.  (A handler can silence the warning
    through [AllowQuerySemicolons]; the server's logger is the standard
    logger unless [Server.ErrorLog] is set.  This program uses neither.) *)
Definition semicolonWarning : log.Line :=
  log.Printf "http: URL query contains semicolon, which is no longer a supported separator; parts of the query may be stripped when parsed; see golang.org/issue/25192" [].

Definition serverHandler `{ResponseWriter W}
    (handler : Request -> W * log.Logger -> option (W * log.Logger))
    (r : Request) (st : W * log.Logger) : option (W * log.Logger) :=
  match handler r st with
  | Some (w, l) =>
      Some (w, if url.Contains ";"%char (url.RawQuery (URL r))
               then l ++ [semicolonWarning] else l)
  | None => None
  end.

End http.

(** ** html/template

    The template engine is a parameter.  [ParseFS fsys pattern] is the
    template set parsed from the files of [fsys] that match [pattern], or an
    error.  [ExecuteTemplate t name data] is what executing the template
    [name] does: the [Write] calls it makes on its destination, in order,
    and the error that stopped it, if any.  Execution writes to the
    destination as it goes, so an error can follow output.  (A write that
    the destination refuses would stop the execution too; the writer of a
    fresh reply refuses none.) *)
Module template.

Class Package (Data : Type) : Type := {
  Template : Type;
  ParseFS : fs.FS -> string -> Template + error;
  ExecuteTemplate : Template -> string -> Data -> list string * option error
}.

End template.

(** ** Package handler ([internal/handler]) *)
Module handler.

Import json.

(** Project represents a portfolio project loaded from data/projects.json. *)
Record Project : Type := {
  Title : string;
  Description : string;
  Tags : list string;
  Link : string;
  Image : string
}.

(** Interest represents a personal interest loaded from data/interests.json. *)
Record Interest : Type := {
  Emoji : string;
  Label : string;
  Interest_Description : string
}.

(** Experience represents a single entry in data/experience.json. *)
Record Experience : Type := {
  Role : string;
  Company : string;
  CompanyURL : string;
  Logo : string;
  StartDate : string;
  EndDate : string;
  Experience_Description : list string;
  Type_ : string
}.

(** About holds profile data loaded from data/about.json. *)
Record About : Type := {
  Name : string;
  Tagline : string;
  Bio : string;
  Location : string;
  Availability : bool;
  YearsOfExperience : Z;
  Email : string;
  GitHub : string;
  LinkedIn : string;
  X : string;
  ProfilePhoto : string
}.

(** PageData is passed to all templates. *)
Record PageData : Type := {
  PageData_About : About;
  Projects : list Project;
  Interests : list Interest;
  Skills : list string;
  PageData_Experience : list Experience
}.

(** *** The struct types as [encoding/json] sees them: the [json] tags *)

Definition Project_fields : list (Field Project) :=
  [ field "title" Title
      (fun x p => Build_Project x (Description p) (Tags p) (Link p) (Image p));
    field "description" Description
      (fun x p => Build_Project (Title p) x (Tags p) (Link p) (Image p));
    field "tags" Tags
      (fun x p => Build_Project (Title p) (Description p) x (Link p) (Image p));
    field "link" Link
      (fun x p => Build_Project (Title p) (Description p) (Tags p) x (Image p));
    field "image" Image
      (fun x p => Build_Project (Title p) (Description p) (Tags p) (Link p) x) ].

#[export] Instance Project_Unmarshaler : Unmarshaler Project :=
  struct_Unmarshaler "handler.Project"
    (Build_Project EmptyString EmptyString [] EmptyString EmptyString)
    Project_fields.

Definition Interest_fields : list (Field Interest) :=
  [ field "emoji" Emoji
      (fun x i => Build_Interest x (Label i) (Interest_Description i));
    field "label" Label
      (fun x i => Build_Interest (Emoji i) x (Interest_Description i));
    field "description" Interest_Description
      (fun x i => Build_Interest (Emoji i) (Label i) x) ].

#[export] Instance Interest_Unmarshaler : Unmarshaler Interest :=
  struct_Unmarshaler "handler.Interest"
    (Build_Interest EmptyString EmptyString EmptyString)
    Interest_fields.

Definition Experience_fields : list (Field Experience) :=
  [ field "role" Role
      (fun x e => Build_Experience x (Company e) (CompanyURL e) (Logo e)
         (StartDate e) (EndDate e) (Experience_Description e) (Type_ e));
    field "company" Company
      (fun x e => Build_Experience (Role e) x (CompanyURL e) (Logo e)
         (StartDate e) (EndDate e) (Experience_Description e) (Type_ e));
    field "company_url" CompanyURL
      (fun x e => Build_Experience (Role e) (Company e) x (Logo e)
         (StartDate e) (EndDate e) (Experience_Description e) (Type_ e));
    field "logo" Logo
      (fun x e => Build_Experience (Role e) (Company e) (CompanyURL e) x
         (StartDate e) (EndDate e) (Experience_Description e) (Type_ e));
    field "start_date" StartDate
      (fun x e => Build_Experience (Role e) (Company e) (CompanyURL e) (Logo e)
         x (EndDate e) (Experience_Description e) (Type_ e));
    field "end_date" EndDate
      (fun x e => Build_Experience (Role e) (Company e) (CompanyURL e) (Logo e)
         (StartDate e) x (Experience_Description e) (Type_ e));
    field "description" Experience_Description
      (fun x e => Build_Experience (Role e) (Company e) (CompanyURL e) (Logo e)
         (StartDate e) (EndDate e) x (Type_ e));
    field "type" Type_
      (fun x e => Build_Experience (Role e) (Company e) (CompanyURL e) (Logo e)
         (StartDate e) (EndDate e) (Experience_Description e) x) ].

#[export] Instance Experience_Unmarshaler : Unmarshaler Experience :=
  struct_Unmarshaler "handler.Experience"
    (Build_Experience EmptyString EmptyString EmptyString EmptyString
       EmptyString EmptyString [] EmptyString)
    Experience_fields.

Definition About_fields : list (Field About) :=
  [ field "name" Name
      (fun x a => Build_About x (Tagline a) (Bio a) (Location a) (Availability a)
         (YearsOfExperience a) (Email a) (GitHub a) (LinkedIn a) (X a) (ProfilePhoto a));
    field "tagline" Tagline
      (fun x a => Build_About (Name a) x (Bio a) (Location a) (Availability a)
         (YearsOfExperience a) (Email a) (GitHub a) (LinkedIn a) (X a) (ProfilePhoto a));
    field "bio" Bio
      (fun x a => Build_About (Name a) (Tagline a) x (Location a) (Availability a)
         (YearsOfExperience a) (Email a) (GitHub a) (LinkedIn a) (X a) (ProfilePhoto a));
    field "location" Location
      (fun x a => Build_About (Name a) (Tagline a) (Bio a) x (Availability a)
         (YearsOfExperience a) (Email a) (GitHub a) (LinkedIn a) (X a) (ProfilePhoto a));
    field "availability" Availability
      (fun x a => Build_About (Name a) (Tagline a) (Bio a) (Location a) x
         (YearsOfExperience a) (Email a) (GitHub a) (LinkedIn a) (X a) (ProfilePhoto a));
    field "years_of_experience" YearsOfExperience
      (fun x a => Build_About (Name a) (Tagline a) (Bio a) (Location a) (Availability a)
         x (Email a) (GitHub a) (LinkedIn a) (X a) (ProfilePhoto a));
    field "email" Email
      (fun x a => Build_About (Name a) (Tagline a) (Bio a) (Location a) (Availability a)
         (YearsOfExperience a) x (GitHub a) (LinkedIn a) (X a) (ProfilePhoto a));
    field "github" GitHub
      (fun x a => Build_About (Name a) (Tagline a) (Bio a) (Location a) (Availability a)
         (YearsOfExperience a) (Email a) x (LinkedIn a) (X a) (ProfilePhoto a));
    field "linkedin" LinkedIn
      (fun x a => Build_About (Name a) (Tagline a) (Bio a) (Location a) (Availability a)
         (YearsOfExperience a) (Email a) (GitHub a) x (X a) (ProfilePhoto a));
    field "x" X
      (fun x a => Build_About (Name a) (Tagline a) (Bio a) (Location a) (Availability a)
         (YearsOfExperience a) (Email a) (GitHub a) (LinkedIn a) x (ProfilePhoto a));
    field "profile_photo" ProfilePhoto
      (fun x a => Build_About (Name a) (Tagline a) (Bio a) (Location a) (Availability a)
         (YearsOfExperience a) (Email a) (GitHub a) (LinkedIn a) (X a) x) ].

#[export] Instance About_Unmarshaler : Unmarshaler About :=
  struct_Unmarshaler "handler.About"
    (Build_About EmptyString EmptyString EmptyString EmptyString false 0
       EmptyString EmptyString EmptyString EmptyString EmptyString)
    About_fields.

(** *** The handler *)
Section Handler.

Context {Mime : mime.Package} {Tpl : template.Package PageData}.

(** Handler holds parsed templates and pre-loaded page data. *)
Record Handler : Type := {
  tmpl : template.Template;
  pageData : PageData
}.

Definition loadJSON `{Unmarshaler T} (fsys : fs.FS) (path : string) (v : T)
    : T * option error :=
  match fsys path with
  | inr err => (v, Some err)
  | inl f => Decode f v
  end.

(** [if err := e; err != nil { return nil, fmt.Errorf(format, err) }] *)
Definition orReturn {A} (r : A * option error) (format : string)
    (k : A -> option Handler * option error) : option Handler * option error :=
  match r with
  | (_, Some err) => (None, Some (WrapError format err))
  | (v, None) => k v
  end.

(** New creates a Handler by parsing templates and loading JSON data from
    fsys. *)
Definition New (fsys : fs.FS) : option Handler * option error :=
  match template.ParseFS fsys "templates/*.html" with
  | inr err => (None, Some (WrapError "parse templates: %w" err))
  | inl tmpl =>
      orReturn (loadJSON fsys "data/about.json" (zero (T := About)))
        "load about.json: %w" (fun about =>
      orReturn (loadJSON fsys "data/projects.json" (zero (T := list Project)))
        "load projects.json: %w" (fun projects =>
      orReturn (loadJSON fsys "data/interests.json" (zero (T := list Interest)))
        "load interests.json: %w" (fun interests =>
      orReturn (loadJSON fsys "data/skills.json" (zero (T := list string)))
        "load skills.json: %w" (fun skills =>
      orReturn (loadJSON fsys "data/experience.json" (zero (T := list Experience)))
        "load experience.json: %w" (fun experience =>
      (Some {| tmpl := tmpl;
               pageData := {| PageData_About := about;
                              Projects := projects;
                              Interests := interests;
                              Skills := skills;
                              PageData_Experience := experience |} |},
       None))))))
  end.

(** The methods have the pointer receiver [h *Handler].  A method is a
    function of the handler it finds behind the pointer and of the request;
    its outcome is the handler it leaves there and the calls it makes on
    its [ResponseWriter] and on the standard logger, in order. *)
Record Outcome : Type := { receiver : Handler; calls : list http.Call }.

Definition execute (h : Handler) (name : string) (data : PageData) : Outcome :=
  let '(out, err) := template.ExecuteTemplate (tmpl h) name data in
  {| receiver := h;
     calls :=
       map http.Write out ++
       match err with
       | Some err =>
           http.LogPrintf "template %q error: %v"
             [log.ArgString name; log.ArgError err]
           :: http.Error "internal server error" http.StatusInternalServerError
       | None => []
       end |}.

(** Index serves the full single-page application. *)
Definition Handler_Index (h : Handler) (r : http.Request) : Outcome :=
  execute h "base" (pageData h).

(** About serves the about section partial for HTMX. *)
Definition Handler_About (h : Handler) (r : http.Request) : Outcome :=
  execute h "about" (pageData h).

(** Projects serves the projects grid partial for HTMX. *)
Definition Handler_Projects (h : Handler) (r : http.Request) : Outcome :=
  execute h "projects" (pageData h).

(** Interests serves the interests grid partial for HTMX. *)
Definition Handler_Interests (h : Handler) (r : http.Request) : Outcome :=
  execute h "interests" (pageData h).

Definition emDash : string :=
  String (byte 226) (String (byte 128) (str1 (byte 148))).

Definition successFragment : string :=
  q "<div class='contact-success'><p>Thanks for reaching out "
  +:+ emDash +:+ " I'll be in touch soon.</p></div>".

(** Contact handles the contact form POST and returns a success fragment. *)
Definition Handler_Contact (h : Handler) (r : http.Request) : Outcome :=
  match http.ParseForm r with
  | (_, Some err) =>
      {| receiver := h; calls := http.Error "bad request" http.StatusBadRequest |}
  | (r, None) =>
      let name := http.FormValue r "name" in
      let email := http.FormValue r "email" in
      let message := http.FormValue r "message" in
      {| receiver := h;
         calls :=
           [ http.LogPrintf "contact form submission: name=%q email=%q message_len=%d"
               [log.ArgString name; log.ArgString email;
                log.ArgInt (Z.of_nat (String.length message))];
             http.HeaderSet "Content-Type" "text/html; charset=utf-8";
             http.Write successFragment ] |}
  end.

(** Health returns 200 OK for health checks. *)
Definition Handler_Health (h : Handler) (r : http.Request) : Outcome :=
  {| receiver := h; calls := [ http.WriteHeader http.StatusOK ] |}.

End Handler.

(** Where the calls of a method are meant, the outcome stands for them. *)
Coercion calls : Outcome >-> list.

End handler.

(** ** Package main ([cmd/server/main.go]) *)
Module main.

Import http.

(** [responseWriter] embeds the [http.ResponseWriter] it wraps and
    overrides [WriteHeader]; [Header] and [Write] are the embedded
    writer's own methods, promoted. *)
Record responseWriter (W : Type) : Type := {
  ResponseWriter : W;
  status : Z
}.
Arguments ResponseWriter {W}.
Arguments status {W}.

Definition responseWriter_WriteHeader `{http.ResponseWriter W} (code : Z)
    (rw : responseWriter W) (l : log.Logger)
    : option (responseWriter W * log.Logger) :=
  let rw := {| ResponseWriter := ResponseWriter rw; status := code |} in
  match writeHeader code (ResponseWriter rw) l with
  | Some (w, l) => Some ({| ResponseWriter := w; status := status rw |}, l)
  | None => None
  end.

#[export] Instance responseWriter_ResponseWriter `{http.ResponseWriter W}
    : http.ResponseWriter (responseWriter W) := {|
  header rw := header (ResponseWriter rw);
  setHeader h rw :=
    {| ResponseWriter := setHeader h (ResponseWriter rw); status := status rw |};
  write p rw l :=
    let '(w, l) := write p (ResponseWriter rw) l in
    ({| ResponseWriter := w; status := status rw |}, l);
  writeHeader := responseWriter_WriteHeader
|}.

(** [loggingMiddleware next] serves a request on the writer [w].  [start]
    and [finish] are the readings of the clock taken by [time.Now] before
    and by [time.Since] after the inner handler. *)
Definition loggingMiddleware `{http.ResponseWriter W}
    (next : Request -> list Call) (start finish : Z)
    (r : Request) (st : W * log.Logger) : option (W * log.Logger) :=
  let '(w, l) := st in
  let rw := {| ResponseWriter := w; status := StatusOK |} in
  match run (next r) (rw, l) with
  | Some (rw, l) =>
      Some (ResponseWriter rw,
            l ++ [log.Printf "%s %s %d %s"
                    [log.ArgString (Method r); log.ArgString (url.Path (URL r));
                     log.ArgInt (status rw); log.ArgDuration (finish - start)]])
  | None => None
  end.

(** The six routes that [main] binds to methods of the handler. *)
Inductive Route : Type :=
| GET_root | GET_partials_about | GET_partials_projects
| GET_partials_interests | POST_contact | GET_health.

Section Server.

Context {Mime : mime.Package} {Tpl : template.Package handler.PageData}.

Definition method (h : handler.Handler) (route : Route)
    : Request -> handler.Outcome :=
  match route with
  | GET_root => handler.Handler_Index h
  | GET_partials_about => handler.Handler_About h
  | GET_partials_projects => handler.Handler_Projects h
  | GET_partials_interests => handler.Handler_Interests h
  | POST_contact => handler.Handler_Contact h
  | GET_health => handler.Handler_Health h
  end.

(** The process after start-up: the handler behind the pointer that [main]
    obtained from [handler.New] and bound the routes to, and the output of
    the standard logger. *)
Record Server : Type := {
  h : handler.Handler;
  stdlog : log.Logger
}.

(** One request as the server handles it: the route the mux selected, the
    request, and the two readings of the clock. *)
Record Exchange : Type := {
  route : Route;
  request : Request;
  start : Z;
  finish : Z
}.

(** [serve]: a fresh [response], the server's [serverHandler] around the
    logging middleware around the method of the route, then [finishRequest].
    The method finds the handler of the server and the server keeps the
    handler the method leaves.  [None] is a panic of the handler; what the
    server does then is not modelled. *)
Definition serve (s : Server) (x : Exchange) : option (Server * response) :=
  let outcome := method (h s) (route x) in
  match serverHandler
          (loggingMiddleware (fun r => handler.calls (outcome r))
             (start x) (finish x))
          (request x) (newResponse, stdlog s) with
  | Some st =>
      let '(w, l) := finishRequest st in
      Some ({| h := handler.receiver (outcome (request x)); stdlog := l |}, w)
  | None => None
  end.

Fixpoint serveAll (s : Server) (xs : list Exchange) : option Server :=
  match xs with
  | [] => Some s
  | x :: xs' =>
      match serve s x with
      | Some (s', _) => serveAll s' xs'
      | None => None
      end
  end.

End Server.

End main.

(** ** Instances of the parameters and sample data

    A template engine whose templates ignore their data: a template set maps
    a name to the writes and the error of executing it, and parsing needs
    [templates/base.html] to exist.  A [ParseMediaType] for values that are
    a media type in lower case without parameters. *)
Module sample.

Import handler.

Definition notExist (path : string) : fs.File + error :=
  inr (PathError "open" path ErrNotExist).

Definition file (content : string) : fs.File + error :=
  inl {| io.data := content; io.failure := None |}.

Definition Templates : Type := string -> list string * option error.

Definition engine (set : Templates) : template.Package PageData := {|
  template.Template := Templates;
  template.ParseFS fsys pattern :=
    match fsys "templates/base.html" with
    | inl _ => inl set
    | inr _ => inr (LibError "template" "pattern matches no files")
    end;
  template.ExecuteTemplate t name data := t name
|}.

Definition plain : mime.Package := {| mime.ParseMediaType v := (v, None) |}.

(** Every template renders one line. *)
Definition pages : Templates := fun name => (["<h1>" +:+ name +:+ "</h1>"], None).

(** [base] writes its first bytes and then fails, as a template does that
    refers to a field its data does not have. *)
Definition broken : Templates := fun name =>
  if String.eqb name "base"
  then (["<html>"], Some (LibError "template" "can't evaluate field"))
  else pages name.

Definition about_json : string :=
  q "{'name': 'Ada', 'tagline': 'Engineer', 'bio': 'Builds things.',
      'location': 'Paris', 'availability': true, 'years_of_experience': 12,
      'email': 'ada@example.org', 'github': 'ada', 'linkedin': 'ada-l',
      'x': 'ada_x', 'profile_photo': '/static/images/ada.jpg'}".

(** [about_json] without its [name] member. *)
Definition about_without_name : string :=
  q "{'tagline': 'Engineer', 'bio': 'Builds things.',
      'location': 'Paris', 'availability': true, 'years_of_experience': 12,
      'email': 'ada@example.org', 'github': 'ada', 'linkedin': 'ada-l',
      'x': 'ada_x', 'profile_photo': '/static/images/ada.jpg'}".

Definition projects_json : string :=
  q "[{'title': 'Site', 'description': 'This site', 'tags': ['go', 'htmx'],
       'link': 'https://example.org', 'image': '/static/images/site.png'}]".

Definition interests_json : string :=
  q "[{'emoji': '*', 'label': 'Chess', 'description': 'Blitz'}]".

Definition skills_json : string := q "['Go', 'Rocq']".

Definition experience_json : string :=
  q "[{'role': 'Engineer', 'company': 'Acme', 'company_url': 'https://acme.example',
       'logo': '/static/images/acme.png', 'start_date': '2020', 'end_date': '2024',
       'description': ['Built', 'Shipped'], 'type': 'work'}]".

(** A file tree with the five fixtures, given the text of two of them. *)
Definition tree (about skills : string) : fs.FS := fun path =>
  if String.eqb path "templates/base.html" then file "<html></html>"
  else if String.eqb path "data/about.json" then file about
  else if String.eqb path "data/projects.json" then file projects_json
  else if String.eqb path "data/interests.json" then file interests_json
  else if String.eqb path "data/skills.json" then file skills
  else if String.eqb path "data/experience.json" then file experience_json
  else notExist path.

Definition ada : About :=
  {| Name := "Ada"; Tagline := "Engineer"; Bio := "Builds things.";
     Location := "Paris"; Availability := true; YearsOfExperience := 12;
     Email := "ada@example.org"; GitHub := "ada"; LinkedIn := "ada-l";
     X := "ada_x"; ProfilePhoto := "/static/images/ada.jpg" |}.

Definition page (about : About) : PageData :=
  {| PageData_About := about;
     Projects := [ {| Title := "Site"; Description := "This site";
                      Tags := ["go"; "htmx"]; Link := "https://example.org";
                      Image := "/static/images/site.png" |} ];
     Interests := [ {| Emoji := "*"; Label := "Chess";
                       Interest_Description := "Blitz" |} ];
     Skills := ["Go"; "Rocq"];
     PageData_Experience :=
       [ {| Role := "Engineer"; Company := "Acme";
            CompanyURL := "https://acme.example";
            Logo := "/static/images/acme.png"; StartDate := "2020";
            EndDate := "2024"; Experience_Description := ["Built"; "Shipped"];
            Type_ := "work" |} ] |}.

(** Requests, and the server with the sample data behind a template set. *)
Definition post (body : string) : http.Request :=
  {| http.Method := "POST";
     http.URL := {| url.Path := "/contact"; url.RawQuery := EmptyString |};
     http.ReqHeader := {["Content-Type" := ["application/x-www-form-urlencoded"]]};
     http.Body := {| io.data := body; io.failure := None |};
     http.PostForm := None;
     http.Form := None |}.

Definition getQuery (path query : string) : http.Request :=
  {| http.Method := "GET";
     http.URL := {| url.Path := path; url.RawQuery := query |};
     http.ReqHeader := ∅;
     http.Body := {| io.data := EmptyString; io.failure := None |};
     http.PostForm := None;
     http.Form := None |}.

Definition get (path : string) : http.Request := getQuery path EmptyString.

Definition jane : http.Request := post "name=Jane&email=jane@x.com&message=hi".

(** The same form, posted to a URL whose query string has a broken escape. *)
Definition janeTagged : http.Request :=
  {| http.Method := "POST";
     http.URL := {| url.Path := "/contact"; url.RawQuery := "utm=%zz" |};
     http.ReqHeader := {["Content-Type" := ["application/x-www-form-urlencoded"]]};
     http.Body := {| io.data := "name=Jane&email=jane@x.com&message=hi";
                     io.failure := None |};
     http.PostForm := None;
     http.Form := None |}.

(** A JSON body, sent as such; its percent sign is not a form escape. *)
Definition jsonBody : string := q "{'name': 'Jane', 'message': '100%'}".

Definition jsonPost : http.Request :=
  {| http.Method := "POST";
     http.URL := {| url.Path := "/contact"; url.RawQuery := EmptyString |};
     http.ReqHeader := {["Content-Type" := ["application/json"]]};
     http.Body := {| io.data := jsonBody; io.failure := None |};
     http.PostForm := None;
     http.Form := None |}.

Definition server (set : Templates) : main.Server (Tpl := engine set) :=
  {| main.h := @Build_Handler (engine set) set (page ada); main.stdlog := [] |}.

Definition exchange (route : main.Route) (r : http.Request) : main.Exchange :=
  {| main.route := route; main.request := r; main.start := 0; main.finish := 1500 |}.

End sample.

(** ** Vocabulary of the properties *)

Import json handler.

(** The five fixture files, in the order in which [New] loads them, and the
    error, if any, of loading each into a zero value of its type. *)
Inductive Fixture : Type :=
| AboutFile | ProjectsFile | InterestsFile | SkillsFile | ExperienceFile.

Definition fixtures : list Fixture :=
  [AboutFile; ProjectsFile; InterestsFile; SkillsFile; ExperienceFile].

Definition fileName (f : Fixture) : string :=
  match f with
  | AboutFile => "about.json"
  | ProjectsFile => "projects.json"
  | InterestsFile => "interests.json"
  | SkillsFile => "skills.json"
  | ExperienceFile => "experience.json"
  end.

Definition loadError (fsys : fs.FS) (f : Fixture) : option error :=
  match f with
  | AboutFile =>
      snd (handler.loadJSON fsys "data/about.json" (json.zero (T := handler.About)))
  | ProjectsFile =>
      snd (handler.loadJSON fsys "data/projects.json" (json.zero (T := list handler.Project)))
  | InterestsFile =>
      snd (handler.loadJSON fsys "data/interests.json" (json.zero (T := list handler.Interest)))
  | SkillsFile =>
      snd (handler.loadJSON fsys "data/skills.json" (json.zero (T := list string)))
  | ExperienceFile =>
      snd (handler.loadJSON fsys "data/experience.json" (json.zero (T := list handler.Experience)))
  end.

Fixpoint firstFailure (fsys : fs.FS) (fs : list Fixture) : option (Fixture * error) :=
  match fs with
  | [] => None
  | f :: fs' =>
      match loadError fsys f with
      | Some e => Some (f, e)
      | None => firstFailure fsys fs'
      end
  end.

(** The page data [New] builds when every file loads. *)
Definition loaded (fsys : fs.FS) : handler.PageData :=
  {| handler.PageData_About := fst (handler.loadJSON fsys "data/about.json" json.zero);
     handler.Projects := fst (handler.loadJSON fsys "data/projects.json" json.zero);
     handler.Interests := fst (handler.loadJSON fsys "data/interests.json" json.zero);
     handler.Skills := fst (handler.loadJSON fsys "data/skills.json" json.zero);
     handler.PageData_Experience :=
       fst (handler.loadJSON fsys "data/experience.json" json.zero) |}.

(** Arrays and objects, the values the five fixtures hold at top level. *)
Definition isContainer (v : Value) : bool :=
  match v with
  | VArray _ | VObject _ => true
  | _ => false
  end.

(** The value a scanner state holds while it waits for the byte after a
    top-level value, or while it reads a literal, is not a container. *)
Definition plainValue (s : step) : Prop :=
  match s with
  | stateEndTop v | stateLiteral _ _ v => isContainer v = false
  | _ => True
  end.

(** The code a handler passed to [WriteHeader] last, [code] if it made no
    such call. *)
Fixpoint lastWriteHeader (code : Z) (calls : list http.Call) : Z :=
  match calls with
  | [] => code
  | http.WriteHeader code' :: calls' => lastWriteHeader code' calls'
  | _ :: calls' => lastWriteHeader code calls'
  end.

Definition callsWriteHeader (c : http.Call) : bool :=
  match c with
  | http.WriteHeader _ => true
  | _ => false
  end.

(** A status code that [WriteHeader] accepts as the status of the reply. *)
Definition finalCode (code : Z) : bool :=
  (code =? 101) || ((200 <=? code) && (code <=? 999)).

(** The handler settles the status once: its first [WriteHeader] carries a
    final status code and comes before any [Write], and nothing calls
    [WriteHeader] after the header is out. *)
Fixpoint headerOnce (calls : list http.Call) : bool :=
  match calls with
  | [] => true
  | http.WriteHeader code :: calls' =>
      finalCode code && forallb (fun c => negb (callsWriteHeader c)) calls'
  | http.Write _ :: calls' => forallb (fun c => negb (callsWriteHeader c)) calls'
  | _ :: calls' => headerOnce calls'
  end.

(** A reply whose header is out with status 200 and no declared length:
    the state in which a body is streamed. *)
Definition streaming (w : http.response) : Prop :=
  http.wroteHeader w = true /\ http.status w = http.StatusOK /\
  http.contentLength w = -1.

(** The headers [http.Error] leaves in a header map. *)
Definition errorHeader (hdr : http.Header) : http.Header :=
  <["X-Content-Type-Options" := ["nosniff"]]>
    (<["Content-Type" := ["text/plain; charset=utf-8"]]>
       (delete "Content-Length" hdr)).

(** The lines a handler prints with [log.Printf]. *)
Fixpoint printed (calls : list http.Call) : list log.Line :=
  match calls with
  | [] => []
  | http.LogPrintf format args :: calls' => log.Printf format args :: printed calls'
  | _ :: calls' => printed calls'
  end.

Definition concat (out : list string) : string :=
  fold_right String.append EmptyString out.

(** The line of the logging middleware. *)
Definition accessLine (r : http.Request) (status start finish : Z) : log.Line :=
  log.Printf "%s %s %d %s"
    [log.ArgString (http.Method r); log.ArgString (url.Path (http.URL r));
     log.ArgInt status; log.ArgDuration (finish - start)].

(** The template each rendering route executes. *)
Definition templateOf (route : main.Route) : option string :=
  match route with
  | main.GET_root => Some "base"
  | main.GET_partials_about => Some "about"
  | main.GET_partials_projects => Some "projects"
  | main.GET_partials_interests => Some "interests"
  | main.POST_contact => None
  | main.GET_health => None
  end.

(** The line [Contact] logs for a submission. *)
Definition submission (name email : string) (messageLen : Z) : log.Line :=
  log.Printf "contact form submission: name=%q email=%q message_len=%d"
    [log.ArgString name; log.ArgString email; log.ArgInt messageLen].

Definition templateError (name : string) (err : error) : log.Line :=
  log.Printf "template %q error: %v" [log.ArgString name; log.ArgError err].

(** What the server itself logs for a request: a warning when the query
    string of its URL holds a semicolon. *)
Definition queryWarning (r : http.Request) : list log.Line :=
  if url.Contains ";"%char (url.RawQuery (http.URL r))
  then [http.semicolonWarning] else [].

(** What the fields of a record hold, by the [json] tags of the fields. *)
Inductive FieldValue : Type :=
  | FString (s : string)
  | FBool (b : bool)
  | FInt (n : Z)
  | FStrings (ss : list string).

Definition Project_view (p : Project) : list (string * FieldValue) :=
  [ ("title", FString (Title p)); ("description", FString (Description p));
    ("tags", FStrings (Tags p)); ("link", FString (Link p));
    ("image", FString (Image p)) ].

Definition Interest_view (i : Interest) : list (string * FieldValue) :=
  [ ("emoji", FString (Emoji i)); ("label", FString (Label i));
    ("description", FString (Interest_Description i)) ].

Definition Experience_view (e : Experience) : list (string * FieldValue) :=
  [ ("role", FString (Role e)); ("company", FString (Company e));
    ("company_url", FString (CompanyURL e)); ("logo", FString (Logo e));
    ("start_date", FString (StartDate e)); ("end_date", FString (EndDate e));
    ("description", FStrings (Experience_Description e));
    ("type", FString (Type_ e)) ].

Definition About_view (a : About) : list (string * FieldValue) :=
  [ ("name", FString (Name a)); ("tagline", FString (Tagline a));
    ("bio", FString (Bio a)); ("location", FString (Location a));
    ("availability", FBool (Availability a));
    ("years_of_experience", FInt (YearsOfExperience a));
    ("email", FString (Email a)); ("github", FString (GitHub a));
    ("linkedin", FString (LinkedIn a)); ("x", FString (X a));
    ("profile_photo", FString (ProfilePhoto a)) ].

Fixpoint fieldOf (tag : string) (view : list (string * FieldValue))
    : option FieldValue :=
  match view with
  | [] => None
  | (k, x) :: view' => if String.eqb k tag then Some x else fieldOf tag view'
  end.

(** No member of an object selects the field with the tag [tag]: no key is
    the tag, in whatever case its letters are. *)
Definition omits (ms : members) (tag : string) : Prop :=
  forall k v, In (k, v) ms -> equalFold k tag = false.

(** ** Vocabulary of the further properties *)

(** [strings.ToUpper] on ASCII text, and the test that a string is ASCII. *)
Fixpoint toUpper (s : string) : string :=
  match s with
  | EmptyString => EmptyString
  | String c rest => String (upper c) (toUpper rest)
  end.

Fixpoint isASCII (s : string) : bool :=
  match s with
  | EmptyString => true
  | String c rest => (code c <? 128) && isASCII rest
  end.

(** The tags of a struct type are distinct even when letter case is ignored. *)
Definition caseDistinct {T} (fields : list (Field T)) : Prop :=
  NoDup (map (fun f => toUpper (name f)) fields).

(** The scanner is at top level and what it has read so far could be a
    complete value that is not an array or an object: it waits for the byte
    after the value, or it is inside a number with nothing open. *)
Definition atTopLevel (s : step) (stk : list parseState) : Prop :=
  match s with
  | stateEndTop _ => True
  | state1 _ | state0 _ | stateDot _ | stateDot0 _
  | stateE _ | stateESign _ | stateE0 _ => stk = []
  | _ => False
  end.

(** The values a [[]string] target takes without error, and the string each
    leaves in a fresh slice. *)
Definition stringOrNull (e : Value) : bool :=
  match e with
  | VNull | VString _ => true
  | _ => false
  end.

Definition textOf (e : Value) : string :=
  match e with
  | VString s => s
  | _ => EmptyString
  end.

(** The JSON values of the data model: the object that gives every field
    of a struct under its tag, in the order of declaration.  The number of
    years is given by its literal. *)
Definition Project_value (p : Project) : Value :=
  VObject [ ("title", VString (Title p));
            ("description", VString (Description p));
            ("tags", VArray (map VString (Tags p)));
            ("link", VString (Link p));
            ("image", VString (Image p)) ].

Definition Interest_value (i : Interest) : Value :=
  VObject [ ("emoji", VString (Emoji i));
            ("label", VString (Label i));
            ("description", VString (Interest_Description i)) ].

Definition Experience_value (e : Experience) : Value :=
  VObject [ ("role", VString (Role e));
            ("company", VString (Company e));
            ("company_url", VString (CompanyURL e));
            ("logo", VString (Logo e));
            ("start_date", VString (StartDate e));
            ("end_date", VString (EndDate e));
            ("description", VArray (map VString (Experience_Description e)));
            ("type", VString (Type_ e)) ].

Definition About_value (years : string) (a : About) : Value :=
  VObject [ ("name", VString (Name a));
            ("tagline", VString (Tagline a));
            ("bio", VString (Bio a));
            ("location", VString (Location a));
            ("availability", VBool (Availability a));
            ("years_of_experience", VNumber years);
            ("email", VString (Email a));
            ("github", VString (GitHub a));
            ("linkedin", VString (LinkedIn a));
            ("x", VString (X a));
            ("profile_photo", VString (ProfilePhoto a)) ].

(** Strings that need no escaping in a JSON string literal: printable ASCII
    without the double quote and the backslash; and the literal of such a
    string. *)
Definition plainByte (c : ascii) : bool :=
  (32 <=? code c) && (code c <? 128)
  && negb (Ascii.eqb c dquote) && negb (Ascii.eqb c "\"%char).

Fixpoint plain (s : string) : bool :=
  match s with
  | EmptyString => true
  | String c rest => plainByte c && plain rest
  end.

Definition quoted (s : string) : string := String dquote (s +:+ str1 dquote).

(** *** Printing values

    The compact text of a JSON value: no white space, members and elements
    separated by commas, strings between quotes without escapes.  A number
    is printed as its literal. *)
Fixpoint commas (items : list string) : string :=
  match items with
  | [] => EmptyString
  | [item] => item
  | item :: items' => item +:+ String ","%char (commas items')
  end.

Fixpoint print (v : Value) : string :=
  match v with
  | VNull => "null"
  | VBool b => if b then "true" else "false"
  | VNumber lit => lit
  | VString s => quoted s
  | VArray es => String "["%char (commas (map print es) +:+ "]")
  | VObject ms =>
      String "{"%char
        (commas (map (fun m => quoted (fst m) +:+ String ":"%char (print (snd m))) ms)
         +:+ "}")
  end.

(** The literal of a natural number: [0], or digits that do not start
    with [0]. *)
Fixpoint allDigits (s : string) : bool :=
  match s with
  | EmptyString => true
  | String c rest => isDigit c && allDigits rest
  end.

Definition naturalLiteral (lit : string) : bool :=
  match lit with
  | EmptyString => false
  | String c rest =>
      if Ascii.eqb c "0"%char then
        match rest with EmptyString => true | _ => false end
      else isDigit19 c && allDigits rest
  end.

(** The values whose printed text the scanner reads back: their strings
    and keys are plain and their numbers are naturals. *)
Fixpoint printable (v : Value) : bool :=
  match v with
  | VNull | VBool _ => true
  | VNumber lit => naturalLiteral lit
  | VString s => plain s
  | VArray es => forallb printable es
  | VObject ms => forallb (fun m => plain (fst m) && printable (snd m)) ms
  end.

(** How deep arrays and objects are nested in a value. *)
Fixpoint depth (v : Value) : nat :=
  match v with
  | VArray es => S (list_max (map depth es))
  | VObject ms => S (list_max (map (fun m => depth (snd m)) ms))
  | _ => O
  end.

(** The parse stack expects a value, and the stack once the value [v] is
    filed in its top entry. *)
Definition expectsValue (stk : list parseState) : Prop :=
  match stk with
  | parseArrayValue _ :: _ | parseObjectValue _ (Some _) :: _ => True
  | _ => False
  end.

Definition filed (v : Value) (stk : list parseState) : list parseState :=
  match stk with
  | parseArrayValue es :: stk' => parseArrayValue (v :: es) :: stk'
  | parseObjectValue ms (Some k) :: stk' => parseObjectValue ((k, v) :: ms) None :: stk'
  | _ => stk
  end.

(** The bytes that follow a value inside an array or an object. *)
Definition isSeparator (c : ascii) : bool :=
  Ascii.eqb c ","%char || Ascii.eqb c "]"%char || Ascii.eqb c "}"%char.

(** What [scan] does once the scanner has taken the byte [c]. *)
Definition resume (o : op) (c : ascii) (rest : string) : scanResult :=
  match o with
  | scanContinue s stk => scan s stk rest
  | scanEnd v true => Found v rest
  | scanEnd v false => Found v (String c rest)
  | scanError e => Failed e
  end.

(** The JSON value of each fixture for the page data [d]. *)
Definition fixtureValue (years : string) (d : PageData) (f : Fixture) : Value :=
  match f with
  | AboutFile => About_value years (PageData_About d)
  | ProjectsFile => VArray (map Project_value (Projects d))
  | InterestsFile => VArray (map Interest_value (Interests d))
  | SkillsFile => VArray (map VString (Skills d))
  | ExperienceFile => VArray (map Experience_value (PageData_Experience d))
  end.

(** What is proved of every printable value: inside an array or an object
    and followed by a separator, its text is read as the value, which is
    filed in the enclosing entry. *)
Definition readsBack (v : Value) : Prop :=
  printable v = true ->
  forall stk c rest,
    expectsValue stk -> Z.of_nat (length stk + depth v) < maxNestingDepth ->
    isSeparator c = true ->
    scan stateBeginValue stk (print v +:+ String c rest)
    = scan stateEndValue (filed v stk) (String c rest).

(** A file tree whose fixtures are the printed values of the page data
    [d]. *)
Definition printedTree (years : string) (d : PageData) : fs.FS := fun path =>
  if String.eqb path "templates/base.html" then sample.file "<html></html>"
  else if String.eqb path "data/about.json"
  then sample.file (print (fixtureValue years d AboutFile))
  else if String.eqb path "data/projects.json"
  then sample.file (print (fixtureValue years d ProjectsFile))
  else if String.eqb path "data/interests.json"
  then sample.file (print (fixtureValue years d InterestsFile))
  else if String.eqb path "data/skills.json"
  then sample.file (print (fixtureValue years d SkillsFile))
  else if String.eqb path "data/experience.json"
  then sample.file (print (fixtureValue years d ExperienceFile))
  else sample.notExist path.

(** The key and the value that a pair of a query contributes, when it
    contributes: it has no semicolon, is not empty, and both parts can be
    unescaped. *)
Definition decodePair (pair : string) : option (string * string) :=
  if url.Contains ";"%char pair then None
  else
    match pair with
    | EmptyString => None
    | _ =>
        let '(key, value, _) := url.Cut "="%char pair in
        match url.QueryUnescape key, url.QueryUnescape value with
        | inl key', inl value' => Some (key', value')
        | _, _ => None
        end
    end.

(** The value a pair gives to [key], and the values the pairs of a query
    give to it, in the order of the pairs. *)
Definition valueFor (key pair : string) : option string :=
  match decodePair pair with
  | Some (k, v) => if String.eqb k key then Some v else None
  | None => None
  end.

Definition valuesOf (query key : string) : list string :=
  omap (valueFor key) (url.segments "&"%char query).

Definition semicolonError : error :=
  ErrorString "invalid semicolon separator in query".

Definition formType : string := "application/x-www-form-urlencoded".

(** The value of a form field of a request whose body is a form: the first
    of the values the body gives it, or else the first of those the query
    string of the URL gives it; empty when there is none. *)
Definition fieldValue (r : http.Request) (key : string) : string :=
  List.hd EmptyString
    (valuesOf (io.data (http.Body r)) key
     ++ valuesOf (url.RawQuery (http.URL r)) key).

(** [url.QueryEscape], the encoding of a form value that [QueryUnescape]
    undoes: letters, digits and [-_.~] stand for themselves, a space is a
    plus sign, and any other byte is a percent sign and two upper-case
    hexadecimal digits. *)
Definition unreserved (c : ascii) : bool :=
  between 97 122 c || between 65 90 c || between 48 57 c
  || Ascii.eqb c "-"%char || Ascii.eqb c "_"%char
  || Ascii.eqb c "."%char || Ascii.eqb c "~"%char.

Definition upperhex (n : Z) : ascii :=
  if n <? 10 then byte (48 + n) else byte (55 + n).

Definition escapeByte (c : ascii) : string :=
  if unreserved c then str1 c
  else if Ascii.eqb c " "%char then "+"
  else String "%"%char
         (String (upperhex (code c / 16)) (str1 (upperhex (code c mod 16)))).

Fixpoint QueryEscape (s : string) : string :=
  match s with
  | EmptyString => EmptyString
  | String c rest => escapeByte c +:+ QueryEscape rest
  end.

(** The body of a contact form as a browser submits it, and the request
    that posts it. *)
Definition formBody (name email message : string) : string :=
  "name=" +:+ QueryEscape name +:+ "&email=" +:+ QueryEscape email
  +:+ "&message=" +:+ QueryEscape message.

Definition submit (name email message : string) : http.Request :=
  sample.post (formBody name email message).

(** A form that names a field twice, posted to a URL whose query string
    names fields too; and a form whose body cannot be read to the end. *)
Definition twoNames : http.Request :=
  {| http.Method := "POST";
     http.URL := {| url.Path := "/contact";
                    url.RawQuery := "email=q@x.com&name=Quinn" |};
     http.ReqHeader := {["Content-Type" := ["application/x-www-form-urlencoded"]]};
     http.Body := {| io.data := "name=Jane&name=Joan&message=a+b%21";
                     io.failure := None |};
     http.PostForm := None;
     http.Form := None |}.

(** A form posted to a URL whose query string holds a semicolon. *)
Definition semicolonQuery : http.Request :=
  {| http.Method := "POST";
     http.URL := {| url.Path := "/contact"; url.RawQuery := "ref=a;b" |};
     http.ReqHeader := {["Content-Type" := ["application/x-www-form-urlencoded"]]};
     http.Body := {| io.data := "name=Jane"; io.failure := None |};
     http.PostForm := None;
     http.Form := None |}.

Definition cutShort : http.Request :=
  {| http.Method := "POST";
     http.URL := {| url.Path := "/contact"; url.RawQuery := EmptyString |};
     http.ReqHeader := {["Content-Type" := ["application/x-www-form-urlencoded"]]};
     http.Body := {| io.data := "name=Ja"; io.failure := Some ErrUnexpectedEOF |};
     http.PostForm := None;
     http.Form := None |}.

(** The lines of the logging middleware are those with its format. *)
Definition isAccessLine (line : log.Line) : bool :=
  String.eqb (log.format line) "%s %s %d %s".

(** A handler prints no line that could be taken for an access line. *)
Definition printsNoAccessLine (c : http.Call) : bool :=
  match c with
  | http.LogPrintf format _ => negb (String.eqb format "%s %s %d %s")
  | _ => true
  end.


(** * Properties *)

(** ** The decoder *)
Section Decoder.

Import json.

(** Once the scanner has found the end of the first value it looks at
    nothing that follows: more input after it changes nothing. *)
Lemma scan_app (input t : string) :
  forall s stk v rest,
    scan s stk input = Found v rest ->
    scan s stk (input +:+ t) = Found v (rest +:+ t).
Proof.
  induction input as [|c input IH]; intros s stk v rest Hscan.
  - discriminate Hscan.
  - simpl in Hscan |- *.
    destruct (next s stk c) as [s' stk'|v' [|]|e].
    + now apply IH.
    + now inversion Hscan.
    + now inversion Hscan.
    + discriminate Hscan.
Qed.

Lemma readValue_found (r : io.Reader) v rest :
  scan stateBeginValue [] (io.data r) = Found v rest ->
  readValue r = inl (v, rest).
Proof. intros Hscan. unfold readValue. now rewrite Hscan. Qed.

(** Storing the members of an object touches only the fields that some
    member's key selects. *)
Lemma object_frame {T A} (get : T -> A) (fields : list (Field T)) (ms : members) :
  (forall k v f, In (k, v) ms -> lookupField fields k = Some f ->
                 forall t, get (fst (setField f v t)) = get t) ->
  forall t saved, get (fst (object fields ms t saved)) = get t.
Proof.
  induction ms as [|[k v] ms IH]; intros Hframe t saved; [reflexivity|].
  cbn [object].
  destruct (lookupField fields k) as [f|] eqn:Hf.
  - destruct (setField f v t) as [t' e] eqn:Hset.
    rewrite IH by (intros; eapply Hframe; [right|]; eassumption).
    change t' with (fst (t', e)). rewrite <- Hset.
    eapply Hframe; [left; reflexivity | exact Hf].
  - apply IH. intros; eapply Hframe; [right|]; eassumption.
Qed.

(** An error of storing an object is the error of storing one of the
    members it has. *)
Lemma object_error_from_member {T} (fields : list (Field T)) (ms : members) :
  forall t saved e,
    snd (object fields ms t saved) = Some e ->
    saved = Some e \/
    exists k v f t', In (k, v) ms /\ lookupField fields k = Some f /\
                     snd (setField f v t') = Some e.
Proof.
  induction ms as [|[k v] ms IH]; intros t saved e Herr; [now left|].
  cbn [object] in Herr.
  destruct (lookupField fields k) as [f|] eqn:Hf.
  - destruct (setField f v t) as [t' e'] eqn:Hset.
    apply IH in Herr as [Hsaved | (k' & v' & f' & t'' & Hin & Hf' & He)].
    + destruct saved as [e0|]; [now left|]. right.
      exists k, v, f, t. rewrite Hset. cbn in *. repeat split; auto.
    + right. exists k', v', f', t''. repeat split; auto. now right.
  - apply IH in Herr as [Hsaved | (k' & v' & f' & t'' & Hin & Hf' & He)].
    + now left.
    + right. exists k', v', f', t''. repeat split; auto. now right.
Qed.

Lemma endValue_plain v stk b s' stk' :
  (b = false -> isContainer v = false) ->
  endValue v stk b = scanContinue s' stk' -> plainValue s'.
Proof.
  intros Hv. unfold endValue.
  destruct stk as [|[ms [k|]|ms [k|]|es] stk0]; try discriminate.
  - destruct b; [discriminate|]. intros [= <- <-]. cbn. auto.
  - destruct v; try discriminate. intros [= <- <-]. exact I.
  - intros [= <- <-]. exact I.
  - intros [= <- <-]. exact I.
Qed.

Lemma stepEndValue_plain stk c s' stk' :
  stepEndValue stk c = scanContinue s' stk' -> plainValue s'.
Proof.
  unfold stepEndValue. destruct (isSpace c); [intros [= <- <-]; exact I|].
  destruct stk as [|[ms [k|]|ms [k|]|es] stk0]; try discriminate;
    repeat match goal with |- context [if ?b then _ else _] => destruct b end;
    try discriminate; try (intros [= <- <-]; exact I);
    apply endValue_plain; discriminate.
Qed.

Lemma endThen_plain v stk c s' stk' :
  isContainer v = false ->
  endThen v stk c = scanContinue s' stk' -> plainValue s'.
Proof.
  intros Hv. unfold endThen.
  destruct (endValue v stk false) as [s1 stk1|v1 b1|e1] eqn:Hend; try discriminate.
  destruct s1; try (intros [= <- <-]; eapply endValue_plain in Hend; eauto; fail);
    try discriminate.
  apply stepEndValue_plain.
Qed.

Ltac split_scanner :=
  repeat match goal with
    | |- context [if ?b then _ else _] => destruct b
    | |- context [match unquote ?r with _ => _ end] => destruct (unquote r)
    | |- context [match ?m with S _ => _ | O => _ end] => destruct m
    | |- context [match ?r with EmptyString => _ | String _ _ => _ end] => destruct r
    | |- context [match ?l with [] => _ | _ :: _ => _ end] => destruct l
    | |- context [match ?p with parseObjectKey _ _ => _ | _ => _ end] => destruct p
    | |- context [match ?o with Some _ => _ | None => _ end] => destruct o
    end.

Lemma next_plain s stk c s' stk' :
  plainValue s -> next s stk c = scanContinue s' stk' -> plainValue s'.
Proof.
  intros Hs. destruct s; cbn [next];
    unfold stepBeginValue, stepBeginString, step0, stepESign, pushParseState;
    split_scanner;
    try discriminate; try (intros [= <- <-]; exact I);
    try (intros [= <- <-]; reflexivity);
    try (intros [= <- <-]; exact Hs);
    try apply stepEndValue_plain;
    try (apply endValue_plain; auto; fail);
    try (apply endThen_plain; reflexivity).
Qed.

(** A byte that ends a top-level value without being part of it ends a
    value that is not a container. *)
Lemma next_end_unconsumed s stk c v :
  plainValue s -> next s stk c = scanEnd v false -> isContainer v = false.
Proof.
  assert (Hend : forall v0 stk0 b, endValue v0 stk0 b = scanEnd v false -> False).
  { intros v0 stk0 b. unfold endValue.
    destruct stk0 as [|[ms [k|]|ms [k|]|es] stk0]; try discriminate.
    - destruct b; discriminate.
    - destruct v0; discriminate. }
  assert (Hsep : forall stk0, stepEndValue stk0 c = scanEnd v false -> False).
  { intros stk0. unfold stepEndValue. destruct (isSpace c); [discriminate|].
    destruct stk0 as [|[ms [k|]|ms [k|]|es] stk0]; try discriminate;
      split_scanner; try discriminate; apply Hend. }
  assert (Hthen : forall lit stk0,
             endThen (VNumber lit) stk0 c = scanEnd v false -> isContainer v = false).
  { intros lit stk0. unfold endThen.
    destruct (endValue (VNumber lit) stk0 false) as [s1 stk1|v1 b1|e1] eqn:He;
      try discriminate.
    - destruct s1; try discriminate.
      + intros Hs1. now apply Hsep in Hs1.
      + intros [= <-]. apply endValue_plain in He; auto.
    - intros Heq. rewrite Heq in He. now apply Hend in He. }
  intros Hs. destruct s; cbn [next];
    unfold stepBeginValue, stepBeginString, step0, stepESign, pushParseState;
    split_scanner; try discriminate;
    try (intros Hx; now apply Hsep in Hx);
    try (intros Hx; now apply Hend in Hx);
    try apply Hthen.
  intros [= <-]. exact Hs.
Qed.

Lemma scan_exhausted_plain (input : string) :
  forall s stk s' stk',
    plainValue s -> scan s stk input = Exhausted s' stk' -> plainValue s'.
Proof.
  induction input as [|c input IH]; intros s stk s' stk' Hs; cbn [scan].
  - now intros [= <- <-].
  - destruct (next s stk c) as [s1 stk1|v1 [|]|e1] eqn:Hnext; try discriminate.
    apply IH. eapply next_plain; eassumption.
Qed.

(** When [readValue] yields an array or an object, the scanner found its
    closing bracket in the data, before the end of the input. *)
Lemma readValue_container (r : io.Reader) v rest :
  readValue r = inl (v, rest) -> isContainer v = true ->
  scan stateBeginValue [] (io.data r) = Found v rest.
Proof.
  unfold readValue. intros Hread Hv.
  destruct (scan stateBeginValue [] (io.data r)) as [v0 rest0|e|s stk] eqn:Hscan.
  - congruence.
  - discriminate.
  - exfalso. apply scan_exhausted_plain in Hscan; [|exact I].
    destruct (io.readError r); [discriminate|].
    destruct (next s stk " "%char) as [s1 stk1|v1 b1|e1] eqn:Hnext; try discriminate.
    inversion Hread; subst v1 rest.
    destruct b1.
    + clear Hread. revert Hnext. destruct s; cbn [next];
        unfold stepBeginValue, stepBeginString, step0, stepESign, pushParseState,
               stepEndValue, endThen, endValue;
        change (isSpace " "%char) with true; cbv iota;
        try discriminate; split_scanner; try discriminate.
      destruct v0; discriminate.
    + apply next_end_unconsumed in Hnext; [congruence | assumption].
Qed.

End Decoder.

(** ** Writers and replies *)
Section Writers.
Import http main.

Lemma run_app `{http.ResponseWriter W} (a b : list Call) (st : W * log.Logger) :
  run (a ++ b) st = match run a st with Some st' => run b st' | None => None end.
Proof.
  revert st. induction a as [|c a IH]; intros st; cbn [run app]; [reflexivity|].
  destruct (call c st); [apply IH | reflexivity].
Qed.

(** Behind [responseWriter] a handler does to the wrapped writer what it
    would do to it directly; the wrapper's [status] ends as the code of the
    last [WriteHeader] call. *)
Lemma run_responseWriter `{http.ResponseWriter W} (calls : list Call) :
  forall (w : W) code l,
    run calls ({| ResponseWriter := w; status := code |}, l) =
    match run calls (w, l) with
    | Some (w', l') =>
        Some ({| ResponseWriter := w'; status := lastWriteHeader code calls |}, l')
    | None => None
    end.
Proof.
  induction calls as [|c calls IH]; intros w code l; cbn [run lastWriteHeader];
    [reflexivity|].
  destruct c as [key|key value|code'|p|format args]; cbn [call]; 
    try (cbn; apply IH).
  - cbn [writeHeader responseWriter_ResponseWriter]. unfold responseWriter_WriteHeader.
    cbn [ResponseWriter status].
    destruct (writeHeader code' w l) as [[w' l']|]; [apply IH | reflexivity].
  - cbn [write responseWriter_ResponseWriter ResponseWriter status].
    destruct (write p w l) as [w' l']. apply IH.
Qed.

Lemma loggingMiddleware_unfold `{http.ResponseWriter W} next start finish r (w : W) l :
  loggingMiddleware next start finish r (w, l) =
  match run (next r) (w, l) with
  | Some (w', l') =>
      Some (w', l' ++ [accessLine r (lastWriteHeader StatusOK (next r)) start finish])
  | None => None
  end.
Proof.
  unfold loggingMiddleware. rewrite run_responseWriter.
  destruct (run (next r) (w, l)) as [[w' l']|]; reflexivity.
Qed.

End Writers.
Section Responses.
Import http main.

Lemma response_WriteHeader_settles code w l :
  wroteHeader w = false -> finalCode code = true ->
  exists w' l',
    response_WriteHeader code w l = Some (w', l') /\
    wroteHeader w' = true /\ http.status w' = code /\
    body w' = body w.
Proof.
  intros Hw Hcode. unfold response_WriteHeader. rewrite Hw.
  unfold finalCode, StatusSwitchingProtocols in *.
  destruct ((code <? 100) || (999 <? code)) eqn:Hrange; [lia|].
  destruct ((100 <=? code) && (code <=? 199) && negb (code =? 101)) eqn:Hinfo; [lia|].
  eexists _, _. split; [reflexivity|]. cbn. auto.
Qed.

Lemma response_Write_settles p w l :
  wroteHeader w = false ->
  wroteHeader (fst (response_Write p w l)) = true /\
  http.status (fst (response_Write p w l)) = StatusOK.
Proof.
  intros Hw. unfold response_Write. rewrite Hw.
  destruct (response_WriteHeader_settles StatusOK w l Hw eq_refl)
    as (w' & l' & -> & Hw' & Hs & _).
  destruct (Z.of_nat (String.length p) =? 0); [cbn; auto|].
  destruct (bodyAllowedForStatus _); cbn; auto.
Qed.

(** Once the header is out, nothing a handler does changes the status or
    the headers of the reply, and no call panics. *)
Lemma call_settled c w l :
  wroteHeader w = true ->
  exists w' l',
    call c (w, l) = Some (w', l') /\
    wroteHeader w' = true /\ http.status w' = http.status w /\ sent w' = sent w.
Proof.
  intros Hw. destruct c as [key|key value|code|p|format args]; cbn [call].
  - eexists _, _. split; [reflexivity|]. cbn. auto.
  - eexists _, _. split; [reflexivity|]. cbn. auto.
  - cbn [writeHeader response_ResponseWriter]. unfold response_WriteHeader.
    rewrite Hw. eexists _, _. split; [reflexivity|]. auto.
  - cbn [write response_ResponseWriter]. unfold response_Write. rewrite Hw.
    destruct (Z.of_nat (String.length p) =? 0);
      [eexists _, _; split; [reflexivity|]; auto|].
    destruct (bodyAllowedForStatus _);
      eexists _, _; (split; [reflexivity|]); cbn; auto.
  - eexists _, _. split; [reflexivity|]. auto.
Qed.

Lemma run_settled calls :
  forall w l,
    wroteHeader w = true ->
    exists w' l',
      run calls (w, l) = Some (w', l') /\
      wroteHeader w' = true /\ http.status w' = http.status w /\ sent w' = sent w.
Proof.
  induction calls as [|c calls IH]; intros w l Hw; cbn [run].
  - eexists _, _. split; [reflexivity|]. auto.
  - destruct (call_settled c w l Hw) as (w1 & l1 & -> & Hw1 & Hs1 & Hh1).
    destruct (IH w1 l1 Hw1) as (w' & l' & -> & Hw' & Hs' & Hh').
    eexists _, _. split; [reflexivity|]. repeat split; congruence.
Qed.

Lemma lastWriteHeader_none code calls :
  forallb (fun c => negb (callsWriteHeader c)) calls = true ->
  lastWriteHeader code calls = code.
Proof.
  induction calls as [|c calls IH]; cbn [forallb lastWriteHeader]; [reflexivity|].
  intros [Hc Hcalls]%andb_prop. destruct c; try discriminate Hc; now apply IH.
Qed.

Lemma finishRequest_settled w l :
  wroteHeader w = true -> finishRequest (w, l) = (w, l).
Proof. intros Hw. unfold finishRequest. now rewrite Hw. Qed.

Lemma finishRequest_status w l :
  wroteHeader w = false -> http.status (fst (finishRequest (w, l))) = StatusOK.
Proof.
  intros Hw. unfold finishRequest. rewrite Hw.
  destruct (response_WriteHeader_settles StatusOK w l Hw eq_refl)
    as (w' & l' & -> & _ & Hs & _).
  exact Hs.
Qed.

(** A handler that settles the status once gets the status it asked for. *)
Lemma run_headerOnce calls :
  forall w l,
    wroteHeader w = false -> headerOnce calls = true ->
    exists w' l',
      run calls (w, l) = Some (w', l') /\
      forall l'', http.status (fst (finishRequest (w', l'')))
                  = lastWriteHeader StatusOK calls.
Proof.
  induction calls as [|c calls IH]; intros w l Hw Honce; cbn [run].
  - eexists _, _. split; [reflexivity|]. intros l''. now apply finishRequest_status.
  - destruct c as [key|key value|code|p|format args];
      cbn [headerOnce lastWriteHeader call] in *.
    + apply IH; [exact Hw | exact Honce].
    + apply IH; [exact Hw | exact Honce].
    + apply andb_prop in Honce as [Hcode Hrest].
      cbn [writeHeader response_ResponseWriter].
      destruct (response_WriteHeader_settles code w l Hw Hcode)
        as (w1 & l1 & -> & Hw1 & Hs1 & _).
      destruct (run_settled calls w1 l1 Hw1) as (w' & l' & -> & Hw' & Hs' & _).
      eexists _, _. split; [reflexivity|]. intros l''.
      rewrite finishRequest_settled by assumption. cbn [fst].
      rewrite lastWriteHeader_none by assumption. congruence.
    + cbn [write response_ResponseWriter].
      destruct (response_Write_settles p w l Hw) as [Hw1 Hs1].
      destruct (response_Write p w l) as [w1 l1]. cbn [fst] in *.
      destruct (run_settled calls w1 l1 Hw1) as (w' & l' & -> & Hw' & Hs' & _).
      eexists _, _. split; [reflexivity|]. intros l''.
      rewrite finishRequest_settled by assumption. cbn [fst].
      rewrite lastWriteHeader_none by assumption. congruence.
    + apply IH; [exact Hw | exact Honce].
Qed.

End Responses.

Section Strings.

Lemma append_cons (c : ascii) (s t : string) :
  String c s +:+ t = String c (s +:+ t).
Proof. reflexivity. Qed.

Lemma append_empty_r (s : string) : s +:+ EmptyString = s.
Proof.
  induction s as [|c s IH]; [reflexivity|]. now rewrite append_cons, IH.
Qed.

Lemma append_assoc (a b c : string) : (a +:+ b) +:+ c = a +:+ (b +:+ c).
Proof.
  induction a as [|x a IH]; [reflexivity|]. now rewrite !append_cons, IH.
Qed.

Lemma length_zero (s : string) : Z.of_nat (String.length s) = 0 -> s = EmptyString.
Proof. destruct s; [reflexivity | cbn; lia]. Qed.

Lemma length_snoc (s : string) (c : ascii) :
  (Z.of_nat (String.length (s +:+ str1 c)) =? 0) = false.
Proof.
  apply Z.eqb_neq. destruct s; [discriminate|].
  rewrite append_cons. cbn [String.length]. lia.
Qed.

End Strings.

Section Bodies.
Import http main.

Lemma Get_absent (hdr : Header) key : hdr !! key = None -> Get hdr key = EmptyString.
Proof. intros Hk. unfold Get. now rewrite Hk. Qed.

Lemma response_WriteHeader_plain code w l :
  wroteHeader w = false -> finalCode code = true ->
  handlerHeader w !! "Content-Length" = None ->
  response_WriteHeader code w l =
  Some ({| handlerHeader := handlerHeader w; wroteHeader := true;
           http.status := code; sent := handlerHeader w; contentLength := -1;
           written := written w; body := body w;
           informational := informational w |}, l).
Proof.
  intros Hw Hcode Hcl. unfold response_WriteHeader. rewrite Hw.
  unfold finalCode, StatusSwitchingProtocols in *.
  destruct ((code <? 100) || (999 <? code)) eqn:Hrange; [lia|].
  destruct ((100 <=? code) && (code <=? 199) && negb (code =? 101)) eqn:Hinfo; [lia|].
  rewrite (Get_absent _ _ Hcl). reflexivity.
Qed.

Lemma response_Write_streaming p w l :
  streaming w ->
  exists w',
    response_Write p w l = (w', l) /\ streaming w' /\
    body w' = body w +:+ p /\ sent w' = sent w /\
    handlerHeader w' = handlerHeader w.
Proof.
  intros (Hw & Hs & Hcl). unfold response_Write. rewrite Hw.
  destruct (Z.of_nat (String.length p) =? 0) eqn:Hn.
  - apply Z.eqb_eq, length_zero in Hn. subst p.
    exists w. rewrite append_empty_r. repeat split; auto.
  - rewrite Hs, Hcl. cbn [bodyAllowedForStatus negb].
    eexists. split; [reflexivity|]. unfold streaming. cbn. auto.
Qed.

Lemma response_Write_first p w l :
  wroteHeader w = false -> handlerHeader w !! "Content-Length" = None ->
  exists w',
    response_Write p w l = (w', l) /\ streaming w' /\
    body w' = body w +:+ p /\ sent w' = handlerHeader w /\
    handlerHeader w' = handlerHeader w.
Proof.
  intros Hw Hcl. unfold response_Write. rewrite Hw.
  rewrite (response_WriteHeader_plain StatusOK w l Hw eq_refl Hcl).
  destruct (Z.of_nat (String.length p) =? 0) eqn:Hn.
  - apply Z.eqb_eq, length_zero in Hn. subst p.
    eexists. split; [reflexivity|]. rewrite append_empty_r.
    unfold streaming. cbn. auto.
  - cbn -[Z.of_nat String.length].
    eexists. split; [reflexivity|]. unfold streaming. cbn. auto.
Qed.

Lemma run_writes_streaming out :
  forall w l,
    streaming w ->
    exists w',
      run (map Write out) (w, l) = Some (w', l) /\ streaming w' /\
      body w' = body w +:+ concat out /\ sent w' = sent w /\
      handlerHeader w' = handlerHeader w.
Proof.
  induction out as [|p out IH]; intros w l Hw; cbn [map run concat fold_right].
  - exists w. rewrite append_empty_r. auto.
  - cbn [call write response_ResponseWriter].
    destruct (response_Write_streaming p w l Hw) as (w1 & -> & Hw1 & Hb1 & Hs1 & Hh1).
    destruct (IH w1 l Hw1) as (w' & -> & Hw' & Hb' & Hs' & Hh').
    exists w'. split; [reflexivity|]. rewrite Hb', Hb1, append_assoc.
    repeat split; try apply Hw'; congruence.
Qed.

(** The first write of a handler that has set no headers sends the implicit
    200; the writes that follow add to the body. *)
Lemma run_writes_fresh p out l :
  exists w',
    run (map Write (p :: out)) (newResponse, l) = Some (w', l) /\ streaming w' /\
    body w' = concat (p :: out) /\ sent w' = ∅ /\ handlerHeader w' = ∅.
Proof.
  cbn [map run call write response_ResponseWriter].
  destruct (response_Write_first p newResponse l eq_refl (lookup_empty _))
    as (w1 & -> & Hw1 & Hb1 & Hs1 & Hh1).
  destruct (run_writes_streaming out w1 l Hw1) as (w' & -> & Hw' & Hb' & Hs' & Hh').
  exists w'. split; [reflexivity|]. split; [exact Hw'|].
  split; [rewrite Hb', Hb1; reflexivity|].
  split; [rewrite Hs', Hs1 | rewrite Hh', Hh1]; reflexivity.
Qed.

(** [http.Error] on a writer that has sent nothing yet: the reply gets the
    code, the plain-text content type and the message as its body. *)
Lemma run_Error_first msg code w l :
  wroteHeader w = false -> finalCode code = true ->
  bodyAllowedForStatus code = true ->
  exists w',
    run (Error msg code) (w, l) = Some (w', l) /\
    wroteHeader w' = true /\ http.status w' = code /\
    body w' = body w +:+ (msg +:+ str1 (byte 10)) /\
    sent w' = errorHeader (handlerHeader w).
Proof.
  intros Hw Hcode Hbody.
  destruct w as [hh wh st se cl wr bo inf]. cbn in Hw. subst wh.
  assert (Hcl : errorHeader hh !! "Content-Length" = None).
  { unfold errorHeader. rewrite !lookup_insert_ne by discriminate.
    apply lookup_delete_eq. }
  unfold Error.
  cbn [run call header setHeader response_ResponseWriter handlerHeader
       wroteHeader http.status sent contentLength written body informational
       writeHeader write].
  fold (errorHeader hh).
  rewrite response_WriteHeader_plain
    by (cbn [wroteHeader handlerHeader]; first [assumption | reflexivity]).
  cbn [run call write response_ResponseWriter]. unfold response_Write.
  cbn [handlerHeader wroteHeader http.status sent contentLength written body
       informational].
  cbv zeta. rewrite length_snoc, Hbody. cbn [negb Z.eqb andb].
  eexists. split; [reflexivity|]. cbn. auto.
Qed.

(** [http.Error] after the header is out: the code is refused, with a line
    in the log, and the message follows what was written before. *)
Lemma run_Error_streaming msg code w l :
  streaming w ->
  exists w',
    run (Error msg code) (w, l) = Some (w', l ++ [superfluous]) /\
    streaming w' /\ body w' = body w +:+ (msg +:+ str1 (byte 10)) /\
    sent w' = sent w.
Proof.
  intros (Hw & Hs & Hcl).
  destruct w as [hh wh st se cl wr bo inf]. cbn in Hw, Hs, Hcl. subst wh st cl.
  unfold Error.
  cbn [run call header setHeader response_ResponseWriter handlerHeader
       wroteHeader http.status sent contentLength written body informational
       writeHeader write].
  unfold response_WriteHeader.
  cbn [wroteHeader run call write response_ResponseWriter].
  unfold response_Write.
  cbn [handlerHeader wroteHeader http.status sent contentLength written body
       informational].
  cbv zeta. rewrite length_snoc. cbn [bodyAllowedForStatus negb Z.eqb andb].
  eexists. split; [reflexivity|]. unfold streaming. cbn. auto.
Qed.

End Bodies.

(** ** Start-up: [New] and [loadJSON] *)
Section Startup.

Import json handler.
Context {Tpl : template.Package PageData}.

(** [New] in one equation: the template error, or the error of the first
    fixture that fails to load under the name of its file, or the handler. *)
Lemma New_unfold (fsys : fs.FS) :
  New fsys =
  match template.ParseFS fsys "templates/*.html" with
  | inr err => (None, Some (WrapError "parse templates: %w" err))
  | inl t =>
      match firstFailure fsys fixtures with
      | Some (f, cause) =>
          (None, Some (WrapError ("load " +:+ fileName f +:+ ": %w") cause))
      | None => (Some {| tmpl := t; pageData := loaded fsys |}, None)
      end
  end.
Proof.
  unfold New, orReturn, loaded. cbn [firstFailure fixtures loadError].
  destruct (template.ParseFS fsys "templates/*.html") as [t|err]; [|reflexivity].
  destruct (loadJSON fsys "data/about.json" zero) as [a [e|]]; [reflexivity|].
  destruct (loadJSON fsys "data/projects.json" zero) as [p [e|]]; [reflexivity|].
  destruct (loadJSON fsys "data/interests.json" zero) as [i [e|]]; [reflexivity|].
  destruct (loadJSON fsys "data/skills.json" zero) as [s [e|]]; [reflexivity|].
  destruct (loadJSON fsys "data/experience.json" zero) as [x [e|]]; reflexivity.
Qed.

Lemma firstFailure_exists (fsys : fs.FS) (fs : list Fixture) f cause :
  In f fs -> loadError fsys f = Some cause ->
  exists f' cause', firstFailure fsys fs = Some (f', cause').
Proof.
  induction fs as [|g fs IH]; intros Hin Hf; [destruct Hin|].
  cbn [firstFailure]. destruct (loadError fsys g) as [e|] eqn:Hg; [eauto|].
  destruct Hin as [->|Hin]; [congruence | now apply IH].
Qed.

Lemma firstFailure_first (fsys : fs.FS) (fs : list Fixture) f cause :
  firstFailure fsys fs = Some (f, cause) ->
  loadError fsys f = Some cause /\
  exists earlier later,
    fs = earlier ++ f :: later /\
    forall g, In g earlier -> loadError fsys g = None.
Proof.
  revert f cause. induction fs as [|g fs IH]; intros f cause Hff; [discriminate|].
  cbn [firstFailure] in Hff. destruct (loadError fsys g) as [e|] eqn:Hg.
  - inversion Hff; subst. split; [assumption|].
    exists [], fs. split; [reflexivity | intros ? []].
  - apply IH in Hff as (Hf & earlier & later & -> & Hearlier).
    split; [assumption|]. exists (g :: earlier), later.
    split; [reflexivity|]. intros g' [<-|Hin]; auto.
Qed.

Lemma firstFailure_at (fsys : fs.FS) earlier f later cause :
  (forall g, In g earlier -> loadError fsys g = None) ->
  loadError fsys f = Some cause ->
  firstFailure fsys (earlier ++ f :: later) = Some (f, cause).
Proof.
  induction earlier as [|g earlier IH]; intros Hearlier Hf; cbn [firstFailure app].
  - now rewrite Hf.
  - rewrite (Hearlier g) by now left. apply IH; [|assumption].
    intros g' Hin. apply Hearlier. now right.
Qed.

Lemma In_fixtures (f : Fixture) : In f fixtures.
Proof. destruct f; cbn; tauto. Qed.

(** Whatever fixture fails to load, [New] returns an error and no
    handler. *)
Lemma New_fails (fsys : fs.FS) f cause :
  loadError fsys f = Some cause ->
  fst (New fsys) = None /\ exists e, snd (New fsys) = Some e.
Proof.
  intros Hf. rewrite New_unfold.
  destruct (template.ParseFS fsys "templates/*.html") as [t|err]; [|cbn; eauto].
  destruct (firstFailure_exists fsys fixtures f cause (In_fixtures f) Hf)
    as (f' & cause' & ->).
  cbn; eauto.
Qed.

End Startup.

(** ** Start-up: what the specification says *)
Section StartupSpec.

Import json handler.
Context {Tpl : template.Package PageData}.

Lemma lookupField_sound {T} (fields : list (Field T)) (k : string) (f : Field T) :
  lookupField fields k = Some f ->
  In f fields /\ (name f = k \/ equalFold k (name f) = true).
Proof.
  unfold lookupField.
  destruct (find (fun f => String.eqb (name f) k) fields) as [g|] eqn:Hexact.
  - intros [= <-]. apply find_some in Hexact as [Hin Heq].
    apply String.eqb_eq in Heq. auto.
  - intros Hfold. apply find_some in Hfold as [Hin Heq]. auto.
Qed.

(** Storing into one field leaves the others alone: the member selects a
    field whose tag is the key in some case, and the tag [tag] is not. *)
Local Ltac other_field tag Hfold Hname :=
  unfold field in *; cbn [setField name] in *;
  match goal with |- context [store ?v ?x] => destruct (store v x) end;
  cbn [fst]; unfold About_view, Project_view, Interest_view, Experience_view;
  cbn [fieldOf];
  match type of Hname with
  | ?tag0 = _ \/ _ =>
      destruct (String.eqb tag0 tag) eqn:Htag;
      [ exfalso; apply String.eqb_eq in Htag; subst tag;
        destruct Hname as [Hname|Hname];
        [ subst; vm_compute in Hfold; discriminate Hfold | congruence ]
      | reflexivity ]
  end.

Lemma About_frame tag k v f :
  equalFold k tag = false ->
  lookupField About_fields k = Some f ->
  forall t, fieldOf tag (About_view (fst (setField f v t))) = fieldOf tag (About_view t).
Proof.
  intros Hfold [Hin Hname]%lookupField_sound t. cbn [About_fields In] in Hin.
  repeat (destruct Hin as [<-|Hin]; [other_field tag Hfold Hname|]).
  destruct Hin.
Qed.

Lemma About_name_frame k v f :
  equalFold k "name" = false ->
  lookupField About_fields k = Some f ->
  forall t, Name (fst (setField f v t)) = Name t.
Proof.
  intros Hfold Hlook t. pose proof (About_frame "name" k v f Hfold Hlook t) as Hview.
  change (Some (FString (Name (fst (setField f v t)))) = Some (FString (Name t)))
    in Hview.
  now injection Hview.
Qed.

Lemma Project_frame tag k v f :
  equalFold k tag = false ->
  lookupField Project_fields k = Some f ->
  forall t, fieldOf tag (Project_view (fst (setField f v t)))
            = fieldOf tag (Project_view t).
Proof.
  intros Hfold [Hin Hname]%lookupField_sound t. cbn [Project_fields In] in Hin.
  repeat (destruct Hin as [<-|Hin]; [other_field tag Hfold Hname|]).
  destruct Hin.
Qed.

Lemma Interest_frame tag k v f :
  equalFold k tag = false ->
  lookupField Interest_fields k = Some f ->
  forall t, fieldOf tag (Interest_view (fst (setField f v t)))
            = fieldOf tag (Interest_view t).
Proof.
  intros Hfold [Hin Hname]%lookupField_sound t. cbn [Interest_fields In] in Hin.
  repeat (destruct Hin as [<-|Hin]; [other_field tag Hfold Hname|]).
  destruct Hin.
Qed.

Lemma Experience_frame tag k v f :
  equalFold k tag = false ->
  lookupField Experience_fields k = Some f ->
  forall t, fieldOf tag (Experience_view (fst (setField f v t)))
            = fieldOf tag (Experience_view t).
Proof.
  intros Hfold [Hin Hname]%lookupField_sound t. cbn [Experience_fields In] in Hin.
  repeat (destruct Hin as [<-|Hin]; [other_field tag Hfold Hname|]).
  destruct Hin.
Qed.

(** The elements of an array stored into an empty list start from the zero
    value of their type. *)
Lemma array_fresh `{Unmarshaler A} (es : list Value) :
  fst (array es []) = map (fun e => fst (store e zero)) es.
Proof.
  induction es as [|e es IH]; [reflexivity|].
  cbn [array hd tl map]. destruct (store e zero) as [x err].
  destruct (array es []) as [xs err']. cbn [fst] in *. now rewrite IH.
Qed.



End StartupSpec.

(** C10.  [loadJSON] decodes only the first JSON value of a file.  When the
    content of a file begins with the text of an array or of an object (the
    values the fixtures hold), the same content followed by any trailing
    bytes loads exactly as the content alone does: the first value is stored
    and the trailing bytes are never examined, so they cannot make the
    load fail. *)
Theorem loadJSON_reads_first_value_only `{Unmarshaler T}
    (fsys fsys' : fs.FS) path content trailing fail fail' v rest (cur : T) :
  fsys path = inl {| io.data := content; io.failure := fail |} ->
  fsys' path = inl {| io.data := content +:+ trailing; io.failure := fail' |} ->
  readValue {| io.data := content; io.failure := fail |} = inl (v, rest) ->
  isContainer v = true ->
  loadJSON fsys' path cur = store v cur /\
  loadJSON fsys' path cur = loadJSON fsys path cur.
Proof.
  intros Hopen Hopen' Hread Hv.
  pose proof (readValue_container _ _ _ Hread Hv) as Hscan. cbn [io.data] in Hscan.
  assert (Hread' : readValue {| io.data := content +:+ trailing; io.failure := fail' |}
                   = inl (v, rest +:+ trailing)).
  { apply readValue_found. cbn [io.data]. now apply scan_app. }
  unfold loadJSON, Decode. now rewrite Hopen, Hopen', Hread, Hread'.
Qed.

(** The start-up properties at work on the sample file tree. *)




Lemma loadJSON_trailing_bytes_witness :
  loadJSON (sample.tree sample.about_json (sample.skills_json +:+ " ]]garbage"))
    "data/skills.json" (zero (T := list string))
  = (["Go"; "Rocq"], None).
Proof.
  destruct (loadJSON_reads_first_value_only (T := list string)
              (sample.tree sample.about_json sample.skills_json)
              (sample.tree sample.about_json (sample.skills_json +:+ " ]]garbage"))
              "data/skills.json" sample.skills_json " ]]garbage" None None
              (VArray [VString "Go"; VString "Rocq"]) EmptyString [])
    as [Hload _].
  - reflexivity.
  - reflexivity.
  - vm_compute. reflexivity.
  - reflexivity.
  - change (zero (T := list string)) with (@nil string).
    rewrite Hload. reflexivity.
Defined.

(** ** Query strings *)
Section Queries.

Import http main handler.
Context {Mime : mime.Package} {Tpl : template.Package PageData}.

Lemma segments_cons (sep : ascii) (s : string) :
  exists seg segs, url.segments sep s = seg :: segs.
Proof.
  induction s as [|c s (seg & segs & IH)]; cbn [url.segments]; [eauto|].
  rewrite IH. destruct (Ascii.eqb c sep); eauto.
Qed.

Lemma segments_Contains (c sep : ascii) (s : string) :
  c <> sep -> url.Contains c s = true ->
  existsb (url.Contains c) (url.segments sep s) = true.
Proof.
  intros Hc. induction s as [|x s IH]; [discriminate|].
  cbn [url.Contains url.segments].
  destruct (segments_cons sep s) as (seg & segs & Hsegs). rewrite Hsegs in IH |- *.
  cbn [existsb] in IH.
  destruct (Ascii.eqb x sep) eqn:Hsep.
  - apply Ascii.eqb_eq in Hsep. subst x.
    destruct (Ascii.eqb sep c) eqn:Hx; [apply Ascii.eqb_eq in Hx; congruence|].
    cbn [orb existsb url.Contains]. exact IH.
  - cbn [existsb url.Contains]. destruct (Ascii.eqb x c); [reflexivity|].
    cbn [orb]. exact IH.
Qed.

Lemma fold_parsePair_semicolon_kept (segs : list string) :
  forall m,
    snd (fold_left url.parsePair segs (m, Some semicolonError)) = Some semicolonError.
Proof.
  induction segs as [|pair segs IH]; intros m; [reflexivity|].
  cbn [fold_left]. unfold url.parsePair at 2.
  destruct (url.Contains ";"%char pair); [apply IH|].
  destruct pair as [|c pair]; [apply IH|].
  destruct (url.Cut "="%char (String c pair)) as [[k v] found].
  destruct (url.QueryUnescape k) as [k'|ek]; [|apply IH].
  destruct (url.QueryUnescape v) as [v'|ev]; apply IH.
Qed.

Lemma fold_parsePair_semicolon (segs : list string) :
  existsb (url.Contains ";"%char) segs = true ->
  forall m e, snd (fold_left url.parsePair segs (m, e)) = Some semicolonError.
Proof.
  induction segs as [|pair segs IH]; [discriminate|].
  cbn [existsb fold_left]. intros Hsemi m e.
  destruct (url.Contains ";"%char pair) eqn:Hpair.
  - unfold url.parsePair at 2. rewrite Hpair. apply fold_parsePair_semicolon_kept.
  - destruct (url.parsePair (m, e) pair) as [m' e']. now apply IH.
Qed.

(** A semicolon anywhere in a query makes [ParseQuery] fail, with the
    semicolon error whatever else is wrong with the query. *)
Lemma ParseQuery_semicolon (query : string) :
  url.Contains ";"%char query = true ->
  snd (url.ParseQuery query) = Some semicolonError.
Proof.
  intros Hsemi. unfold url.ParseQuery, url.parseQuery.
  destruct query as [|c query]; [discriminate|].
  apply fold_parsePair_semicolon, segments_Contains; [discriminate | exact Hsemi].
Qed.

(** The server has no warning for a query string that parses. *)
Lemma queryWarning_parsed (r : Request) :
  snd (url.ParseQuery (url.RawQuery (URL r))) = None -> queryWarning r = [].
Proof.
  intros Hquery. unfold queryWarning.
  destruct (url.Contains ";"%char (url.RawQuery (URL r))) eqn:Hsemi; [|reflexivity].
  rewrite (ParseQuery_semicolon _ Hsemi) in Hquery. discriminate.
Qed.

Lemma copyValues_empty (src : url.Values) : copyValues ∅ src = src.
Proof.
  unfold copyValues. apply map_eq. intros key.
  rewrite lookup_union_with, lookup_empty. now destruct (src !! key).
Qed.

(** [ParseForm] on a request as the server hands it over, posted: the form
    is the values of the body followed by those of the query string, and
    the error is that of the body or else that of the query string. *)
Lemma ParseForm_posted (r : Request) :
  PostForm r = None -> Form r = None -> Method r = "POST" ->
  Form (fst (ParseForm r))
  = Some (copyValues (default ∅ (fst (parsePostForm r)))
            (fst (url.ParseQuery (url.RawQuery (URL r))))) /\
  snd (ParseForm r)
  = json.saveError (snd (parsePostForm r))
      (snd (url.ParseQuery (url.RawQuery (URL r)))).
Proof.
  intros Hpost Hform Hmethod.
  assert (Hm : String.eqb (Method r) "POST" || String.eqb (Method r) "PUT"
               || String.eqb (Method r) "PATCH" = true)
    by (rewrite Hmethod; reflexivity).
  unfold ParseForm. rewrite Hpost, Hform, Hm.
  destruct (parsePostForm r) as [pf err].
  destruct (url.ParseQuery (url.RawQuery (URL r))) as [nv e]. split; reflexivity.
Qed.

(** [parsePostForm] under the media type of forms and under another one. *)
Lemma parsePostForm_form (r : Request) :
  fst (mime.ParseMediaType (contentType r)) = formType ->
  parsePostForm r =
  if maxFormSize <? Z.of_nat (String.length (io.data (Body r)))
  then (None, Some (ErrorString "http: POST too large"))
  else match io.readError (Body r) with
       | Some e =>
           (None, json.saveError (snd (mime.ParseMediaType (contentType r))) (Some e))
       | None =>
           (Some (fst (url.ParseQuery (io.data (Body r)))),
            json.saveError (snd (mime.ParseMediaType (contentType r)))
              (snd (url.ParseQuery (io.data (Body r)))))
       end.
Proof.
  intros Hct. unfold parsePostForm.
  destruct (mime.ParseMediaType (contentType r)) as [ct merr]. cbn [fst snd] in *.
  subst ct. unfold formType. rewrite String.eqb_refl.
  destruct (url.ParseQuery (io.data (Body r))) as [vs e]. reflexivity.
Qed.

Lemma parsePostForm_other (r : Request) :
  fst (mime.ParseMediaType (contentType r)) <> formType ->
  parsePostForm r = (None, snd (mime.ParseMediaType (contentType r))).
Proof.
  intros Hct. unfold parsePostForm.
  destruct (mime.ParseMediaType (contentType r)) as [ct merr]. cbn [fst snd] in *.
  destruct (String.eqb ct "application/x-www-form-urlencoded") eqn:Heq;
    [apply String.eqb_eq in Heq; contradiction | reflexivity].
Qed.

Lemma saveError_none (a b : option error) :
  json.saveError a b = None <-> a = None /\ b = None.
Proof. destruct a, b; cbn; intuition congruence. Qed.

End Queries.

(** ** Serving: what the specification says *)
Section ContactSpec.

Import http main handler.
Context {Mime : mime.Package} {Tpl : template.Package PageData}.

(** No method assigns through its receiver. *)
Lemma method_receiver (hd : Handler) route0 r : receiver (method hd route0 r) = hd.
Proof.
  destruct route0; cbn [method];
    unfold Handler_Index, Handler_About, Handler_Projects, Handler_Interests,
           Handler_Contact, Handler_Health, execute.
  1-4: now destruct (template.ExecuteTemplate _ _ _).
  - now destruct (ParseForm r) as [r' [err|]].
  - reflexivity.
Qed.

Lemma serve_unfold (s : Server) (x : Exchange) :
  serve s x =
  match run (method (h s) (route x) (request x)) (newResponse, stdlog s) with
  | Some (w, l) =>
      let st :=
        finishRequest
          (w, l ++ [accessLine (request x)
                      (lastWriteHeader StatusOK (method (h s) (route x) (request x)))
                      (start x) (finish x)]
                ++ queryWarning (request x)) in
      Some ({| h := h s; stdlog := snd st |}, fst st)
  | None => None
  end.
Proof.
  unfold serve, serverHandler. cbv zeta. rewrite loggingMiddleware_unfold.
  rewrite method_receiver.
  destruct (run _ _) as [[w l]|]; [|reflexivity].
  unfold queryWarning.
  destruct (url.Contains ";"%char (url.RawQuery (URL (request x))));
    rewrite <- ?app_assoc, ?app_nil_r; destruct (finishRequest _); reflexivity.
Qed.

Lemma lastWriteHeader_app code a b :
  lastWriteHeader code (a ++ b) = lastWriteHeader (lastWriteHeader code a) b.
Proof.
  revert code. induction a as [|c a IH]; intros code; [reflexivity|].
  destruct c; cbn [app lastWriteHeader]; apply IH.
Qed.

Lemma lastWriteHeader_writes code out :
  lastWriteHeader code (map Write out) = code.
Proof. induction out as [|p out IH]; [reflexivity | exact IH]. Qed.

(** C7.  [Health] replies 200 with an empty body, whatever the request.
    All it does is call [WriteHeader(200)]: it prints nothing and leaves the
    handler behind its receiver as it found it, so the server has the same
    handler afterwards; and it reads nothing of the handler, for the reply
    and the lines logged are the same whatever handler the server holds.
    (The log gets the access line of the middleware, and the warning of the
    server when the query string holds a semicolon.) *)
Theorem Health_replies_200_with_empty_body (s : Server) (r : Request) (t0 t1 : Z) :
  (exists w,
      serve s {| route := GET_health; request := r; start := t0; finish := t1 |}
      = Some ({| h := h s;
                 stdlog := stdlog s ++ [accessLine r StatusOK t0 t1]
                           ++ queryWarning r |}, w) /\
      http.status w = StatusOK /\ body w = EmptyString /\
      forall hd : Handler,
        serve {| h := hd; stdlog := stdlog s |}
          {| route := GET_health; request := r; start := t0; finish := t1 |}
        = Some ({| h := hd;
                   stdlog := stdlog s ++ [accessLine r StatusOK t0 t1]
                             ++ queryWarning r |}, w)) /\
  (forall hd r',
      receiver (Handler_Health hd r') = hd /\
      calls (Handler_Health hd r') = [WriteHeader StatusOK] /\
      printed (Handler_Health hd r') = []).
Proof.
  split; [|intros hd r'; repeat split].
  assert (Hserve : forall hd : Handler, exists w,
             serve {| h := hd; stdlog := stdlog s |}
               {| route := GET_health; request := r; start := t0; finish := t1 |}
             = Some ({| h := hd;
                        stdlog := stdlog s ++ [accessLine r StatusOK t0 t1]
                                  ++ queryWarning r |}, w) /\
             w = {| handlerHeader := ∅; wroteHeader := true;
                    http.status := StatusOK; sent := ∅; contentLength := -1;
                    written := 0; body := EmptyString; informational := [] |}).
  { intros hd. rewrite serve_unfold.
    cbn [route request start finish method Handler_Health calls h stdlog].
    cbn [run call writeHeader response_ResponseWriter].
    rewrite response_WriteHeader_plain by first [reflexivity | apply lookup_empty].
    cbn [lastWriteHeader]. cbv zeta.
    rewrite finishRequest_settled by reflexivity.
    eexists. split; reflexivity. }
  destruct (Hserve (h s)) as (w & Hs & Hw).
  exists w. split; [destruct s; exact Hs|].
  split; [now subst w|]. split; [now subst w|].
  intros hd. destruct (Hserve hd) as (w' & Hs' & Hw'). now subst w w'.
Qed.

Lemma Contact_calls_parsed (hd : Handler) r r' :
  ParseForm r = (r', None) ->
  calls (Handler_Contact hd r) =
  [ LogPrintf "contact form submission: name=%q email=%q message_len=%d"
      [log.ArgString (FormValue r' "name"); log.ArgString (FormValue r' "email");
       log.ArgInt (Z.of_nat (String.length (FormValue r' "message")))];
    HeaderSet "Content-Type" "text/html; charset=utf-8";
    Write successFragment ].
Proof. intros Hparse. unfold Handler_Contact. now rewrite Hparse. Qed.

Lemma Contact_calls_failed (hd : Handler) r r' err :
  ParseForm r = (r', Some err) ->
  calls (Handler_Contact hd r) = Error "bad request" StatusBadRequest.
Proof. intros Hparse. unfold Handler_Contact. now rewrite Hparse. Qed.

Lemma Contact_run_parsed (hd : Handler) r r' l :
  ParseForm r = (r', None) ->
  exists w,
    run (Handler_Contact hd r) (newResponse, l)
    = Some (w, l ++ printed (Handler_Contact hd r)) /\
    streaming w /\ body w = successFragment /\
    sent w = <["Content-Type" := ["text/html; charset=utf-8"]]> ∅.
Proof.
  intros Hparse. rewrite (Contact_calls_parsed hd r r' Hparse).
  cbn [run call header setHeader response_ResponseWriter write printed
       handlerHeader newResponse].
  match goal with
  | |- context [response_Write ?p ?w ?l'] =>
      destruct (response_Write_first p w l') as (w' & -> & Hw & Hb & Hs & _);
        [reflexivity | |]
  end.
  { cbn [handlerHeader]. rewrite lookup_insert_ne by discriminate. apply lookup_empty. }
  exists w'. split; [reflexivity|]. split; [exact Hw|]. split; [exact Hb | exact Hs].
Qed.

(** A request on which [ParseForm] succeeds gets the success fragment; the
    log gets what [Contact] prints, the access line and what the server
    adds. *)
Lemma Contact_serve_parsed (s : Server) (r r' : Request) (t0 t1 : Z) :
  ParseForm r = (r', None) ->
  exists w,
    serve s {| route := POST_contact; request := r; start := t0; finish := t1 |}
    = Some ({| h := h s;
               stdlog := stdlog s ++ printed (Handler_Contact (h s) r)
                         ++ [accessLine r StatusOK t0 t1] ++ queryWarning r |}, w) /\
    http.status w = StatusOK /\ body w = successFragment /\
    sent w = <["Content-Type" := ["text/html; charset=utf-8"]]> ∅.
Proof.
  intros Hparse. rewrite serve_unfold. cbn [route request start finish method].
  destruct (Contact_run_parsed (h s) r r' (stdlog s) Hparse)
    as (w & -> & Hw & Hb & Hs).
  assert (Hlast : lastWriteHeader StatusOK (Handler_Contact (h s) r) = StatusOK)
    by (rewrite (Contact_calls_parsed (h s) r r' Hparse); reflexivity).
  rewrite Hlast. cbv zeta.
  rewrite finishRequest_settled by apply Hw. cbn [fst snd].
  rewrite <- !app_assoc. exists w. split; [reflexivity|].
  split; [apply Hw|]. split; [exact Hb | exact Hs].
Qed.

(** A request on which [ParseForm] fails gets the 400 of [http.Error]; the
    log gets the access line and what the server adds. *)
Lemma Contact_serve_refused (s : Server) (r : Request) (t0 t1 : Z) :
  snd (ParseForm r) <> None ->
  exists w,
    serve s {| route := POST_contact; request := r; start := t0; finish := t1 |}
    = Some ({| h := h s;
               stdlog := stdlog s ++ [accessLine r StatusBadRequest t0 t1]
                         ++ queryWarning r |}, w) /\
    http.status w = StatusBadRequest /\
    body w = "bad request" +:+ str1 (byte 10) /\
    sent w = errorHeader ∅.
Proof.
  intros Herr. destruct (ParseForm r) as [r' [err|]] eqn:Hparse; [|now cbn in Herr].
  rewrite serve_unfold. cbn [route request start finish method].
  rewrite (Contact_calls_failed (h s) r r' err Hparse).
  destruct (run_Error_first "bad request" StatusBadRequest newResponse (stdlog s))
    as (w & -> & Hw & Hs & Hb & Hh); try reflexivity.
  cbv zeta. rewrite finishRequest_settled by exact Hw. cbn [fst snd].
  exists w. split; [reflexivity|]. auto.
Qed.

(** C2, as amended.  A POST /contact on which [ParseForm] reports no error
    is answered with status 200, the header
    [Content-Type: text/html; charset=utf-8] and the success fragment as the
    whole body, whatever the fields hold; the log gets the submission line
    and the access line.  A field that is absent from the form is read as
    the empty string.  For a request posted with a form-encoded body,
    [ParseForm] reports no error exactly when the [Content-Type] value is
    well formed, the body is within the limit of 10 MiB, is read to its end
    and parses as form data, and the query string of the URL parses as form
    data too: that the body parses is not enough.  (When the form has been
    parsed already and the query string holds a semicolon, the server adds
    its warning to the log.) *)
Theorem Contact_replies_with_success_fragment (s : Server) r r' (t0 t1 : Z) :
  ParseForm r = (r', None) ->
  (exists w,
      serve s {| route := POST_contact; request := r; start := t0; finish := t1 |}
      = Some ({| h := h s;
                 stdlog := stdlog s ++
                   [submission (FormValue r' "name") (FormValue r' "email")
                      (Z.of_nat (String.length (FormValue r' "message")));
                    accessLine r StatusOK t0 t1] ++ queryWarning r |}, w) /\
      http.status w = StatusOK /\
      Get (sent w) "Content-Type" = "text/html; charset=utf-8" /\
      body w = successFragment) /\
  (Form r = None -> queryWarning r = []) /\
  (forall form key,
      Form r' = Some form -> form !! key = None ->
      FormValue r' key = EmptyString) /\
  (forall r0,
      PostForm r0 = None -> Form r0 = None -> Method r0 = "POST" ->
      fst (mime.ParseMediaType (contentType r0)) = formType ->
      snd (ParseForm r0) = None <->
      snd (mime.ParseMediaType (contentType r0)) = None /\
      Z.of_nat (String.length (io.data (Body r0))) <= maxFormSize /\
      io.readError (Body r0) = None /\
      snd (url.ParseQuery (io.data (Body r0))) = None /\
      snd (url.ParseQuery (url.RawQuery (URL r0))) = None).
Proof.
  intros Hparse. split; [|split; [|split]].
  - destruct (Contact_serve_parsed s r r' t0 t1 Hparse) as (w & Hserve & Hst & Hb & Hs).
    exists w. split; [|split; [exact Hst|split; [|exact Hb]]].
    + rewrite Hserve, (Contact_calls_parsed (h s) r r' Hparse). reflexivity.
    + rewrite Hs. unfold Get. now rewrite lookup_insert_eq.
  - intros Hform. apply queryWarning_parsed.
    revert Hparse. unfold ParseForm. rewrite Hform.
    destruct (match PostForm r with Some pf => _ | None => _ end) as [pf e0].
    destruct (url.ParseQuery (url.RawQuery (URL r))) as [nv [e|]]; [|reflexivity].
    destruct e0; discriminate.
  - intros form key Hform Hkey. unfold FormValue. now rewrite Hform, Hkey.
  - intros r0 Hpost Hform Hmethod Hct.
    destruct (ParseForm_posted r0 Hpost Hform Hmethod) as [_ ->].
    rewrite (parsePostForm_form r0 Hct), saveError_none.
    destruct (maxFormSize <? Z.of_nat (String.length (io.data (Body r0)))) eqn:Hsize.
    { apply Z.ltb_lt in Hsize. cbn [snd]. split; [intros [[=] _] | lia]. }
    apply Z.ltb_ge in Hsize.
    destruct (io.readError (Body r0)) as [e|]; cbn [snd]; rewrite saveError_none.
    + split; [intros [[_ [=]] _] | intros (_ & _ & [=] & _)].
    + tauto.
Qed.

(** C3.  The line [Contact] logs for a submission is made of the name, the
    email and the length of the message: two submissions that agree on
    these log the same line, whatever their messages say, and the line is
    [submission name email (len message)], which is not given the message.
    On the server's writer these are the only lines the handler adds. *)
Theorem Contact_log_depends_on_name_email_length (hd1 hd2 : Handler) r1 r2 r1' r2' :
  ParseForm r1 = (r1', None) ->
  ParseForm r2 = (r2', None) ->
  FormValue r1' "name" = FormValue r2' "name" ->
  FormValue r1' "email" = FormValue r2' "email" ->
  String.length (FormValue r1' "message") = String.length (FormValue r2' "message") ->
  printed (Handler_Contact hd1 r1) = printed (Handler_Contact hd2 r2) /\
  printed (Handler_Contact hd1 r1)
  = [submission (FormValue r1' "name") (FormValue r1' "email")
       (Z.of_nat (String.length (FormValue r1' "message")))] /\
  (forall l, exists w,
      run (Handler_Contact hd1 r1) (newResponse, l)
      = Some (w, l ++ printed (Handler_Contact hd1 r1))).
Proof.
  intros Hp1 Hp2 Hname Hemail Hlen. split; [|split].
  - rewrite (Contact_calls_parsed hd1 r1 r1' Hp1), (Contact_calls_parsed hd2 r2 r2' Hp2).
    cbn [printed]. now rewrite Hname, Hemail, Hlen.
  - now rewrite (Contact_calls_parsed hd1 r1 r1' Hp1).
  - intros l. destruct (Contact_run_parsed hd1 r1 r1' l Hp1) as (w & Hrun & _).
    now exists w.
Qed.

(** C4, as amended.  A POST /contact on which [ParseForm] reports an error
    is answered by [http.Error] with "bad request" and status 400 and
    nothing else: the handler prints no line and the success fragment is
    not written; the log gets the access line (and the warning of the
    server when the query string holds a semicolon).  [ParseForm] reports an
    error when the body is sent as [application/x-www-form-urlencoded] and
    cannot be parsed as form data.  Under another media type the body is not
    parsed: the error of [ParseForm] is then that of a malformed
    [Content-Type] value or else that of the query string of the URL, and
    when there is neither the request is handled as a submission of the
    fields of the query string, with status 200 and the success fragment. *)
Theorem Contact_rejects_unparseable_form (s : Server) r r' err (t0 t1 : Z) :
  ParseForm r = (r', Some err) ->
  (calls (Handler_Contact (h s) r) = Error "bad request" StatusBadRequest /\
   printed (Handler_Contact (h s) r) = [] /\
   exists w,
     serve s {| route := POST_contact; request := r; start := t0; finish := t1 |}
     = Some ({| h := h s;
                stdlog := stdlog s ++ [accessLine r StatusBadRequest t0 t1]
                          ++ queryWarning r |}, w) /\
     http.status w = StatusBadRequest /\
     body w = "bad request" +:+ str1 (byte 10) /\
     sent w = errorHeader ∅) /\
  (forall r0,
      PostForm r0 = None -> Method r0 = "POST" ->
      fst (mime.ParseMediaType (contentType r0)) = "application/x-www-form-urlencoded" ->
      snd (url.ParseQuery (io.data (Body r0))) <> None ->
      snd (ParseForm r0) <> None) /\
  (forall r0,
      PostForm r0 = None -> Form r0 = None -> Method r0 = "POST" ->
      fst (mime.ParseMediaType (contentType r0)) <> "application/x-www-form-urlencoded" ->
      snd (ParseForm r0)
      = json.saveError (snd (mime.ParseMediaType (contentType r0)))
          (snd (url.ParseQuery (url.RawQuery (URL r0)))) /\
      Form (fst (ParseForm r0)) = Some (fst (url.ParseQuery (url.RawQuery (URL r0)))) /\
      (snd (mime.ParseMediaType (contentType r0)) = None ->
       snd (url.ParseQuery (url.RawQuery (URL r0))) = None ->
       exists w,
         serve s {| route := POST_contact; request := r0; start := t0; finish := t1 |}
         = Some ({| h := h s;
                    stdlog := stdlog s ++
                      [submission (FormValue (fst (ParseForm r0)) "name")
                         (FormValue (fst (ParseForm r0)) "email")
                         (Z.of_nat (String.length
                                      (FormValue (fst (ParseForm r0)) "message")));
                       accessLine r0 StatusOK t0 t1] |}, w) /\
         http.status w = StatusOK /\ body w = successFragment)).
Proof.
  intros Hparse. split; [|split].
  - pose proof (Contact_calls_failed (h s) r r' err Hparse) as Hcalls.
    split; [exact Hcalls|]. split; [now rewrite Hcalls|].
    apply Contact_serve_refused. now rewrite Hparse.
  - intros r0 Hpost Hmethod Hct Hbody.
    assert (Hm : String.eqb (Method r0) "POST" || String.eqb (Method r0) "PUT"
                 || String.eqb (Method r0) "PATCH" = true)
      by (rewrite Hmethod; reflexivity).
    unfold ParseForm. rewrite Hpost, Hm, (parsePostForm_form r0 Hct).
    destruct (url.ParseQuery (io.data (Body r0))) as [vs [e|]];
      [clear Hbody | now cbn in Hbody].
    destruct (maxFormSize <? Z.of_nat (String.length (io.data (Body r0))));
      destruct (io.readError (Body r0)); destruct (Form r0);
      destruct (url.ParseQuery (url.RawQuery (URL r0))) as [nv [?|]];
      destruct (snd (mime.ParseMediaType (contentType r0))); cbn; discriminate.
  - intros r0 Hpost Hform Hmethod Hct.
    destruct (ParseForm_posted r0 Hpost Hform Hmethod) as [Hvalues Herror].
    rewrite (parsePostForm_other r0 Hct) in Hvalues, Herror.
    cbn [fst snd default] in Hvalues, Herror. rewrite copyValues_empty in Hvalues.
    split; [exact Herror|]. split; [exact Hvalues|].
    intros Hmerr Hquery. rewrite Hmerr, Hquery in Herror. cbn in Herror.
    destruct (ParseForm r0) as [r0' e0] eqn:Hparse0. cbn [fst snd] in *. subst e0.
    destruct (Contact_serve_parsed s r0 r0' t0 t1 Hparse0) as (w & Hserve & Hst & Hb & _).
    exists w. split; [|split; assumption].
    rewrite Hserve, (Contact_calls_parsed (h s) r0 r0' Hparse0).
    rewrite (queryWarning_parsed r0 Hquery). reflexivity.
Qed.

End ContactSpec.

Section ServerSpec.

Import http main handler.
Context {Mime : mime.Package} {Tpl : template.Package PageData}.

Lemma method_render (hd : Handler) route0 name r :
  templateOf route0 = Some name ->
  method hd route0 r = execute hd name (pageData hd).
Proof. destruct route0; intros [= <-]; reflexivity. Qed.

(** C5, as amended.  For each rendering route: when the template executes
    without error the reply has status 200 and exactly the template's
    output as its body, and the handler logs nothing.  When execution
    fails, the error is logged and [http.Error] is called with the generic
    message and status 500 after whatever the template had written: the
    message ends the body; the reply has status 500 when the template had
    written nothing, and otherwise keeps the 200 that went out with the
    first write, the refused 500 leaving a line in the log.  (In both cases
    the log also gets the access line of the middleware, and then the
    warning of the server when the query string holds a semicolon.) *)
Theorem render_reply (s : Server) (x : Exchange) name out err :
  templateOf (route x) = Some name ->
  template.ExecuteTemplate (tmpl (h s)) name (pageData (h s)) = (out, err) ->
  match err with
  | None =>
      exists w,
        serve s x
        = Some ({| h := h s;
                   stdlog := stdlog s ++
                     [accessLine (request x) StatusOK (start x) (finish x)]
                     ++ queryWarning (request x) |}, w) /\
        http.status w = StatusOK /\ body w = concat out
  | Some e =>
      calls (method (h s) (route x) (request x))
      = map Write out ++
        LogPrintf "template %q error: %v" [log.ArgString name; log.ArgError e]
        :: Error "internal server error" StatusInternalServerError /\
      exists w,
        serve s x
        = Some ({| h := h s;
                   stdlog := stdlog s ++
                     templateError name e
                     :: match out with [] => [] | _ :: _ => [superfluous] end ++
                     [accessLine (request x) StatusInternalServerError
                        (start x) (finish x)]
                     ++ queryWarning (request x) |}, w) /\
        body w = concat out +:+ ("internal server error" +:+ str1 (byte 10)) /\
        http.status w = match out with
                        | [] => StatusInternalServerError
                        | _ :: _ => StatusOK
                        end
  end.
Proof.
  intros Hroute Hexec.
  pose proof (f_equal calls (method_render (h s) (route x) name (request x) Hroute))
    as Hcalls.
  unfold execute in Hcalls. rewrite Hexec in Hcalls. cbn [calls] in Hcalls.
  destruct err as [e|].
  - split; [exact Hcalls|].
    rewrite serve_unfold, Hcalls, run_app, lastWriteHeader_app, lastWriteHeader_writes.
    cbn [lastWriteHeader Error]. cbv zeta.
    destruct out as [|p out].
    + cbn [map run call].
      destruct (run_Error_first "internal server error" StatusInternalServerError
                  newResponse (stdlog s ++ [log.Printf "template %q error: %v"
                                              [log.ArgString name; log.ArgError e]]))
        as (w & Hrun & Hw & Hs & Hb & _); try reflexivity.
      rewrite Hrun.
      rewrite finishRequest_settled by exact Hw. cbn [fst snd].
      exists w. rewrite <- app_assoc. split; [reflexivity|]. auto.
    + destruct (run_writes_fresh p out (stdlog s)) as (w1 & -> & Hw1 & Hb1 & _).
      cbn [run call].
      destruct (run_Error_streaming "internal server error" StatusInternalServerError
                  w1 (stdlog s ++ [log.Printf "template %q error: %v"
                                     [log.ArgString name; log.ArgError e]]) Hw1)
        as (w & Hrun & Hw & Hb & _).
      rewrite Hrun.
      rewrite finishRequest_settled by apply Hw. cbn [fst snd].
      exists w. rewrite <- !app_assoc. split; [reflexivity|].
      split; [now rewrite Hb, Hb1 | apply Hw].
  - rewrite app_nil_r in Hcalls.
    rewrite serve_unfold, Hcalls, lastWriteHeader_writes. cbv zeta.
    destruct out as [|p out].
    + cbn [map run]. unfold finishRequest. cbn [wroteHeader newResponse].
      rewrite response_WriteHeader_plain by first [reflexivity | apply lookup_empty].
      eexists. split; [reflexivity|]. split; reflexivity.
    + destruct (run_writes_fresh p out (stdlog s)) as (w & -> & Hw & Hb & _).
      rewrite finishRequest_settled by apply Hw. cbn [fst snd].
      exists w. split; [reflexivity|]. split; [apply Hw | exact Hb].
Qed.

Lemma finishRequest_keeps_log (w : response) (l : log.Logger) (line : log.Line) :
  In line l -> In line (snd (finishRequest (w, l))).
Proof.
  intros Hin. unfold finishRequest. destruct (wroteHeader w) eqn:Hw; [exact Hin|].
  unfold response_WriteHeader. rewrite Hw. cbn [orb andb negb Z.ltb Z.leb Z.eqb
    StatusOK StatusSwitchingProtocols Z.compare Pos.compare Pos.compare_cont].
  destruct (Get (handlerHeader w) "Content-Length") as [|c cl]; [exact Hin|].
  destruct (match json.ParseInt (String c cl) with
            | Some v => if 0 <=? v then Some v else None
            | None => None
            end); cbn [snd]; [exact Hin | apply in_or_app; now left].
Qed.

Lemma headerOnce_writes (out : list string) : headerOnce (map Write out) = true.
Proof.
  destruct out as [|p out]; [reflexivity|]. cbn [map headerOnce].
  induction out as [|p' out IH]; [reflexivity | exact IH].
Qed.

(** Every route of this server settles the status once, unless a template
    fails after it has written. *)
Lemma method_headerOnce (hd : Handler) route0 r :
  (forall name out e,
      templateOf route0 = Some name ->
      template.ExecuteTemplate (tmpl hd) name (pageData hd) = (out, Some e) ->
      out = []) ->
  headerOnce (method hd route0 r) = true.
Proof.
  intros Hfail.
  assert (Hexec : forall name,
             templateOf route0 = Some name ->
             headerOnce (execute hd name (pageData hd)) = true).
  { intros name Hname. unfold execute.
    destruct (template.ExecuteTemplate (tmpl hd) name (pageData hd))
      as [out [e|]] eqn:Hout; cbn [calls].
    - rewrite (Hfail name out e Hname Hout). reflexivity.
    - rewrite app_nil_r. apply headerOnce_writes. }
  destruct route0; cbn [method]; try (apply Hexec; reflexivity).
  - unfold Handler_Contact. destruct (ParseForm r) as [r' [err|]]; reflexivity.
  - reflexivity.
Qed.

(** C8, as amended.  When the inner handler completes, the middleware adds
    exactly one line to the log as the handler left it, with the method, the
    path, the code the handler passed to [WriteHeader] last (200 when it
    made no such call) and the elapsed time; when the handler panics no
    line is added.  On the server's writer that code is the status of the
    reply whenever the handler settles the status once, as every route of
    this server does unless a template fails after it has written: the
    access line of such an exchange carries the status of its reply. *)
Theorem access_log_line `{http.ResponseWriter W} (next : Request -> list Call)
    (t0 t1 : Z) (r : Request) (w : W) (l : log.Logger) :
  match run (next r) (w, l) with
  | Some (w', l') =>
      loggingMiddleware next t0 t1 r (w, l)
      = Some (w', l' ++ [accessLine r (lastWriteHeader StatusOK (next r)) t0 t1])
  | None => loggingMiddleware next t0 t1 r (w, l) = None
  end /\
  (forallb (fun c => negb (callsWriteHeader c)) (next r) = true ->
   lastWriteHeader StatusOK (next r) = StatusOK) /\
  (headerOnce (next r) = true ->
   forall l0, exists w' l',
     run (next r) (newResponse, l0) = Some (w', l') /\
     forall l'', http.status (fst (finishRequest (w', l'')))
                 = lastWriteHeader StatusOK (next r)) /\
  (forall (s : Server) (x : Exchange),
      (forall name out e,
          templateOf (route x) = Some name ->
          template.ExecuteTemplate (tmpl (h s)) name (pageData (h s)) = (out, Some e) ->
          out = []) ->
      exists s' w',
        serve s x = Some (s', w') /\
        In (accessLine (request x) (http.status w') (start x) (finish x))
           (stdlog s')).
Proof.
  split; [|split; [|split]].
  - rewrite loggingMiddleware_unfold. now destruct (run (next r) (w, l)) as [[w' l']|].
  - apply lastWriteHeader_none.
  - intros Honce l0. now apply run_headerOnce.
  - intros s x Hfail. rewrite serve_unfold.
    pose proof (method_headerOnce (h s) (route x) (request x) Hfail) as Honce.
    destruct (run_headerOnce _ newResponse (stdlog s) eq_refl Honce)
      as (w' & l' & -> & Hstatus).
    cbv zeta. eexists _, _. split; [reflexivity|]. cbn [stdlog].
    rewrite Hstatus. apply finishRequest_keeps_log, in_or_app. right. now left.
Qed.

(** No call of a handler panics on the server's writer when the codes it
    passes to [WriteHeader] are three-digit codes. *)
Lemma run_total (calls : list Call) :
  (forall code, In (WriteHeader code) calls -> 100 <= code <= 999) ->
  forall (w : response) l, exists w' l', run calls (w, l) = Some (w', l').
Proof.
  induction calls as [|c calls IH]; intros Hcodes w l; cbn [run]; [eauto|].
  assert (Hrest : forall code, In (WriteHeader code) calls -> 100 <= code <= 999).
  { intros code Hin. apply Hcodes. now right. }
  destruct c as [key|key value|code|p|format args]; cbn [call];
    try (apply IH; exact Hrest).
  - cbn [writeHeader response_ResponseWriter]. unfold response_WriteHeader.
    destruct (wroteHeader w); [apply IH; exact Hrest|].
    specialize (Hcodes code (or_introl eq_refl)).
    destruct ((code <? 100) || (999 <? code)) eqn:Hrange; [lia|].
    destruct ((100 <=? code) && (code <=? 199) && negb (code =? StatusSwitchingProtocols));
      apply IH; exact Hrest.
  - cbn [write response_ResponseWriter].
    destruct (response_Write p w l). apply IH; exact Hrest.
Qed.

Lemma method_codes (hd : Handler) route0 r code :
  In (WriteHeader code) (method hd route0 r) -> 100 <= code <= 999.
Proof.
  assert (Hexec : forall name,
             In (WriteHeader code) (execute hd name (pageData hd)) ->
             100 <= code <= 999).
  { intros name. unfold execute.
    destruct (template.ExecuteTemplate (tmpl hd) name (pageData hd)) as [out err].
    cbn [calls]. intros [Hin|Hin]%in_app_or.
    - apply in_map_iff in Hin as (p & Hp & _). discriminate Hp.
    - destruct err as [e|]; [|destruct Hin].
      cbn in Hin. unfold StatusInternalServerError in Hin.
      repeat (destruct Hin as [Hin|Hin]; [inversion Hin; subst; lia|]).
      destruct Hin. }
  destruct route0; cbn [method]; try apply Hexec.
  - unfold Handler_Contact. destruct (ParseForm r) as [r' [err|]]; cbn;
      unfold StatusBadRequest; intros Hin;
      repeat (destruct Hin as [Hin|Hin]; [inversion Hin; subst; lia|]);
      destruct Hin.
  - cbn. unfold StatusOK. intros [Hin|[]]. inversion Hin; subst; lia.
Qed.

Lemma serve_total (s : Server) (x : Exchange) :
  exists s' w, serve s x = Some (s', w) /\ h s' = h s.
Proof.
  rewrite serve_unfold.
  destruct (run_total (method (h s) (route x) (request x))
              (method_codes (h s) (route x) (request x)) newResponse (stdlog s))
    as (w & l & ->).
  cbv zeta. eexists _, _. split; [reflexivity|]. reflexivity.
Qed.

Lemma serveAll_total (xs : list Exchange) :
  forall s, exists s', serveAll s xs = Some s' /\ h s' = h s.
Proof.
  induction xs as [|x xs IH]; intros s; cbn [serveAll]; [eauto|].
  destruct (serve_total s x) as (s1 & w & -> & Hs1).
  destruct (IH s1) as (s' & -> & Hs'). exists s'. split; [reflexivity | congruence].
Qed.

(** C9.  The handler [New] returns holds the templates [ParseFS] parsed and
    the page data loaded from the five files.  Every method leaves the
    handler behind its receiver as it found it, so serving requests never
    changes it: after any sequence of Index, About, Projects, Interests,
    Contact and Health calls, none of which panics, the handler the server
    holds, and so its [pageData] and [tmpl], is the one [New] returned. *)
Theorem handler_is_never_mutated (fsys : fs.FS) (hd : Handler)
    (l : log.Logger) (xs : list Exchange) :
  New fsys = (Some hd, None) ->
  template.ParseFS fsys "templates/*.html" = inl (tmpl hd) /\
  pageData hd = loaded fsys /\
  (forall r,
      receiver (Handler_Index hd r) = hd /\ receiver (Handler_About hd r) = hd /\
      receiver (Handler_Projects hd r) = hd /\ receiver (Handler_Interests hd r) = hd /\
      receiver (Handler_Contact hd r) = hd /\ receiver (Handler_Health hd r) = hd) /\
  exists s',
    serveAll {| h := hd; stdlog := l |} xs = Some s' /\
    h s' = hd /\ pageData (h s') = pageData hd /\ tmpl (h s') = tmpl hd.
Proof.
  intros Hnew. split; [|split; [|split]].
  - rewrite New_unfold in Hnew.
    destruct (template.ParseFS fsys "templates/*.html") as [t|e]; [|discriminate].
    destruct (firstFailure fsys fixtures) as [[f cause]|]; [discriminate|].
    now inversion Hnew.
  - rewrite New_unfold in Hnew.
    destruct (template.ParseFS fsys "templates/*.html") as [t|e]; [|discriminate].
    destruct (firstFailure fsys fixtures) as [[f cause]|]; [discriminate|].
    now inversion Hnew.
  - intros r.
    pose proof (fun route0 => method_receiver hd route0 r) as Hkept.
    exact (conj (Hkept GET_root) (conj (Hkept GET_partials_about)
            (conj (Hkept GET_partials_projects) (conj (Hkept GET_partials_interests)
            (conj (Hkept POST_contact) (Hkept GET_health)))))).
  - destruct (serveAll_total xs {| h := hd; stdlog := l |}) as (s' & Hs' & Hh).
    exists s'. cbn [h] in Hh. rewrite Hs', Hh. auto.
Qed.

End ServerSpec.

(** The serving properties at work on the sample server. *)

Lemma Contact_success_witness :
  (exists w,
      main.serve (Mime := sample.plain) (sample.server sample.pages)
        (sample.exchange main.POST_contact sample.jane)
      = Some ({| main.h := main.h (sample.server sample.pages);
                 main.stdlog :=
                   [submission "Jane" "jane@x.com" 2;
                    accessLine sample.jane 200 0 1500] |}, w) /\
      http.status w = 200 /\
      http.Get (http.sent w) "Content-Type" = "text/html; charset=utf-8" /\
      http.body w = successFragment) /\
  (exists w,
      main.serve (Mime := sample.plain) (sample.server sample.pages)
        (sample.exchange main.POST_contact (sample.post "name=Jane"))
      = Some ({| main.h := main.h (sample.server sample.pages);
                 main.stdlog :=
                   [submission "Jane" EmptyString 0;
                    accessLine (sample.post "name=Jane") 200 0 1500] |}, w) /\
      http.status w = 200 /\
      http.Get (http.sent w) "Content-Type" = "text/html; charset=utf-8" /\
      http.body w = successFragment).
Proof.
  split.
  - destruct (Contact_replies_with_success_fragment (Mime := sample.plain)
                (sample.server sample.pages) sample.jane
                (fst (http.ParseForm (Mime := sample.plain) sample.jane)) 0 1500)
      as ((w & Hserve & Hrest) & _).
    + vm_compute. reflexivity.
    + exists w. split; [|exact Hrest].
      etransitivity; [exact Hserve | vm_compute; reflexivity].
  - destruct (Contact_replies_with_success_fragment (Mime := sample.plain)
                (sample.server sample.pages) (sample.post "name=Jane")
                (fst (http.ParseForm (Mime := sample.plain) (sample.post "name=Jane")))
                0 1500)
      as ((w & Hserve & Hrest) & _).
    + vm_compute. reflexivity.
    + exists w. split; [|exact Hrest].
      etransitivity; [exact Hserve | vm_compute; reflexivity].
Defined.

(** C2 fails as stated: the body parses as form data, the query string of
    the URL does not, and the request is answered with status 400. *)
Lemma parsed_body_with_broken_query_gets_400 :
  snd (url.ParseQuery (io.data (http.Body sample.janeTagged))) = None /\
  option_map (fun '(s', w) => (main.stdlog s', http.status w, http.body w))
    (main.serve (Mime := sample.plain) (sample.server sample.pages)
       (sample.exchange main.POST_contact sample.janeTagged))
  = Some ([accessLine sample.janeTagged 400 0 1500],
          400, "bad request" +:+ str1 (byte 10)).
Proof. split; vm_compute; reflexivity. Qed.

Lemma Contact_log_witness :
  printed (Handler_Contact (Mime := sample.plain)
             (main.h (sample.server sample.pages)) sample.jane)
  = printed (Handler_Contact (Mime := sample.plain)
               (main.h (sample.server sample.pages))
               (sample.post "message=yo&email=jane@x.com&name=Jane")).
Proof.
  destruct (Contact_log_depends_on_name_email_length (Mime := sample.plain)
              (main.h (sample.server sample.pages)) (main.h (sample.server sample.pages))
              sample.jane (sample.post "message=yo&email=jane@x.com&name=Jane")
              (fst (http.ParseForm (Mime := sample.plain) sample.jane))
              (fst (http.ParseForm (Mime := sample.plain)
                      (sample.post "message=yo&email=jane@x.com&name=Jane"))))
    as [Hsame _]; [vm_compute; reflexivity .. | exact Hsame].
Defined.

Lemma Contact_rejects_witness :
  exists w,
    main.serve (Mime := sample.plain) (sample.server sample.pages)
      (sample.exchange main.POST_contact (sample.post "name=%zz"))
    = Some ({| main.h := main.h (sample.server sample.pages);
               main.stdlog := [accessLine (sample.post "name=%zz") 400 0 1500] |}, w) /\
    http.status w = 400 /\
    http.body w = "bad request" +:+ str1 (byte 10).
Proof.
  destruct (Contact_rejects_unparseable_form (Mime := sample.plain)
              (sample.server sample.pages) (sample.post "name=%zz")
              (fst (http.ParseForm (Mime := sample.plain) (sample.post "name=%zz")))
              (EscapeError "%zz") 0 1500)
    as ((_ & _ & w & Hserve & Hstatus & Hbody & _) & _).
  - vm_compute. reflexivity.
  - exists w. split; [exact Hserve|]. split; [exact Hstatus | exact Hbody].
Defined.

(** C4 fails as stated: a body that cannot be parsed as form data, sent as
    JSON, is not parsed at all; the request is logged as a submission with
    empty fields and answered with status 200 and the success fragment. *)
Lemma unparseable_body_sent_as_json_gets_200 :
  snd (url.ParseQuery sample.jsonBody) = Some (EscapeError (q "%'}")) /\
  option_map (fun '(s', w) => (main.stdlog s', http.status w, http.body w))
    (main.serve (Mime := sample.plain) (sample.server sample.pages)
       (sample.exchange main.POST_contact sample.jsonPost))
  = Some ([submission EmptyString EmptyString 0;
           accessLine sample.jsonPost 200 0 1500],
          200, successFragment).
Proof. split; vm_compute; reflexivity. Qed.

Lemma render_reply_witness :
  (exists w,
      main.serve (Mime := sample.plain) (sample.server sample.pages)
        (sample.exchange main.GET_partials_about (sample.get "/partials/about"))
      = Some ({| main.h := main.h (sample.server sample.pages);
                 main.stdlog :=
                   [accessLine (sample.get "/partials/about") 200 0 1500] |}, w) /\
      http.status w = 200 /\ http.body w = "<h1>about</h1>") /\
  (exists w,
      main.serve (Mime := sample.plain) (sample.server sample.broken)
        (sample.exchange main.GET_root (sample.get "/"))
      = Some ({| main.h := main.h (sample.server sample.broken);
                 main.stdlog :=
                   [templateError "base" (LibError "template" "can't evaluate field");
                    http.superfluous;
                    accessLine (sample.get "/") 500 0 1500] |}, w) /\
      http.body w = "<html>internal server error" +:+ str1 (byte 10) /\
      http.status w = 200) /\
  (exists w,
      main.serve (Mime := sample.plain) (sample.server sample.pages)
        (sample.exchange main.GET_root (sample.getQuery "/" "a;b"))
      = Some ({| main.h := main.h (sample.server sample.pages);
                 main.stdlog :=
                   [accessLine (sample.getQuery "/" "a;b") 200 0 1500;
                    http.semicolonWarning] |}, w) /\
      http.status w = 200 /\ http.body w = "<h1>base</h1>").
Proof.
  split; [|split].
  - exact (render_reply (Mime := sample.plain) (sample.server sample.pages)
             (sample.exchange main.GET_partials_about (sample.get "/partials/about"))
             "about" ["<h1>about</h1>"] None eq_refl eq_refl).
  - exact (proj2 (render_reply (Mime := sample.plain) (sample.server sample.broken)
                    (sample.exchange main.GET_root (sample.get "/"))
                    "base" ["<html>"]
                    (Some (LibError "template" "can't evaluate field"))
                    eq_refl eq_refl)).
  - exact (render_reply (Mime := sample.plain) (sample.server sample.pages)
             (sample.exchange main.GET_root (sample.getQuery "/" "a;b"))
             "base" ["<h1>base</h1>"] None eq_refl eq_refl).
Defined.

(** C5 fails as stated: executing [base] fails after it has written, the
    generic message is sent, and the reply has status 200, not 500. *)
Lemma render_failure_after_output_is_not_a_500 :
  snd (template.ExecuteTemplate (Package := sample.engine sample.broken)
         sample.broken "base" (sample.page sample.ada))
  = Some (LibError "template" "can't evaluate field") /\
  option_map (fun '(_, w) => (http.status w, http.body w))
    (main.serve (Mime := sample.plain) (sample.server sample.broken)
       (sample.exchange main.GET_root (sample.get "/")))
  = Some (200, "<html>internal server error" +:+ str1 (byte 10)).
Proof. split; vm_compute; reflexivity. Qed.

(** C8 fails as stated: for the same request the access line says 500 and
    the status of the reply is 200. *)
Lemma access_line_status_is_not_the_reply_status :
  option_map (fun '(s', w) =>
                (last (main.stdlog s'), http.status w))
    (main.serve (Mime := sample.plain) (sample.server sample.broken)
       (sample.exchange main.GET_root (sample.get "/")))
  = Some (Some (accessLine (sample.get "/") 500 0 1500), 200).
Proof. vm_compute. reflexivity. Qed.

Lemma handler_is_never_mutated_witness :
  exists s',
    main.serveAll (Mime := sample.plain)
      {| main.h := main.h (sample.server sample.pages); main.stdlog := [] |}
      [ sample.exchange main.GET_root (sample.get "/");
        sample.exchange main.POST_contact sample.jane;
        sample.exchange main.GET_partials_projects (sample.get "/partials/projects");
        sample.exchange main.GET_health (sample.get "/health");
        sample.exchange main.POST_contact (sample.post "name=%zz");
        sample.exchange main.GET_partials_interests (sample.get "/partials/interests");
        sample.exchange main.GET_partials_about (sample.get "/partials/about") ]
    = Some s' /\
    main.h s' = main.h (sample.server sample.pages).
Proof.
  destruct (handler_is_never_mutated (Mime := sample.plain)
              (sample.tree sample.about_json sample.skills_json)
              (main.h (sample.server sample.pages)) []
              [ sample.exchange main.GET_root (sample.get "/");
                sample.exchange main.POST_contact sample.jane;
                sample.exchange main.GET_partials_projects (sample.get "/partials/projects");
                sample.exchange main.GET_health (sample.get "/health");
                sample.exchange main.POST_contact (sample.post "name=%zz");
                sample.exchange main.GET_partials_interests (sample.get "/partials/interests");
                sample.exchange main.GET_partials_about (sample.get "/partials/about") ])
    as (_ & _ & _ & s' & Hserve & Hh & _).
  - vm_compute. reflexivity.
  - exists s'. split; [exact Hserve | exact Hh].
Defined.

(** * Further properties

    Properties of the code beyond those the specification states. *)

(** ** Start-up *)
Section StartupMore.

Import json handler.
Context {Tpl : template.Package PageData}.

Lemma firstFailure_none (fsys : fs.FS) :
  firstFailure fsys fixtures = None -> forall f, loadError fsys f = None.
Proof.
  intros Hnone f. destruct (loadError fsys f) as [cause|] eqn:Hf; [|reflexivity].
  destruct (firstFailure_exists fsys fixtures f cause (In_fixtures f) Hf)
    as (f' & cause' & Hsome).
  congruence.
Qed.

(** X1.  [New] returns either a handler and no error, or an error and no
    handler: never both, never neither.  The templates come first: when they
    do not parse, the error is that of parsing them under
    [parse templates: ], whatever the fixtures hold, also when a fixture
    would fail to load.  When they parse, [New] returns a handler exactly
    when each of the five fixtures loads, and the handler then holds the
    parsed templates and the loaded data; otherwise the error is that of the
    first fixture, in the order of loading, that fails to load, under the
    name of its file. *)
Theorem New_returns_handler_or_error (fsys : fs.FS) :
  ((exists hd, New fsys = (Some hd, None)) \/ (exists e, New fsys = (None, Some e))) /\
  match template.ParseFS fsys "templates/*.html" with
  | inr cause => New fsys = (None, Some (WrapError "parse templates: %w" cause))
  | inl t =>
      (New fsys = (Some {| tmpl := t; pageData := loaded fsys |}, None) /\
       forall f, loadError fsys f = None) \/
      (exists f cause earlier later,
          New fsys = (None, Some (WrapError ("load " +:+ fileName f +:+ ": %w") cause)) /\
          loadError fsys f = Some cause /\
          fixtures = earlier ++ f :: later /\
          forall g, In g earlier -> loadError fsys g = None)
  end.
Proof.
  rewrite New_unfold.
  destruct (template.ParseFS fsys "templates/*.html") as [t|terr].
  - destruct (firstFailure fsys fixtures) as [[f cause]|] eqn:Hff.
    + split; [right; eauto|]. right. exists f, cause.
      apply firstFailure_first in Hff as (Hf & earlier & later & Heq & Hearlier).
      exists earlier, later. auto.
    + split; [left; eauto|]. left. split; [reflexivity|].
      now apply firstFailure_none.
  - split; [right; eauto | reflexivity].
Qed.

End StartupMore.

(** ** Loading: blank, padded and truncated files *)
Section DecoderMore.

Import json handler.

Lemma scan_split (a b : string) :
  forall s stk,
    scan s stk (a +:+ b) =
    match scan s stk a with
    | Exhausted s' stk' => scan s' stk' b
    | Found v rest => Found v (rest +:+ b)
    | Failed e => Failed e
    end.
Proof.
  induction a as [|c a IH]; intros s stk; [reflexivity|].
  rewrite append_cons. cbn [scan].
  destruct (next s stk c) as [s' stk'|v [|]|e]; [apply IH | reflexivity ..].
Qed.

Lemma nonSpace_app (a b : string) :
  nonSpace (a +:+ b) = nonSpace a || nonSpace b.
Proof.
  induction a as [|c a IH]; [reflexivity|].
  rewrite append_cons. cbn [nonSpace]. now rewrite IH, orb_assoc.
Qed.

Lemma scan_blank (ws : string) :
  nonSpace ws = false ->
  forall stk, scan stateBeginValue stk ws = Exhausted stateBeginValue stk.
Proof.
  induction ws as [|c ws IH]; intros Hws stk; [reflexivity|].
  cbn [nonSpace] in Hws. apply orb_false_elim in Hws as [Hc Hws].
  apply negb_false_iff in Hc.
  cbn [scan next]. unfold stepBeginValue. rewrite Hc. now apply IH.
Qed.

Lemma readValue_leading_blank (ws content : string) fail :
  nonSpace ws = false ->
  readValue {| io.data := ws +:+ content; io.failure := fail |}
  = readValue {| io.data := content; io.failure := fail |}.
Proof.
  intros Hws. unfold readValue. cbn [io.data io.failure].
  rewrite scan_split, (scan_blank ws Hws), nonSpace_app, Hws. reflexivity.
Qed.

(** X2.  A file that is empty or holds only white space fails to load with
    [io.EOF], and the target is left as it was. *)
Theorem loadJSON_blank_file_is_EOF `{Unmarshaler T}
    (fsys : fs.FS) path content (cur : T) :
  fsys path = inl {| io.data := content; io.failure := None |} ->
  nonSpace content = false ->
  loadJSON fsys path cur = (cur, Some EOF).
Proof.
  intros Hopen Hblank. unfold loadJSON, Decode, readValue. rewrite Hopen.
  cbn [io.data io.failure]. rewrite (scan_blank content Hblank), Hblank.
  reflexivity.
Qed.

(** X3.  White space before the value of a file changes nothing: the file
    loads exactly as it does without it, the error included. *)
Theorem loadJSON_skips_leading_whitespace `{Unmarshaler T}
    (fsys fsys' : fs.FS) path ws content fail (cur : T) :
  nonSpace ws = false ->
  fsys path = inl {| io.data := content; io.failure := fail |} ->
  fsys' path = inl {| io.data := ws +:+ content; io.failure := fail |} ->
  loadJSON fsys' path cur = loadJSON fsys path cur.
Proof.
  intros Hws Hopen Hopen'. unfold loadJSON, Decode.
  now rewrite Hopen, Hopen', readValue_leading_blank.
Qed.

End DecoderMore.

Section Truncation.

Import json handler.

Lemma endThen_top v c : endThen v [] c = scanEnd v false.
Proof. reflexivity. Qed.

Lemma next_atTopLevel s stk c s' stk' :
  atTopLevel s stk -> next s stk c = scanContinue s' stk' -> atTopLevel s' stk'.
Proof.
  destruct s; cbn [atTopLevel]; try contradiction; try (intros ->);
    cbn [next]; unfold step0, stepESign; try rewrite !endThen_top;
    repeat match goal with |- context [if ?b then _ else _] => destruct b end;
    try discriminate; intros [= <- <-]; reflexivity.
Qed.

Lemma next_atTopLevel_end s stk c v :
  atTopLevel s stk -> next s stk c = scanEnd v true -> False.
Proof.
  destruct s; cbn [atTopLevel]; try contradiction; try (intros ->);
    cbn [next]; unfold step0, stepESign; try rewrite !endThen_top;
    repeat match goal with |- context [if ?b then _ else _] => destruct b end;
    discriminate.
Qed.

(** At top level a value that is not an array or an object ends only with a
    byte that follows it. *)
Lemma scan_atTopLevel (input : string) :
  forall s stk v rest,
    atTopLevel s stk -> scan s stk input = Found v rest -> rest <> EmptyString.
Proof.
  induction input as [|c input IH]; intros s stk v rest Htop; cbn [scan];
    [discriminate|].
  destruct (next s stk c) as [s' stk'|v' [|]|e] eqn:Hnext.
  - apply IH. eapply next_atTopLevel; eassumption.
  - exfalso. eapply next_atTopLevel_end; eassumption.
  - intros [= _ <-]. discriminate.
  - discriminate.
Qed.

(** The end of the input ends a value only at top level. *)
Lemma next_end_of_input s stk v b :
  next s stk " "%char = scanEnd v b -> atTopLevel s stk.
Proof.
  destruct s; cbn [next atTopLevel];
    unfold stepBeginValue, stepBeginString, step0, stepESign, pushParseState,
           stepEndValue, endThen, endValue;
    change (isSpace " "%char) with true; cbv iota;
    try discriminate; try (intros _; exact I);
    repeat match goal with
      | |- context [if ?b then _ else _] => destruct b
      | |- context [match unquote ?r with _ => _ end] => destruct (unquote r)
      | |- context [match ?m with S _ => _ | O => _ end] => destruct m
      | |- context [match ?r with EmptyString => _ | String _ _ => _ end] => destruct r
      | |- context [match ?l with [] => _ | _ :: _ => _ end] => destruct l
      | |- context [match ?p with parseObjectKey _ _ => _ | _ => _ end] => destruct p
      | |- context [match ?o with Some _ => _ | None => _ end] => destruct o
      | |- context [match ?v with VString _ => _ | _ => _ end] => destruct v
      end;
    try discriminate; try reflexivity.
Qed.

(** X4.  A file cut short fails to load.  When [text] holds one array or
    object and ends at its closing bracket, every proper prefix [cut] of
    [text] fails with [io.ErrUnexpectedEOF] ([io.EOF] when the prefix is
    white space only) and leaves the target as it was: the decoder never
    takes part of a document for the whole of it. *)
Theorem loadJSON_truncated_file_fails `{Unmarshaler T}
    (fsys : fs.FS) path text cut more v (cur : T) :
  scan stateBeginValue [] text = Found v EmptyString ->
  text = cut +:+ more -> more <> EmptyString ->
  fsys path = inl {| io.data := cut; io.failure := None |} ->
  loadJSON fsys path cur
  = (cur, Some (if nonSpace cut then ErrUnexpectedEOF else EOF)).
Proof.
  intros Hscan -> Hmore Hopen. rewrite scan_split in Hscan.
  unfold loadJSON, Decode, readValue. rewrite Hopen. cbn [io.data io.failure].
  destruct (scan stateBeginValue [] cut) as [v' rest'|e|s stk] eqn:Hcut.
  - exfalso. injection Hscan as _ Hrest.
    destruct rest'; [cbn in Hrest; contradiction | discriminate Hrest].
  - discriminate Hscan.
  - destruct (next s stk " "%char) as [s' stk'|v' b|e] eqn:Hnext; try reflexivity.
    exfalso. apply next_end_of_input in Hnext.
    now apply (scan_atTopLevel _ _ _ _ _ Hnext Hscan).
Qed.

End Truncation.

(** ** Decoding: shapes, keys and members *)
Section Shapes.

Import json handler.

(** X5.  The top-level value of a fixture.  A file that holds [null] loads
    without error and leaves the zero value, an [About] with every field
    empty or an empty list.  Apart from [null], [about.json] loads only
    when its value is an object, and each of the four other files only when
    its value is an array. *)
Theorem fixture_top_level_value (fsys : fs.FS) (f : Fixture) file v rest :
  fsys ("data/" +:+ fileName f) = inl file ->
  readValue file = inl (v, rest) ->
  (v = VNull ->
   loadError fsys f = None /\
   match f with
   | AboutFile => PageData_About (loaded fsys) = zero
   | ProjectsFile => Projects (loaded fsys) = []
   | InterestsFile => Interests (loaded fsys) = []
   | SkillsFile => Skills (loaded fsys) = []
   | ExperienceFile => PageData_Experience (loaded fsys) = []
   end) /\
  (loadError fsys f = None ->
   v = VNull \/
   match f with
   | AboutFile => exists ms, v = VObject ms
   | _ => exists es, v = VArray es
   end).
Proof.
  intros Hopen Hread. split.
  - intros ->.
    destruct f; cbv [fileName String.append] in Hopen;
      unfold loadError, loaded, loadJSON, Decode;
      cbn [PageData_About Projects Interests Skills PageData_Experience];
      rewrite Hopen, Hread; split; reflexivity.
  - destruct f; cbv [fileName String.append] in Hopen; unfold loadError, loadJSON, Decode;
      rewrite Hopen, Hread; destruct v; cbn; intros Herr;
      try discriminate Herr; eauto.
Qed.

Lemma digits_rejects (c : ascii) (s : string) :
  isDigit c = false -> url.Contains c s = true ->
  forall acc, digits acc s = None.
Proof.
  intros Hc. induction s as [|x s IH]; intros Hin acc; [discriminate Hin|].
  cbn [url.Contains] in Hin. cbn [digits].
  destruct (isDigit x) eqn:Hx; [|reflexivity].
  apply IH. destruct (Ascii.eqb x c) eqn:Hxc; [|exact Hin].
  apply Ascii.eqb_eq in Hxc. congruence.
Qed.

Lemma ParseInt_rejects (c : ascii) (lit : string) :
  isDigit c = false -> c <> "-"%char -> c <> "+"%char ->
  url.Contains c lit = true -> ParseInt lit = None.
Proof.
  intros Hc Hminus Hplus Hin. unfold ParseInt.
  destruct lit as [|x rest]; [reflexivity|].
  assert (Hrest : forall y, y <> c -> Ascii.eqb x y = true ->
                            match rest with
                            | EmptyString => None
                            | String _ _ => digits 0 rest
                            end = None).
  { intros y Hy Hxy. apply Ascii.eqb_eq in Hxy. subst y.
    cbn [url.Contains] in Hin.
    destruct (Ascii.eqb x c) eqn:Hxc; [apply Ascii.eqb_eq in Hxc; congruence|].
    destruct rest; [reflexivity|]. now apply digits_rejects with c. }
  destruct (Ascii.eqb x "-"%char) eqn:Hm.
  { rewrite (Hrest "-"%char) by auto. reflexivity. }
  destruct (Ascii.eqb x "+"%char) eqn:Hp.
  { rewrite (Hrest "+"%char) by auto. reflexivity. }
  now rewrite (digits_rejects c (String x rest) Hc Hin).
Qed.

(** X6.  [years_of_experience] takes integer literals in the range of
    [int64] and nothing else.  A literal with a fraction or an exponent does
    not parse as an integer.  A literal that parses lies in the range and is
    stored; one that does not is reported as an [UnmarshalTypeError] with
    the value [number <literal>] and the Go type [int], and [About] is left
    as it was. *)
Theorem years_of_experience_is_an_int64_literal (lit : string) (a : About) :
  (url.Contains "."%char lit = true \/ url.Contains "e"%char lit = true \/
   url.Contains "E"%char lit = true -> ParseInt lit = None) /\
  (forall n, ParseInt lit = Some n ->
     - 2 ^ 63 <= n < 2 ^ 63 /\
     store (VObject [("years_of_experience", VNumber lit)]) a
     = ({| Name := Name a; Tagline := Tagline a; Bio := Bio a;
           Location := Location a; Availability := Availability a;
           YearsOfExperience := n; Email := Email a; GitHub := GitHub a;
           LinkedIn := LinkedIn a; X := X a; ProfilePhoto := ProfilePhoto a |},
        None)) /\
  (ParseInt lit = None ->
     store (VObject [("years_of_experience", VNumber lit)]) a
     = (a, Some (UnmarshalTypeError ("number " +:+ lit) "int"))).
Proof.
  split; [|split].
  - intros [H|[H|H]]; eapply ParseInt_rejects; try exact H;
      first [reflexivity | discriminate].
  - intros n Hn. split.
    + revert Hn. unfold ParseInt.
      match goal with |- context [match ?x with Some _ => _ | None => _ end] =>
        destruct x as [m|]; [|discriminate] end.
      destruct ((- 9223372036854775808 <=? m) && (m <=? 9223372036854775807)) eqn:Hr;
        [|discriminate].
      intros [= <-]. lia.
    + destruct a. cbn. rewrite Hn. reflexivity.
  - intros Hn. destruct a. cbn. rewrite Hn. reflexivity.
Qed.

Lemma object_app {T} (fields : list (Field T)) (ms1 ms2 : members) :
  forall t saved,
    object fields (ms1 ++ ms2) t saved
    = object fields ms2 (fst (object fields ms1 t saved))
        (snd (object fields ms1 t saved)).
Proof.
  induction ms1 as [|[k v] ms1 IH]; intros t saved; [reflexivity|].
  cbn [app object]. destruct (lookupField fields k) as [f|]; [|apply IH].
  destruct (setField f v t) as [t' e]. apply IH.
Qed.

Lemma lookupField_none {T} (fields : list (Field T)) (k : string) :
  (forall f, In f fields -> name f <> k /\ equalFold k (name f) = false) ->
  lookupField fields k = None.
Proof.
  intros Hno. unfold lookupField.
  destruct (find (fun f => String.eqb (name f) k) fields) as [f|] eqn:Hexact.
  { apply find_some in Hexact as [Hin Heq]. apply String.eqb_eq in Heq.
    now destruct (Hno f Hin). }
  destruct (find (fun f => equalFold k (name f)) fields) as [f|] eqn:Hfold;
    [|reflexivity].
  apply find_some in Hfold as [Hin Heq]. destruct (Hno f Hin). congruence.
Qed.

(** X7.  Members that match no field are ignored.  When no tag of a struct
    equals a key, exactly or with letter case ignored, an object with a
    member of that key, wherever it stands and whatever its value, is
    decoded exactly as the object without that member. *)
Theorem unknown_members_are_ignored {T} (tname : string) (z : T)
    (fields : list (Field T)) (ms1 ms2 : members) (k : string) (v : Value) (t : T) :
  (forall f, In f fields -> name f <> k /\ equalFold k (name f) = false) ->
  store (Unmarshaler := struct_Unmarshaler tname z fields)
    (VObject (ms1 ++ (k, v) :: ms2)) t
  = store (Unmarshaler := struct_Unmarshaler tname z fields)
      (VObject (ms1 ++ ms2)) t.
Proof.
  intros Hno. cbn [store struct_Unmarshaler].
  rewrite !object_app. cbn [object]. now rewrite (lookupField_none fields k Hno).
Qed.

Lemma equalFold_ascii (tag : string) :
  forall key, isASCII key = true ->
    (equalFold key tag = true <-> toUpper key = toUpper tag).
Proof.
  induction tag as [|n tag IH]; intros [|c key] Hkey; cbn [equalFold toUpper];
    try (split; [reflexivity | reflexivity]); try (split; discriminate).
  cbn [isASCII] in Hkey. apply andb_prop in Hkey as [Hc Hkey].
  cbn [foldHead]. rewrite Hc. rewrite andb_true_iff, Ascii.eqb_eq, (IH key Hkey).
  split; [intros [-> ->]; reflexivity | intros [= -> ->]; auto].
Qed.

Lemma caseDistinct_inj {T} (fields : list (Field T)) (f g : Field T) :
  caseDistinct fields -> In f fields -> In g fields ->
  toUpper (name g) = toUpper (name f) -> g = f.
Proof.
  unfold caseDistinct. induction fields as [|h fields IH]; [intros _ []|].
  cbn [map]. intros Hnd Hf Hg Heq. apply NoDup_cons in Hnd as [Hh Hnd].
  destruct Hf as [->|Hf], Hg as [->|Hg]; auto.
  - exfalso. apply Hh, list_elem_of_In. rewrite <- Heq.
    now apply (in_map (fun f => toUpper (name f))).
  - exfalso. apply Hh, list_elem_of_In. rewrite Heq.
    now apply (in_map (fun f => toUpper (name f))).
Qed.

Lemma lookupField_fold {T} (fields : list (Field T)) (key : string) (f : Field T) :
  caseDistinct fields -> isASCII key = true -> In f fields ->
  toUpper key = toUpper (name f) ->
  lookupField fields key = Some f.
Proof.
  intros Hnd Hkey Hf Hfold. unfold lookupField.
  destruct (find (fun g => String.eqb (name g) key) fields) as [g|] eqn:Hexact.
  { apply find_some in Hexact as [Hg Heq]. apply String.eqb_eq in Heq.
    f_equal. apply (caseDistinct_inj fields f g Hnd Hf Hg). congruence. }
  destruct (find (fun g => equalFold key (name g)) fields) as [g|] eqn:Hfind.
  - apply find_some in Hfind as [Hg Heq]. f_equal.
    apply (caseDistinct_inj fields f g Hnd Hf Hg).
    apply (equalFold_ascii (name g) key Hkey) in Heq. congruence.
  - exfalso. pose proof (find_none _ _ Hfind f Hf) as Hno. cbn beta in Hno.
    apply (equalFold_ascii (name f) key Hkey) in Hfold. congruence.
Qed.

(** The tags of the four struct types of the data model are distinct up to
    letter case. *)
Lemma handler_tags_caseDistinct :
  caseDistinct Project_fields /\ caseDistinct Interest_fields /\
  caseDistinct Experience_fields /\ caseDistinct About_fields.
Proof.
  unfold caseDistinct. repeat split; apply (bool_decide_unpack _); vm_compute; reflexivity.
Qed.

(** X8.  Keys are matched without regard to letter case.  For a struct
    whose tags are distinct up to letter case, as those of [Project],
    [Interest], [Experience] and [About] are ([handler_tags_caseDistinct]),
    a member whose ASCII key equals a tag up to the case of its letters is
    stored by the field of that tag. *)
Theorem member_keys_ignore_case {T} (tname : string) (z : T)
    (fields : list (Field T)) (key : string) (v : Value) (f : Field T) (t : T) :
  caseDistinct fields -> isASCII key = true -> In f fields ->
  toUpper key = toUpper (name f) ->
  store (Unmarshaler := struct_Unmarshaler tname z fields) (VObject [(key, v)]) t
  = setField f v t.
Proof.
  intros Hnd Hkey Hf Hfold. cbn [store struct_Unmarshaler object].
  rewrite (lookupField_fold fields key f Hnd Hkey Hf Hfold).
  destruct (setField f v t) as [t' e]. reflexivity.
Qed.

(** X9.  Members are stored in the order of the document, so that a later
    member overrides an earlier one with the same key: [Name] is the string
    of the last member keyed [name], whatever comes before it, when no
    member after it matches that tag. *)
Theorem last_name_member_wins (ms1 ms2 : members) (s : string) (a : About) :
  (forall k v, In (k, v) ms2 -> equalFold k "name" = false) ->
  Name (fst (store (VObject (ms1 ++ ("name", VString s) :: ms2)) a)) = s.
Proof.
  intros Hlater. cbn [store About_Unmarshaler struct_Unmarshaler].
  rewrite object_app. cbn [object].
  change (lookupField About_fields "name") with (Some (field "name" Name
    (fun x a => Build_About x (Tagline a) (Bio a) (Location a) (Availability a)
       (YearsOfExperience a) (Email a) (GitHub a) (LinkedIn a) (X a) (ProfilePhoto a)))).
  cbn [setField field store string_Unmarshaler].
  rewrite (object_frame Name); [reflexivity|].
  intros k v f Hin Hlook t. eapply About_name_frame; eauto.
Qed.

End Shapes.

Section Entries.

Import json handler.

(** X10.  What a [[]string] target ([Skills], [Tags], [Description]) takes
    from a JSON array.  When every entry is a string or [null], a fresh
    slice gets the strings in order, an empty string for each [null], and
    no error.  Otherwise decoding fails whatever the target held, and the
    error is the type error of the first entry that is neither: it names
    that entry's JSON type and the Go type [string]. *)
Theorem string_array_entries (es : list Value) :
  (forallb stringOrNull es = true ->
   store (VArray es) (@nil string) = (map textOf es, None)) /\
  (forall good bad rest (cur : list string),
      es = good ++ bad :: rest ->
      forallb stringOrNull good = true -> stringOrNull bad = false ->
      snd (store (VArray es) cur) = mismatch "string" bad /\
      mismatch "string" bad <> None).
Proof.
  cbn [store slice_Unmarshaler]. split.
  - induction es as [|e es IH]; [reflexivity|].
    cbn [forallb]. intros [He Hes]%andb_prop. cbn [array map hd tl].
    rewrite (IH Hes). destruct e; try discriminate He; reflexivity.
  - intros good bad rest cur -> Hgood Hbad. split; [|destruct bad; discriminate].
    revert cur. induction good as [|e good IH]; intros cur; cbn [app array].
    + destruct (array rest (tl cur)) as [xs err'].
      destruct bad; try discriminate Hbad; reflexivity.
    + cbn [forallb] in Hgood. apply andb_prop in Hgood as [He Hgood].
      specialize (IH Hgood (tl cur)).
      destruct (array (good ++ bad :: rest) (tl cur)) as [xs err'].
      cbn [snd] in IH. subst err'.
      destruct e; try discriminate He; reflexivity.
Qed.

End Entries.

(** ** What a well-formed fixture loads as *)
Section Exactly.

Import json handler.

Lemma array_exact `{Unmarshaler A} {B} (enc : B -> Value) (dec : B -> A) :
  (forall x cur, store (enc x) cur = (dec x, None)) ->
  forall xs cur, array (map enc xs) cur = (map dec xs, None).
Proof.
  intros Henc. induction xs as [|x xs IH]; intros cur; cbn [map array];
    [reflexivity|].
  now rewrite Henc, IH.
Qed.

Lemma strings_exact (ss cur : list string) :
  array (map VString ss) cur = (ss, None).
Proof.
  rewrite (array_exact VString id); [now rewrite map_id | reflexivity].
Qed.

Lemma Project_exact (p cur : Project) : store (Project_value p) cur = (p, None).
Proof.
  destruct p, cur. cbn. rewrite strings_exact. reflexivity.
Qed.

Lemma Interest_exact (i cur : Interest) : store (Interest_value i) cur = (i, None).
Proof. destruct i, cur. reflexivity. Qed.

Lemma Experience_exact (e cur : Experience) :
  store (Experience_value e) cur = (e, None).
Proof.
  destruct e, cur. cbn. rewrite strings_exact. reflexivity.
Qed.

(** X11.  Each type of the data model takes the JSON value that gives its
    fields under their tags and yields exactly those fields with no error,
    whatever the target held before: every member reaches the field that
    carries its tag, and lists keep their order and their length. *)
Theorem data_model_decodes_exactly :
  (forall (a cur : About) years,
      ParseInt years = Some (YearsOfExperience a) ->
      store (About_value years a) cur = (a, None)) /\
  (forall ps cur : list Project,
      store (VArray (map Project_value ps)) cur = (ps, None)) /\
  (forall ins cur : list Interest,
      store (VArray (map Interest_value ins)) cur = (ins, None)) /\
  (forall ss cur : list string,
      store (VArray (map VString ss)) cur = (ss, None)) /\
  (forall es cur : list Experience,
      store (VArray (map Experience_value es)) cur = (es, None)).
Proof.
  repeat split.
  - intros a cur years Hyears. destruct a, cur. cbn in Hyears |- *.
    rewrite Hyears. reflexivity.
  - intros ps cur. cbn [store slice_Unmarshaler].
    rewrite (array_exact Project_value id Project_exact). now rewrite map_id.
  - intros ins cur. cbn [store slice_Unmarshaler].
    rewrite (array_exact Interest_value id Interest_exact). now rewrite map_id.
  - intros ss cur. apply strings_exact.
  - intros es cur. cbn [store slice_Unmarshaler].
    rewrite (array_exact Experience_value id Experience_exact). now rewrite map_id.
Qed.

(** *** Plain strings *)

Lemma plain_app (a b : string) : plain (a +:+ b) = plain a && plain b.
Proof.
  induction a as [|c a IH]; [reflexivity|].
  rewrite append_cons. cbn [plain]. now rewrite IH, andb_assoc.
Qed.

Lemma unquoteBytes_plain (s : string) :
  plain s = true ->
  forall fuel, (String.length s <= fuel)%nat -> unquoteBytes fuel s = Some s.
Proof.
  induction s as [|c s IH]; intros Hs fuel Hfuel.
  - destruct fuel; reflexivity.
  - destruct fuel as [|fuel]; [cbn in Hfuel; lia|].
    cbn [plain] in Hs. apply andb_prop in Hs as [Hc Hs].
    unfold plainByte in Hc.
    apply andb_prop in Hc as [Hc Hback]. apply andb_prop in Hc as [Hc Hquote].
    apply andb_prop in Hc as [Hlow Hhigh].
    apply negb_true_iff in Hback, Hquote.
    cbn [unquoteBytes]. rewrite Hback, Hquote, Hhigh.
    assert (Hctl : (code c <? 32) = false) by lia. rewrite Hctl. cbn [orb].
    rewrite IH; [reflexivity | exact Hs | cbn in Hfuel; lia].
Qed.

Lemma unquote_plain (s : string) : plain s = true -> unquote s = Some s.
Proof. intros Hs. apply unquoteBytes_plain; [exact Hs | lia]. Qed.

End Exactly.

(** ** Reading back printed values *)
Section Printed.

Import json handler.

Lemma Value_nested_ind (P : Value -> Prop) :
  P VNull -> (forall b, P (VBool b)) -> (forall lit, P (VNumber lit)) ->
  (forall s, P (VString s)) ->
  (forall es, Forall P es -> P (VArray es)) ->
  (forall ms, Forall (fun m => P (snd m)) ms -> P (VObject ms)) ->
  forall v, P v.
Proof.
  intros Hnull Hbool Hnumber Hstring Harray Hobject.
  fix IH 1.
  intros [|b|lit|s|es|ms];
    [exact Hnull | apply Hbool | apply Hnumber | apply Hstring | |].
  - apply Harray. induction es as [|e es IHes]; constructor; [apply IH | exact IHes].
  - apply Hobject. induction ms as [|m ms IHms]; constructor; [apply IH | exact IHms].
Qed.

Lemma scan_cons (s : step) (stk : list parseState) (c : ascii) (rest : string) :
  scan s stk (String c rest) = resume (next s stk c) c rest.
Proof. cbn [scan]. unfold resume. destruct (next s stk c) as [| v [|] |]; reflexivity. Qed.

Lemma endValue_filed (v : Value) (stk : list parseState) (bracket : bool) :
  expectsValue stk -> endValue v stk bracket = scanContinue stateEndValue (filed v stk).
Proof.
  destruct stk as [|[ms [k|]|ms [k|]|es] stk]; cbn [expectsValue]; try contradiction;
    reflexivity.
Qed.

Lemma isSeparator_cases (c : ascii) :
  isSeparator c = true -> c = ","%char \/ c = "]"%char \/ c = "}"%char.
Proof.
  unfold isSeparator. intros H.
  apply orb_prop in H as [H|H]; [apply orb_prop in H as [H|H]|];
    apply Ascii.eqb_eq in H; auto.
Qed.

(** *** Strings *)

Lemma scan_inString_any (s : string) :
  forall raw stk rest,
    plain raw = true -> plain s = true ->
    scan (stateInString raw) stk (s +:+ String dquote rest)
    = resume (endValue (VString (raw +:+ s)) stk false) dquote rest.
Proof.
  induction s as [|c s IH]; intros raw stk rest Hraw Hs.
  - rewrite append_empty_r.
    change (EmptyString +:+ String dquote rest) with (String dquote rest).
    rewrite scan_cons. cbn [next]. rewrite Ascii.eqb_refl, (unquote_plain raw Hraw).
    reflexivity.
  - rewrite append_cons, scan_cons. cbn [next].
    pose proof Hs as Hs'. cbn [plain] in Hs'. apply andb_prop in Hs' as [Hc Hs'].
    pose proof Hc as Hc'. unfold plainByte in Hc'.
    apply andb_prop in Hc' as [Hc' Hback]. apply andb_prop in Hc' as [Hc' Hquote].
    apply andb_prop in Hc' as [Hlow Hhigh].
    apply negb_true_iff in Hback, Hquote.
    rewrite Hquote, Hback.
    assert (Hctl : (code c <? 32) = false) by lia. rewrite Hctl.
    cbn [resume]. unfold snoc. rewrite IH.
    + now rewrite append_assoc.
    + rewrite plain_app, Hraw. cbn [plain str1]. now rewrite Hc.
    + exact Hs'.
Qed.

Lemma scan_quoted_value (s : string) (stk : list parseState) (rest : string) :
  plain s = true -> expectsValue stk ->
  scan stateBeginValue stk (quoted s +:+ rest)
  = scan stateEndValue (filed (VString s) stk) rest.
Proof.
  intros Hs Hstk. unfold quoted. rewrite append_cons, append_assoc.
  change (str1 dquote +:+ rest) with (String dquote rest).
  rewrite scan_cons.
  change (next stateBeginValue stk dquote)
    with (scanContinue (stateInString EmptyString) stk).
  cbn [resume].
  rewrite (scan_inString_any s EmptyString stk rest eq_refl Hs).
  now rewrite (endValue_filed _ _ _ Hstk).
Qed.

Lemma scan_quoted_key (k : string) (ms : members) (stk : list parseState)
    (rest : string) :
  plain k = true ->
  scan stateBeginString (parseObjectKey ms None :: stk) (quoted k +:+ rest)
  = scan stateEndValue (parseObjectKey ms (Some k) :: stk) rest.
Proof.
  intros Hk. unfold quoted. rewrite append_cons, append_assoc.
  change (str1 dquote +:+ rest) with (String dquote rest).
  rewrite scan_cons.
  change (next stateBeginString (parseObjectKey ms None :: stk) dquote)
    with (scanContinue (stateInString EmptyString) (parseObjectKey ms None :: stk)).
  cbn [resume].
  now rewrite (scan_inString_any k EmptyString _ rest eq_refl Hk).
Qed.

(** *** Numbers *)

Lemma next_separator_ends_number (lit : string) (stk : list parseState) (c : ascii) :
  isSeparator c = true -> expectsValue stk ->
  next (state1 lit) stk c = next stateEndValue (filed (VNumber lit) stk) c /\
  next (state0 lit) stk c = next stateEndValue (filed (VNumber lit) stk) c.
Proof.
  intros Hc Hstk.
  assert (Hend : endThen (VNumber lit) stk c
                 = stepEndValue (filed (VNumber lit) stk) c).
  { unfold endThen. now rewrite (endValue_filed _ _ _ Hstk). }
  apply isSeparator_cases in Hc as [-> | [-> | ->]]; split; exact Hend.
Qed.

Lemma scan_digits (ds : string) :
  forall lit stk c rest,
    allDigits ds = true -> isSeparator c = true -> expectsValue stk ->
    scan (state1 lit) stk (ds +:+ String c rest)
    = scan stateEndValue (filed (VNumber (lit +:+ ds)) stk) (String c rest).
Proof.
  induction ds as [|d ds IH]; intros lit stk c rest Hds Hc Hstk.
  - rewrite append_empty_r.
    change (EmptyString +:+ String c rest) with (String c rest).
    rewrite !scan_cons.
    now rewrite (proj1 (next_separator_ends_number lit stk c Hc Hstk)).
  - cbn [allDigits] in Hds. apply andb_prop in Hds as [Hd Hds].
    rewrite append_cons, scan_cons. cbn [next]. rewrite Hd. cbn [resume].
    unfold snoc. rewrite (IH _ _ _ _ Hds Hc Hstk). now rewrite append_assoc.
Qed.

Lemma next_digit19 (d : ascii) (stk : list parseState) :
  isDigit19 d = true ->
  next stateBeginValue stk d = scanContinue (state1 (str1 d)) stk.
Proof.
  destruct d as [b0 b1 b2 b3 b4 b5 b6 b7];
    destruct b0, b1, b2, b3, b4, b5, b6, b7; try discriminate; reflexivity.
Qed.

Lemma scan_natural (lit : string) (stk : list parseState) (c : ascii) (rest : string) :
  naturalLiteral lit = true -> isSeparator c = true -> expectsValue stk ->
  scan stateBeginValue stk (lit +:+ String c rest)
  = scan stateEndValue (filed (VNumber lit) stk) (String c rest).
Proof.
  intros Hlit Hc Hstk. destruct lit as [|d ds]; [discriminate|].
  cbn [naturalLiteral] in Hlit. rewrite append_cons, scan_cons.
  destruct (Ascii.eqb d "0"%char) eqn:Hzero.
  - apply Ascii.eqb_eq in Hzero. subst d. destruct ds; [|discriminate].
    change (next stateBeginValue stk "0"%char) with (scanContinue (state0 "0") stk).
    cbn [resume]. change (EmptyString +:+ String c rest) with (String c rest).
    rewrite !scan_cons.
    now rewrite (proj2 (next_separator_ends_number "0" stk c Hc Hstk)).
  - apply andb_prop in Hlit as [Hd Hds].
    rewrite (next_digit19 d stk Hd). cbn [resume].
    exact (scan_digits ds (str1 d) stk c rest Hds Hc Hstk).
Qed.

(** *** Values *)

Lemma print_head (v : Value) :
  printable v = true ->
  exists c tail,
    print v = String c tail /\ isSpace c = false /\
    Ascii.eqb c "]"%char = false.
Proof.
  destruct v as [|[|]|lit|s|es|ms]; cbn [print printable]; intros Hv;
    try (eexists _, _; repeat split; reflexivity).
  destruct lit as [|d ds]; [discriminate|]. exists d, ds.
  split; [reflexivity|]. cbn [naturalLiteral] in Hv.
  destruct (Ascii.eqb d "0"%char) eqn:Hzero.
  - apply Ascii.eqb_eq in Hzero. subst d. split; reflexivity.
  - apply andb_prop in Hv as [Hd _]. revert Hd.
    destruct d as [b0 b1 b2 b3 b4 b5 b6 b7];
      destruct b0, b1, b2, b3, b4, b5, b6, b7; try discriminate; split; reflexivity.
Qed.

Lemma scan_orEmpty (v : Value) (stk : list parseState) (rest : string) :
  printable v = true ->
  scan stateBeginValueOrEmpty stk (print v +:+ rest)
  = scan stateBeginValue stk (print v +:+ rest).
Proof.
  intros Hv. destruct (print_head v Hv) as (c & tail & -> & Hspace & Hclose).
  rewrite append_cons, !scan_cons. cbn [next]. now rewrite Hspace, Hclose.
Qed.

Lemma scan_open (stk : list parseState) (rest : string) :
  Z.of_nat (length stk) < maxNestingDepth ->
  scan stateBeginValue stk (String "["%char rest)
  = scan stateBeginValueOrEmpty (parseArrayValue [] :: stk) rest /\
  scan stateBeginValue stk (String "{"%char rest)
  = scan stateBeginStringOrEmpty (parseObjectKey [] None :: stk) rest.
Proof.
  intros Hdepth. unfold maxNestingDepth in Hdepth.
  assert (Hpush : forall p, (Z.of_nat (length (p :: stk)) <=? maxNestingDepth) = true).
  { intros p. apply Z.leb_le. unfold maxNestingDepth. cbn [length]. lia. }
  split; rewrite scan_cons; cbn [next]; unfold stepBeginValue, pushParseState;
    rewrite !Hpush; reflexivity.
Qed.

(** The elements of an array after the first bracket or a comma. *)
Lemma scan_elements_any (stk : list parseState) (rest : string) (es : list Value) :
  forall e acc,
    Forall readsBack (e :: es) -> forallb printable (e :: es) = true ->
    Z.of_nat (S (length stk) + list_max (map depth (e :: es))) < maxNestingDepth ->
    scan stateBeginValue (parseArrayValue acc :: stk)
      (commas (map print (e :: es)) +:+ String "]"%char rest)
    = resume (endValue (VArray (rev acc ++ e :: es)) stk true) "]"%char rest.
Proof.
  induction es as [|e' es IH]; intros e acc Hreads Hprintable Hdepth;
    apply Forall_cons_1 in Hreads as [He Hreads];
    cbn [forallb] in Hprintable; apply andb_prop in Hprintable as [Hpe Hprintable].
  - cbn [map commas].
    rewrite (He Hpe (parseArrayValue acc :: stk) "]"%char rest I)
      by (unfold maxNestingDepth in *; cbn [map list_max fold_right length] in Hdepth |- *;
          first [lia | reflexivity]).
    rewrite scan_cons. cbn [filed next]. unfold stepEndValue.
    change (isSpace "]"%char) with false. cbv iota.
    change (Ascii.eqb "]" ",") with false. rewrite Ascii.eqb_refl. cbv iota.
    cbn [rev]. reflexivity.
  - change (commas (map print (e :: e' :: es)))
      with (print e +:+ String ","%char (commas (map print (e' :: es)))).
    rewrite append_assoc, append_cons.
    rewrite (He Hpe (parseArrayValue acc :: stk) ","%char _ I)
      by (unfold maxNestingDepth in *; cbn [map list_max fold_right length] in Hdepth |- *;
          first [lia | reflexivity]).
    rewrite scan_cons. cbn [filed next]. unfold stepEndValue.
    change (isSpace ","%char) with false. cbv iota.
    rewrite Ascii.eqb_refl. cbv iota. cbn [resume].
    rewrite (IH e' (e :: acc) Hreads Hprintable)
      by (unfold maxNestingDepth in *; cbn [map list_max fold_right length] in Hdepth |- *; lia).
    cbn [rev]. now rewrite <- app_assoc.
Qed.

(** The members of an object after the first brace or a comma. *)
Lemma scan_members_any (stk : list parseState) (rest : string) (ms : members) :
  forall m acc,
    Forall (fun m => readsBack (snd m)) (m :: ms) ->
    forallb (fun m => plain (fst m) && printable (snd m)) (m :: ms) = true ->
    Z.of_nat (S (length stk) + list_max (map (fun m => depth (snd m)) (m :: ms))) < maxNestingDepth ->
    scan stateBeginString (parseObjectKey acc None :: stk)
      (commas (map (fun m => quoted (fst m) +:+ String ":"%char (print (snd m)))
                 (m :: ms))
       +:+ String "}"%char rest)
    = resume (endValue (VObject (rev acc ++ m :: ms)) stk true) "}"%char rest.
Proof.
  induction ms as [|m' ms IH]; intros [k v] acc Hreads Hprintable Hdepth;
    apply Forall_cons_1 in Hreads as [Hv Hreads]; cbn [snd] in Hv;
    cbn [forallb fst snd] in Hprintable;
    apply andb_prop in Hprintable as [Hkv Hprintable];
    apply andb_prop in Hkv as [Hk Hpv].
  - cbn [map commas fst snd]. rewrite append_assoc, append_cons.
    rewrite (scan_quoted_key k acc stk _ Hk), scan_cons.
    cbn [next]. unfold stepEndValue.
    change (isSpace ":"%char) with false. cbv iota. rewrite Ascii.eqb_refl.
    cbn [resume].
    rewrite (Hv Hpv (parseObjectValue acc (Some k) :: stk) "}"%char rest I)
      by (unfold maxNestingDepth in *; cbn [map list_max fold_right length snd] in Hdepth |- *;
          first [lia | reflexivity]).
    rewrite scan_cons. cbn [filed next]. unfold stepEndValue.
    change (isSpace "}"%char) with false. cbv iota.
    change (Ascii.eqb "}" ",") with false. rewrite Ascii.eqb_refl. cbv iota.
    cbn [rev]. reflexivity.
  - change (commas (map (fun m => quoted (fst m) +:+ String ":"%char (print (snd m)))
                      ((k, v) :: m' :: ms)))
      with ((quoted k +:+ String ":"%char (print v)) +:+
            String ","%char
              (commas (map (fun m => quoted (fst m) +:+ String ":"%char (print (snd m)))
                         (m' :: ms)))).
    rewrite !append_assoc, !append_cons.
    rewrite (scan_quoted_key k acc stk _ Hk), scan_cons.
    cbn [next]. unfold stepEndValue.
    change (isSpace ":"%char) with false. cbv iota. rewrite Ascii.eqb_refl.
    cbn [resume].
    rewrite (Hv Hpv (parseObjectValue acc (Some k) :: stk) ","%char _ I)
      by (unfold maxNestingDepth in *; cbn [map list_max fold_right length snd] in Hdepth |- *;
          first [lia | reflexivity]).
    rewrite scan_cons. cbn [filed next]. unfold stepEndValue.
    change (isSpace ","%char) with false. cbv iota.
    rewrite Ascii.eqb_refl. cbv iota. cbn [resume].
    rewrite (IH m' ((k, v) :: acc) Hreads Hprintable)
      by (unfold maxNestingDepth in *; cbn [map list_max fold_right length snd] in Hdepth |- *; lia).
    cbn [rev]. now rewrite <- app_assoc.
Qed.

(** An array or an object from its opening bracket, below any stack. *)
Lemma scan_array_any (es : list Value) (stk : list parseState) (rest : string) :
  Forall readsBack es -> forallb printable es = true ->
  Z.of_nat (length stk + depth (VArray es)) < maxNestingDepth ->
  scan stateBeginValue stk (print (VArray es) +:+ rest)
  = resume (endValue (VArray es) stk true) "]"%char rest.
Proof.
  intros Hreads Hprintable Hdepth. cbn [print depth] in Hdepth |- *.
  rewrite append_cons, append_assoc.
  change ("]" +:+ rest) with (String "]"%char rest).
  assert (Hstk : Z.of_nat (length stk) < maxNestingDepth) by lia.
  rewrite (proj1 (scan_open stk _ Hstk)).
  destruct es as [|e es]; [reflexivity|].
  assert (Hhead : exists tail, commas (map print (e :: es)) = print e +:+ tail).
  { destruct es; [exists EmptyString; cbn [map commas]; now rewrite append_empty_r|].
    eexists. reflexivity. }
  destruct Hhead as [tail Hhead].
  assert (Hinside : Z.of_nat (S (length stk) + list_max (map depth (e :: es)))
                    < maxNestingDepth) by lia.
  pose proof (scan_elements_any stk rest es e [] Hreads Hprintable Hinside) as Hscan.
  rewrite Hhead, append_assoc in Hscan |- *.
  cbn [forallb] in Hprintable. apply andb_prop in Hprintable as [Hpe _].
  rewrite (scan_orEmpty e _ _ Hpe). exact Hscan.
Qed.

Lemma scan_object_any (ms : members) (stk : list parseState) (rest : string) :
  Forall (fun m => readsBack (snd m)) ms ->
  forallb (fun m => plain (fst m) && printable (snd m)) ms = true ->
  Z.of_nat (length stk + depth (VObject ms)) < maxNestingDepth ->
  scan stateBeginValue stk (print (VObject ms) +:+ rest)
  = resume (endValue (VObject ms) stk true) "}"%char rest.
Proof.
  intros Hreads Hprintable Hdepth. cbn [print depth] in Hdepth |- *.
  rewrite append_cons, append_assoc.
  change ("}" +:+ rest) with (String "}"%char rest).
  assert (Hstk : Z.of_nat (length stk) < maxNestingDepth) by lia.
  rewrite (proj2 (scan_open stk _ Hstk)).
  destruct ms as [|[k v] ms]; [reflexivity|].
  assert (Hinside : Z.of_nat (S (length stk)
                              + list_max (map (fun m => depth (snd m)) ((k, v) :: ms)))
                    < maxNestingDepth) by lia.
  pose proof (scan_members_any stk rest ms (k, v) [] Hreads Hprintable Hinside)
    as Hscan.
  assert (Hhead : exists tail,
             commas (map (fun m => quoted (fst m) +:+ String ":"%char (print (snd m)))
                       ((k, v) :: ms))
             = String dquote tail).
  { destruct ms; eexists; reflexivity. }
  destruct Hhead as [tail Hhead]. rewrite Hhead, append_cons in Hscan |- *.
  rewrite scan_cons in Hscan |- *. exact Hscan.
Qed.

Lemma printable_readsBack (v : Value) : readsBack v.
Proof.
  induction v as [|b|lit|s|es IHes|ms IHms] using Value_nested_ind;
    intros Hv stk c rest Hstk Hdepth Hc.
  - destruct stk as [|[ms [k|]|ms [k|]|es0] stk]; try contradiction; reflexivity.
  - destruct stk as [|[ms [k|]|ms [k|]|es0] stk]; try contradiction;
      destruct b; reflexivity.
  - exact (scan_natural lit stk c rest Hv Hc Hstk).
  - exact (scan_quoted_value s stk _ Hv Hstk).
  - rewrite (scan_array_any es stk _ IHes Hv Hdepth).
    now rewrite (endValue_filed _ _ _ Hstk).
  - rewrite (scan_object_any ms stk _ IHms Hv Hdepth).
    now rewrite (endValue_filed _ _ _ Hstk).
Qed.

Lemma readsBack_all (es : list Value) : Forall readsBack es.
Proof. apply Forall_forall. intros e _. apply printable_readsBack. Qed.

(** At top level, the text of a printable array or object is read back as
    the value, and nothing after its closing bracket is looked at. *)
Lemma scan_print (v : Value) (rest : string) :
  printable v = true -> isContainer v = true -> Z.of_nat (depth v) < maxNestingDepth ->
  scan stateBeginValue [] (print v +:+ rest) = Found v rest.
Proof.
  intros Hv Hcontainer Hdepth. destruct v as [| | | |es|ms]; try discriminate.
  - rewrite (scan_array_any es [] rest (readsBack_all es) Hv Hdepth). reflexivity.
  - rewrite (scan_object_any ms [] rest); [reflexivity | | exact Hv | exact Hdepth].
    apply Forall_forall. intros m _. apply printable_readsBack.
Qed.

End Printed.

Section PrintedFixtures.

Import json handler.
Context {Tpl : template.Package PageData}.

Lemma depth_strings (ss : list string) : (depth (VArray (map VString ss)) <= 1)%nat.
Proof.
  cbn [depth]. apply le_n_S, list_max_le, List.Forall_forall.
  intros n Hn. apply in_map_iff in Hn as (v & <- & Hv).
  apply in_map_iff in Hv as (s & <- & _). reflexivity.
Qed.

Lemma depth_array {A} (enc : A -> Value) (k : nat) (xs : list A) :
  (forall x, depth (enc x) <= k)%nat -> (depth (VArray (map enc xs)) <= S k)%nat.
Proof.
  intros Henc. cbn [depth]. apply le_n_S, list_max_le, List.Forall_forall.
  intros n Hn. apply in_map_iff in Hn as (v & <- & Hv).
  apply in_map_iff in Hv as (x & <- & _). apply Henc.
Qed.

Lemma depth_fixtureValue (years : string) (d : PageData) (f : Fixture) :
  Z.of_nat (depth (fixtureValue years d f)) < maxNestingDepth.
Proof.
  assert (Hdepth : (depth (fixtureValue years d f) <= 3)%nat).
  { destruct f; cbn [fixtureValue].
    - cbn. lia.
    - apply depth_array. intros p. unfold Project_value.
      pose proof (depth_strings (Tags p)) as Htags. cbn [depth] in Htags |- *.
      cbn [map list_max fold_right snd depth]. lia.
    - apply (Nat.le_trans _ 2); [|lia]. apply depth_array. intros i. cbn. lia.
    - apply (Nat.le_trans _ 1); [|lia]. apply depth_strings.
    - apply depth_array. intros e. unfold Experience_value.
      pose proof (depth_strings (Experience_Description e)) as Hd.
      cbn [depth] in Hd |- *. cbn [map list_max fold_right snd depth]. lia. }
  unfold maxNestingDepth. lia.
Qed.

Lemma fixtureValue_container (years : string) (d : PageData) (f : Fixture) :
  isContainer (fixtureValue years d f) = true.
Proof. destruct f; reflexivity. Qed.

(** A file that holds the printed value of a fixture is read back as that
    value, whatever follows it and however the reading ends. *)
Lemma readValue_fixture (years : string) (d : PageData) (f : Fixture)
    (after : string) (fail : option error) :
  printable (fixtureValue years d f) = true ->
  readValue {| io.data := print (fixtureValue years d f) +:+ after;
               io.failure := fail |}
  = inl (fixtureValue years d f, after).
Proof.
  intros Hprintable. apply readValue_found. cbn [io.data].
  apply scan_print;
    [exact Hprintable | apply fixtureValue_container | apply depth_fixtureValue].
Qed.

(** X12.  [New] loads what the fixtures say.  When the templates parse and
    each fixture file holds the compact JSON text of its part of the page
    data [d] (strings that need no escaping, the years as a natural number),
    followed by anything at all, [New] returns the handler that holds
    exactly [d] and the parsed templates. *)
Theorem New_loads_the_printed_fixtures (fsys : fs.FS) (t : template.Template)
    (d : PageData) (years : string)
    (after : Fixture -> string) (fail : Fixture -> option error) :
  template.ParseFS fsys "templates/*.html" = inl t ->
  ParseInt years = Some (YearsOfExperience (PageData_About d)) ->
  (forall f, printable (fixtureValue years d f) = true) ->
  (forall f, fsys ("data/" +:+ fileName f)
             = inl {| io.data := print (fixtureValue years d f) +:+ after f;
                      io.failure := fail f |}) ->
  New fsys = (Some {| tmpl := t; pageData := d |}, None).
Proof.
  intros Htemplates Hyears Hprintable Hfiles.
  assert (Hload : forall f T (U : Unmarshaler T) (cur : T),
             @Decode T U {| io.data := print (fixtureValue years d f) +:+ after f;
                            io.failure := fail f |} cur
             = store (fixtureValue years d f) cur).
  { intros f T U cur. unfold Decode.
    now rewrite (readValue_fixture _ _ _ _ _ (Hprintable f)). }
  pose proof (Hfiles AboutFile) as Habout.
  pose proof (Hfiles ProjectsFile) as Hprojects.
  pose proof (Hfiles InterestsFile) as Hinterests.
  pose proof (Hfiles SkillsFile) as Hskills.
  pose proof (Hfiles ExperienceFile) as Hexperience.
  cbv [fileName String.append] in Habout, Hprojects, Hinterests, Hskills, Hexperience.
  unfold New, loadJSON.
  rewrite Htemplates, Habout, Hprojects, Hinterests, Hskills, Hexperience, !Hload.
  cbn [fixtureValue].
  destruct d as [a ps ins ss es]. cbn [PageData_About Projects Interests Skills
                                       PageData_Experience] in *.
  assert (Ha : store (About_value years a) zero = (a, None)).
  { destruct a. cbn in Hyears |- *. rewrite Hyears. reflexivity. }
  rewrite Ha. cbn [orReturn store slice_Unmarshaler].
  rewrite (array_exact Project_value id Project_exact), map_id. cbn [orReturn].
  rewrite (array_exact Interest_value id Interest_exact), map_id. cbn [orReturn].
  rewrite strings_exact. cbn [orReturn].
  rewrite (array_exact Experience_value id Experience_exact), map_id. reflexivity.
Qed.

End PrintedFixtures.

(** ** The contact form *)
Section Forms.

Import http main handler.
Context {Mime : mime.Package} {Tpl : template.Package PageData}.

Lemma parsePair_lookup (m : url.Values) (e : option error) (pair key : string) :
  default [] (fst (url.parsePair (m, e) pair) !! key)
  = default [] (m !! key) ++ match valueFor key pair with
                             | Some v => [v]
                             | None => []
                             end.
Proof.
  unfold url.parsePair, valueFor, decodePair.
  destruct (url.Contains ";"%char pair); [now rewrite app_nil_r|].
  destruct pair as [|c pair]; [now rewrite app_nil_r|].
  destruct (url.Cut "="%char (String c pair)) as [[k v] found].
  destruct (url.QueryUnescape k) as [k'|ek]; [|now rewrite app_nil_r].
  destruct (url.QueryUnescape v) as [v'|ev]; [|now rewrite app_nil_r].
  cbn [fst]. unfold url.Add.
  destruct (String.eqb k' key) eqn:Hk.
  - apply String.eqb_eq in Hk. subst k'. now rewrite lookup_insert_eq.
  - apply String.eqb_neq in Hk. rewrite lookup_insert_ne by exact Hk.
    now rewrite app_nil_r.
Qed.

Lemma fold_parsePair_lookup (segs : list string) (key : string) :
  forall m e,
    default [] (fst (fold_left url.parsePair segs (m, e)) !! key)
    = default [] (m !! key) ++ omap (valueFor key) segs.
Proof.
  induction segs as [|pair segs IH]; intros m e; cbn [fold_left].
  - now rewrite app_nil_r.
  - destruct (url.parsePair (m, e) pair) as [m' e'] eqn:Hpair.
    rewrite IH. change m' with (fst (m', e')). rewrite <- Hpair, parsePair_lookup.
    rewrite <- app_assoc. f_equal. cbn [omap list_omap].
    destruct (valueFor key pair); reflexivity.
Qed.

(** The values [ParseQuery] files under a key are the unescaped values of
    the pairs with that key, in the order of the query. *)
Lemma ParseQuery_lookup (query key : string) :
  default [] (fst (url.ParseQuery query) !! key) = valuesOf query key.
Proof.
  unfold url.ParseQuery, url.parseQuery, valuesOf.
  destruct query as [|c query]; [reflexivity|].
  rewrite fold_parsePair_lookup. now rewrite lookup_empty.
Qed.

Lemma copyValues_lookup (dst src : url.Values) (key : string) :
  default [] (copyValues dst src !! key)
  = default [] (dst !! key) ++ default [] (src !! key).
Proof.
  unfold copyValues. rewrite lookup_union_with.
  destruct (dst !! key) as [vs|], (src !! key) as [ws|]; cbn;
    now rewrite ?app_nil_r.
Qed.

Lemma FormValue_parsed (r : Request) (form : url.Values) (key : string) :
  Form r = Some form -> FormValue r key = hd EmptyString (default [] (form !! key)).
Proof.
  intros Hform. unfold FormValue. rewrite Hform.
  destruct (form !! key) as [[|v vs]|]; reflexivity.
Qed.

Lemma ParseForm_form_body (r r' : Request) :
  PostForm r = None -> Form r = None -> Method r = "POST" ->
  fst (mime.ParseMediaType (contentType r)) = formType ->
  ParseForm r = (r', None) ->
  Form r' = Some (copyValues (fst (url.ParseQuery (io.data (Body r))))
                    (fst (url.ParseQuery (url.RawQuery (URL r))))).
Proof.
  intros Hpost Hform Hmethod Hct.
  assert (Hm : String.eqb (Method r) "POST" || String.eqb (Method r) "PUT"
               || String.eqb (Method r) "PATCH" = true)
    by (rewrite Hmethod; reflexivity).
  unfold ParseForm, parsePostForm. rewrite Hpost, Hform, Hm.
  destruct (mime.ParseMediaType (contentType r)) as [ct merr]. cbn [fst] in Hct.
  subst ct. unfold formType. rewrite String.eqb_refl.
  destruct (maxFormSize <? Z.of_nat (String.length (io.data (Body r)))).
  { destruct (url.ParseQuery (url.RawQuery (URL r))) as [nv e]. discriminate. }
  destruct (io.readError (Body r)).
  { destruct (url.ParseQuery (url.RawQuery (URL r))) as [nv e'].
    destruct merr; discriminate. }
  destruct (url.ParseQuery (io.data (Body r))) as [vs e].
  destruct (url.ParseQuery (url.RawQuery (URL r))) as [nv e'].
  intros [= <- _]. reflexivity.
Qed.

(** X13.  The fields of a contact form.  For a request posted as
    [application/x-www-form-urlencoded] on which [ParseForm] succeeds, the
    value [Contact] reads for a field is the first value the body gives it,
    or else the first value the query string of the URL gives it, or else
    empty; values are unescaped and taken in the order of the pairs.  The
    line logged is made of these values for [name], [email] and
    [message]. *)
Theorem Contact_reads_first_value_body_first (h0 : Handler) (r r' : Request) :
  PostForm r = None -> Form r = None -> Method r = "POST" ->
  fst (mime.ParseMediaType (contentType r)) = formType ->
  ParseForm r = (r', None) ->
  (forall key, FormValue r' key = fieldValue r key) /\
  printed (Handler_Contact h0 r)
  = [submission (fieldValue r "name") (fieldValue r "email")
       (Z.of_nat (String.length (fieldValue r "message")))].
Proof.
  intros Hpost Hform Hmethod Hct Hparse.
  pose proof (ParseForm_form_body r r' Hpost Hform Hmethod Hct Hparse) as Hform'.
  assert (Hvalue : forall key, FormValue r' key = fieldValue r key).
  { intros key. rewrite (FormValue_parsed r' _ key Hform'). unfold fieldValue.
    now rewrite copyValues_lookup, !ParseQuery_lookup. }
  split; [exact Hvalue|].
  rewrite (Contact_calls_parsed h0 r r' Hparse). cbn [printed].
  now rewrite !Hvalue.
Qed.

(** *** Requests that are refused *)

Lemma ParseForm_body_error (r : Request) :
  PostForm r = None -> Method r = "POST" ->
  fst (mime.ParseMediaType (contentType r)) = formType ->
  maxFormSize < Z.of_nat (String.length (io.data (Body r))) \/
  io.readError (Body r) <> None \/
  snd (url.ParseQuery (io.data (Body r))) <> None ->
  snd (ParseForm r) <> None.
Proof.
  intros Hpost Hmethod Hct Hbody.
  assert (Hm : String.eqb (Method r) "POST" || String.eqb (Method r) "PUT"
               || String.eqb (Method r) "PATCH" = true)
    by (rewrite Hmethod; reflexivity).
  unfold ParseForm, parsePostForm. rewrite Hpost, Hm.
  destruct (mime.ParseMediaType (contentType r)) as [ct merr]. cbn [fst] in Hct.
  subst ct. unfold formType. rewrite String.eqb_refl.
  destruct (maxFormSize <? Z.of_nat (String.length (io.data (Body r)))) eqn:Hsize.
  { destruct (Form r); destruct (url.ParseQuery (url.RawQuery (URL r))) as [nv [?|]];
      cbn; discriminate. }
  apply Z.ltb_ge in Hsize.
  destruct (io.readError (Body r)) as [e|].
  { destruct (Form r); destruct (url.ParseQuery (url.RawQuery (URL r))) as [nv [?|]];
      destruct merr; cbn; discriminate. }
  destruct Hbody as [Hbody|[Hbody|Hbody]]; [lia | congruence |].
  destruct (url.ParseQuery (io.data (Body r))) as [vs [e|]]; [|now cbn in Hbody].
  destruct (Form r); destruct (url.ParseQuery (url.RawQuery (URL r))) as [nv [?|]];
    destruct merr; cbn; discriminate.
Qed.

Lemma ParseForm_query_error (r : Request) :
  Form r = None ->
  snd (url.ParseQuery (url.RawQuery (URL r))) <> None ->
  snd (ParseForm r) <> None.
Proof.
  intros Hform Hquery. unfold ParseForm. rewrite Hform.
  destruct (url.ParseQuery (url.RawQuery (URL r))) as [nv [e|]]; [|now cbn in Hquery].
  destruct (match PostForm r with
            | Some pf => (pf, None)
            | None =>
                let '(pf, err) :=
                  if String.eqb (Method r) "POST" || String.eqb (Method r) "PUT"
                     || String.eqb (Method r) "PATCH"
                  then parsePostForm r else (None, None) in
                (default ∅ pf, err)
            end) as [pf [e0|]]; cbn; discriminate.
Qed.

(** X14.  A semicolon is refused.  A request whose form body holds a
    semicolon anywhere, or whose URL has one in its query string, is
    answered with status 400 and [bad request].  [Contact] logs nothing;
    the log gets the access line of the middleware and, when the semicolon
    is in the query string, the warning of the server after it. *)
Theorem Contact_rejects_semicolons (s : Server) (r : Request) (t0 t1 : Z) :
  PostForm r = None -> Form r = None ->
  (Method r = "POST" /\
   fst (mime.ParseMediaType (contentType r)) = formType /\
   url.Contains ";"%char (io.data (Body r)) = true) \/
  url.Contains ";"%char (url.RawQuery (URL r)) = true ->
  exists w,
    serve s {| route := POST_contact; request := r; start := t0; finish := t1 |}
    = Some ({| h := h s;
               stdlog := stdlog s ++ accessLine r StatusBadRequest t0 t1
                         :: if url.Contains ";"%char (url.RawQuery (URL r))
                            then [semicolonWarning] else [] |}, w) /\
    http.status w = StatusBadRequest /\
    body w = "bad request" +:+ str1 (byte 10).
Proof.
  intros Hpost Hform Hsemi.
  destruct (Contact_serve_refused s r t0 t1) as (w & Hserve & Hstatus & Hbody & _).
  - destruct Hsemi as [(Hmethod & Hct & Hsemi)|Hsemi].
    + apply ParseForm_body_error; auto. right. right.
      now rewrite (ParseQuery_semicolon _ Hsemi).
    + apply ParseForm_query_error; auto.
      now rewrite (ParseQuery_semicolon _ Hsemi).
  - exists w. split; [exact Hserve|]. split; assumption.
Qed.

(** X15.  A form body of more than 10 MiB, or one whose reading ends in an
    error other than [io.EOF], is answered with status 400 and
    [bad request].  [Contact] logs nothing; the log gets the access line of
    the middleware and, when the query string holds a semicolon, the
    warning of the server after it. *)
Theorem Contact_rejects_oversized_or_unreadable_body
    (s : Server) (r : Request) (t0 t1 : Z) :
  PostForm r = None -> Method r = "POST" ->
  fst (mime.ParseMediaType (contentType r)) = formType ->
  maxFormSize < Z.of_nat (String.length (io.data (Body r))) \/
  (exists e, io.failure (Body r) = Some e /\ e <> EOF) ->
  exists w,
    serve s {| route := POST_contact; request := r; start := t0; finish := t1 |}
    = Some ({| h := h s;
               stdlog := stdlog s ++ accessLine r StatusBadRequest t0 t1
                         :: if url.Contains ";"%char (url.RawQuery (URL r))
                            then [semicolonWarning] else [] |}, w) /\
    http.status w = StatusBadRequest /\
    body w = "bad request" +:+ str1 (byte 10).
Proof.
  intros Hpost Hmethod Hct Hbody.
  destruct (Contact_serve_refused s r t0 t1) as (w & Hserve & Hstatus & Hbody' & _).
  - apply ParseForm_body_error; auto.
    destruct Hbody as [Hsize|(e & Hfail & He)]; [now left|].
    right. left. unfold io.readError. rewrite Hfail. destruct e; congruence.
  - exists w. split; [exact Hserve|]. split; assumption.
Qed.

End Forms.

(** ** The contact form, end to end *)
Section Submission.

Import http main handler.
Context {Mime : mime.Package} {Tpl : template.Package PageData}.

Lemma QueryUnescape_escapeByte (c : ascii) (rest : string) :
  url.QueryUnescape (escapeByte c +:+ rest)
  = match url.QueryUnescape rest with
    | inl t => inl (String c t)
    | inr e => inr e
    end.
Proof.
  destruct c as [b0 b1 b2 b3 b4 b5 b6 b7];
    destruct b0, b1, b2, b3, b4, b5, b6, b7; reflexivity.
Qed.

(** [QueryUnescape] undoes [QueryEscape], whatever the bytes. *)
Lemma QueryUnescape_QueryEscape (s : string) :
  url.QueryUnescape (QueryEscape s) = inl s.
Proof.
  induction s as [|c s IH]; [reflexivity|].
  cbn [QueryEscape]. now rewrite QueryUnescape_escapeByte, IH.
Qed.

Lemma Contains_app (c : ascii) (a b : string) :
  url.Contains c (a +:+ b) = url.Contains c a || url.Contains c b.
Proof.
  induction a as [|x a IH]; [reflexivity|].
  rewrite append_cons. cbn [url.Contains]. now rewrite IH, orb_assoc.
Qed.

Lemma escapeByte_separators (c : ascii) :
  url.Contains "&"%char (escapeByte c) = false /\
  url.Contains "="%char (escapeByte c) = false /\
  url.Contains ";"%char (escapeByte c) = false.
Proof.
  destruct c as [b0 b1 b2 b3 b4 b5 b6 b7];
    destruct b0, b1, b2, b3, b4, b5, b6, b7; repeat split; reflexivity.
Qed.

(** An escaped value holds none of the separators of a query. *)
Lemma QueryEscape_separators (s : string) :
  url.Contains "&"%char (QueryEscape s) = false /\
  url.Contains "="%char (QueryEscape s) = false /\
  url.Contains ";"%char (QueryEscape s) = false.
Proof.
  induction s as [|c s (Hamp & Heq & Hsemi)]; [repeat split; reflexivity|].
  destruct (escapeByte_separators c) as (Hamp' & Heq' & Hsemi').
  cbn [QueryEscape]. rewrite !Contains_app, Hamp, Heq, Hsemi, Hamp', Heq', Hsemi'.
  repeat split; reflexivity.
Qed.

Lemma segments_single (sep : ascii) (a : string) :
  url.Contains sep a = false -> url.segments sep a = [a].
Proof.
  induction a as [|x a IH]; [reflexivity|].
  cbn [url.Contains url.segments]. intros [Hx Ha]%orb_false_elim.
  now rewrite (IH Ha), Hx.
Qed.

Lemma segments_app (sep : ascii) (a b : string) :
  url.Contains sep a = false ->
  url.segments sep (a +:+ String sep b) = a :: url.segments sep b.
Proof.
  induction a as [|x a IH].
  - intros _. change (EmptyString +:+ String sep b) with (String sep b).
    cbn [url.segments]. destruct (segments_cons sep b) as (seg & segs & ->).
    now rewrite Ascii.eqb_refl.
  - rewrite append_cons. cbn [url.Contains url.segments].
    intros [Hx Ha]%orb_false_elim. now rewrite (IH Ha), Hx.
Qed.

Lemma Cut_app (sep : ascii) (a b : string) :
  url.Contains sep a = false ->
  url.Cut sep (a +:+ String sep b) = (a, b, true).
Proof.
  induction a as [|x a IH].
  - intros _. change (EmptyString +:+ String sep b) with (String sep b).
    cbn [url.Cut]. now rewrite Ascii.eqb_refl.
  - rewrite append_cons. cbn [url.Contains url.Cut].
    intros [Hx Ha]%orb_false_elim. now rewrite (IH Ha), Hx.
Qed.

(** The pair [key=value] of a field whose value is escaped. *)
Lemma decodePair_escaped (key value : string) :
  key <> EmptyString ->
  url.Contains ";"%char key = false -> url.Contains "="%char key = false ->
  url.QueryUnescape key = inl key ->
  decodePair (key +:+ String "="%char (QueryEscape value)) = Some (key, value).
Proof.
  intros Hkey Hsemi Heq Hunescape. unfold decodePair.
  destruct (QueryEscape_separators value) as (_ & _ & Hsemi').
  rewrite Contains_app. cbn [url.Contains]. rewrite Hsemi, Hsemi'. cbn [orb Ascii.eqb].
  change (Ascii.eqb "=" ";") with false. cbn [orb].
  rewrite (Cut_app _ _ _ Heq), Hunescape, QueryUnescape_QueryEscape.
  destruct key; [contradiction | reflexivity].
Qed.

Lemma parsePair_decoded (m : url.Values) (e : option error) (pair k v : string) :
  decodePair pair = Some (k, v) ->
  url.parsePair (m, e) pair = (url.Add m k v, e).
Proof.
  unfold decodePair, url.parsePair.
  destruct (url.Contains ";"%char pair); [discriminate|].
  destruct pair as [|c pair]; [discriminate|].
  destruct (url.Cut "="%char (String c pair)) as [[k0 v0] found].
  destruct (url.QueryUnescape k0) as [k'|ek]; [|discriminate].
  destruct (url.QueryUnescape v0) as [v'|ev]; [|discriminate].
  now intros [= -> ->].
Qed.

Lemma formBody_segments (name email message : string) :
  url.segments "&"%char (formBody name email message)
  = [ "name" +:+ String "="%char (QueryEscape name);
      "email" +:+ String "="%char (QueryEscape email);
      "message" +:+ String "="%char (QueryEscape message) ].
Proof.
  destruct (QueryEscape_separators name) as (Hn & _ & _).
  destruct (QueryEscape_separators email) as (He & _ & _).
  destruct (QueryEscape_separators message) as (Hm & _ & _).
  unfold formBody.
  change ("name=" +:+ QueryEscape name +:+ "&email=" +:+ QueryEscape email
          +:+ "&message=" +:+ QueryEscape message)
    with (("name=" +:+ QueryEscape name) +:+
          String "&"%char (("email=" +:+ QueryEscape email) +:+
                           String "&"%char ("message=" +:+ QueryEscape message))).
  rewrite segments_app by (rewrite Contains_app, Hn; reflexivity).
  rewrite segments_app by (rewrite Contains_app, He; reflexivity).
  rewrite segments_single by (rewrite Contains_app, Hm; reflexivity).
  reflexivity.
Qed.

Lemma formBody_pairs (name email message : string) :
  decodePair ("name" +:+ String "="%char (QueryEscape name)) = Some ("name", name) /\
  decodePair ("email" +:+ String "="%char (QueryEscape email)) = Some ("email", email) /\
  decodePair ("message" +:+ String "="%char (QueryEscape message))
  = Some ("message", message).
Proof.
  repeat split; apply decodePair_escaped; first [discriminate | reflexivity].
Qed.

Lemma formBody_parses (name email message : string) :
  snd (url.ParseQuery (formBody name email message)) = None.
Proof.
  destruct (formBody_pairs name email message) as (Hn & He & Hm).
  unfold url.ParseQuery, url.parseQuery. rewrite formBody_segments.
  cbn [fold_left].
  rewrite (parsePair_decoded _ _ _ _ _ Hn), (parsePair_decoded _ _ _ _ _ He),
    (parsePair_decoded _ _ _ _ _ Hm).
  now destruct (formBody name email message).
Qed.

Lemma formBody_values (name email message : string) :
  valuesOf (formBody name email message) "name" = [name] /\
  valuesOf (formBody name email message) "email" = [email] /\
  valuesOf (formBody name email message) "message" = [message].
Proof.
  destruct (formBody_pairs name email message) as (Hn & He & Hm).
  unfold valuesOf. rewrite formBody_segments. unfold valueFor.
  cbn [omap list_omap]. rewrite Hn, He, Hm. repeat split; reflexivity.
Qed.

(** A parsed form is answered with the success fragment. *)
(** X16.  The contact form, end to end.  For any name, email and message,
    of any bytes, submitted as a form with its values escaped as
    [url.QueryEscape] escapes them, [Contact] logs exactly that name, that
    email and the length in bytes of that message, and answers with status
    200 and the success fragment.  ([mime.ParseMediaType] is assumed to
    accept the media type of forms, and the body to be within the 10 MiB
    limit.) *)
Theorem Contact_logs_the_submitted_fields (s : Server)
    (name email message : string) (t0 t1 : Z) :
  mime.ParseMediaType formType = (formType, None) ->
  Z.of_nat (String.length (formBody name email message)) <= maxFormSize ->
  exists w,
    serve s {| route := POST_contact; request := submit name email message;
               start := t0; finish := t1 |}
    = Some ({| h := h s;
               stdlog := stdlog s ++
                 [submission name email (Z.of_nat (String.length message));
                  accessLine (submit name email message) StatusOK t0 t1] |}, w) /\
    http.status w = StatusOK /\ body w = successFragment.
Proof.
  intros Hmime Hsize.
  assert (Hct : mime.ParseMediaType (contentType (submit name email message))
                = (formType, None)) by exact Hmime.
  destruct (ParseForm (submit name email message)) as [r' err] eqn:Hparse.
  assert (Herr : err = None).
  { revert Hparse. unfold ParseForm, parsePostForm.
    cbn [PostForm Form Method submit sample.post].
    change (mime.ParseMediaType (contentType (sample.post (formBody name email message))))
      with (mime.ParseMediaType (contentType (submit name email message))).
    rewrite Hct. unfold formType at 1. cbn [String.eqb Ascii.eqb Bool.eqb orb].
    change (io.data (Body (submit name email message)))
      with (formBody name email message).
    change (io.readError (Body (submit name email message))) with (@None error).
    change (url.RawQuery (URL (submit name email message))) with EmptyString.
    apply Z.ltb_ge in Hsize. rewrite Hsize.
    pose proof (formBody_parses name email message) as Hbody.
    destruct (url.ParseQuery (formBody name email message)) as [vs e].
    cbn [snd] in Hbody. subst e. cbn. now intros [= _ <-]. }
  subst err.
  destruct (Contact_serve_parsed s _ r' t0 t1 Hparse)
    as (w & Hserve & Hstatus & Hbody & _).
  exists w. split; [|split; assumption].
  rewrite Hserve. do 3 f_equal.
  rewrite (Contact_calls_parsed (h s) _ r' Hparse). cbn [printed app].
  change (queryWarning (submit name email message)) with (@nil log.Line).
  assert (Hvalue : forall key,
             FormValue r' key = fieldValue (submit name email message) key).
  { intros key.
    rewrite (FormValue_parsed r' _ key
               (ParseForm_form_body (submit name email message) r'
                  eq_refl eq_refl eq_refl (f_equal fst Hct) Hparse)).
    unfold fieldValue. now rewrite copyValues_lookup, !ParseQuery_lookup. }
  destruct (formBody_values name email message) as (Hn & He & Hm).
  rewrite !Hvalue. unfold fieldValue. cbn [submit sample.post Body io.data URL url.RawQuery].
  rewrite Hn, He, Hm. reflexivity.
Qed.

End Submission.

(** ** Serving *)
Section ServingMore.

Import http main handler.
Context {Mime : mime.Package} {Tpl : template.Package PageData}.

(** X17.  The rendering routes set no header of their own.  The reply to a
    page that renders goes out with no header set by the handler (its
    content type is left to the server), and so does the reply to a page
    whose template fails after it has written: the headers of [http.Error],
    plain text and [nosniff], reach the client only when the template fails
    before it has written anything. *)
Theorem render_reply_headers (s : Server) (x : Exchange) name out err :
  templateOf (route x) = Some name ->
  template.ExecuteTemplate (tmpl (h s)) name (pageData (h s)) = (out, err) ->
  exists s' w,
    serve s x = Some (s', w) /\
    sent w = match out, err with
             | [], Some _ => errorHeader ∅
             | _, _ => ∅
             end.
Proof.
  intros Hroute Hexec.
  pose proof (f_equal calls (method_render (h s) (route x) name (request x) Hroute))
    as Hcalls.
  unfold execute in Hcalls. rewrite Hexec in Hcalls. cbn [calls] in Hcalls.
  rewrite serve_unfold, Hcalls, run_app. cbv zeta.
  destruct out as [|p out].
  - cbn [map run]. destruct err as [e|].
    + cbn [run call].
      destruct (run_Error_first "internal server error" StatusInternalServerError
                  newResponse (stdlog s ++ [log.Printf "template %q error: %v"
                                              [log.ArgString name; log.ArgError e]]))
        as (w & Hrun & Hw & _ & _ & Hsent); try reflexivity.
      rewrite Hrun. rewrite finishRequest_settled by exact Hw. cbn [fst snd].
      eexists _, w. split; [reflexivity | exact Hsent].
    + cbn [run]. unfold finishRequest. cbn [wroteHeader newResponse].
      rewrite response_WriteHeader_plain by first [reflexivity | apply lookup_empty].
      eexists _, _. split; reflexivity.
  - destruct (run_writes_fresh p out (stdlog s)) as (w1 & -> & Hw1 & _ & Hsent1 & _).
    destruct err as [e|].
    + cbn [run call].
      destruct (run_Error_streaming "internal server error" StatusInternalServerError
                  w1 (stdlog s ++ [log.Printf "template %q error: %v"
                                     [log.ArgString name; log.ArgError e]]) Hw1)
        as (w & Hrun & Hw & _ & Hsent).
      rewrite Hrun. rewrite finishRequest_settled by apply Hw. cbn [fst snd].
      eexists _, w. split; [reflexivity | congruence].
    + cbn [run]. rewrite finishRequest_settled by apply Hw1. cbn [fst snd].
      eexists _, w1. split; [reflexivity | exact Hsent1].
Qed.

(** *** The log over many requests *)

Lemma response_WriteHeader_log code (w w' : response) (l l' : log.Logger) :
  response_WriteHeader code w l = Some (w', l') ->
  exists added, l' = l ++ added /\ List.filter isAccessLine added = [].
Proof.
  unfold response_WriteHeader.
  destruct (wroteHeader w); [intros [= _ <-]; exists [superfluous]; auto|].
  destruct ((code <? 100) || (999 <? code)); [discriminate|].
  destruct ((100 <=? code) && (code <=? 199) && negb (code =? StatusSwitchingProtocols)).
  { intros [= _ <-]. exists []. now rewrite app_nil_r. }
  cbv zeta. destruct (Get (handlerHeader w) "Content-Length") as [|c cl].
  { intros [= _ <-]. exists []. now rewrite app_nil_r. }
  destruct (match json.ParseInt (String c cl) with
            | Some v => if 0 <=? v then Some v else None
            | None => None
            end).
  - intros [= _ <-]. exists []. now rewrite app_nil_r.
  - intros [= _ <-]. eexists. split; reflexivity.
Qed.

Lemma implicit_WriteHeader_log (w : response) (l : log.Logger) :
  exists added,
    snd (if wroteHeader w then (w, l)
         else match response_WriteHeader StatusOK w l with
              | Some st => st
              | None => (w, l)
              end) = l ++ added /\
    List.filter isAccessLine added = [].
Proof.
  destruct (wroteHeader w); [exists []; now rewrite app_nil_r|].
  destruct (response_WriteHeader StatusOK w l) as [[w' l']|] eqn:Hwh.
  - exact (response_WriteHeader_log _ _ _ _ _ Hwh).
  - exists []. now rewrite app_nil_r.
Qed.

Lemma response_Write_log p (w : response) (l : log.Logger) :
  exists added,
    snd (response_Write p w l) = l ++ added /\ List.filter isAccessLine added = [].
Proof.
  unfold response_Write.
  destruct (implicit_WriteHeader_log w l) as (added & Hadded & Hnone).
  destruct (if wroteHeader w then (w, l)
            else match response_WriteHeader StatusOK w l with
                 | Some st => st
                 | None => (w, l)
                 end) as [w1 l1].
  cbn [snd] in Hadded. subst l1. exists added. split; [|exact Hnone].
  destruct (Z.of_nat (String.length p) =? 0); [reflexivity|].
  destruct (negb (bodyAllowedForStatus (http.status w1))); reflexivity.
Qed.

Lemma finishRequest_log (w : response) (l : log.Logger) :
  exists added,
    snd (finishRequest (w, l)) = l ++ added /\ List.filter isAccessLine added = [].
Proof. exact (implicit_WriteHeader_log w l). Qed.

Lemma filter_app_nil {A} (p : A -> bool) (a b : list A) :
  List.filter p a = [] -> List.filter p b = [] -> List.filter p (a ++ b) = [].
Proof. intros Ha Hb. now rewrite List.filter_app, Ha, Hb. Qed.

(** What a handler that prints no such line adds to the log holds no access
    line. *)
Lemma run_log (calls : list Call) :
  forallb printsNoAccessLine calls = true ->
  forall (w w' : response) (l l' : log.Logger),
    run calls (w, l) = Some (w', l') ->
    exists added, l' = l ++ added /\ List.filter isAccessLine added = [].
Proof.
  induction calls as [|c calls IH]; intros Hcalls w w' l l'; cbn [run].
  - intros [= _ <-]. exists []. now rewrite app_nil_r.
  - cbn [forallb] in Hcalls. apply andb_prop in Hcalls as [Hc Hcalls].
    assert (Hstep : forall w1 l1 added1,
               l1 = l ++ added1 -> List.filter isAccessLine added1 = [] ->
               run calls (w1, l1) = Some (w', l') ->
               exists added, l' = l ++ added /\ List.filter isAccessLine added = []).
    { intros w1 l1 added1 -> Hnone Hrun.
      destruct (IH Hcalls _ _ _ _ Hrun) as (added2 & -> & Hnone2).
      exists (added1 ++ added2). rewrite app_assoc.
      split; [reflexivity | now apply filter_app_nil]. }
    destruct c as [key|key value|code|p|format args]; cbn [call].
    + apply (Hstep _ _ []); [now rewrite app_nil_r | reflexivity].
    + apply (Hstep _ _ []); [now rewrite app_nil_r | reflexivity].
    + cbn [writeHeader response_ResponseWriter].
      destruct (response_WriteHeader code w l) as [[w1 l1]|] eqn:Hwh; [|discriminate].
      destruct (response_WriteHeader_log _ _ _ _ _ Hwh) as (added1 & -> & Hnone).
      now apply (Hstep _ _ added1).
    + cbn [write response_ResponseWriter].
      destruct (response_Write_log p w l) as (added1 & Hadded & Hnone).
      destruct (response_Write p w l) as [w1 l1]. cbn [snd] in Hadded.
      now apply (Hstep _ _ added1).
    + apply (Hstep _ _ [log.Printf format args]); [reflexivity|].
      cbn [printsNoAccessLine] in Hc. cbn [List.filter isAccessLine log.format].
      unfold isAccessLine. cbn [log.format].
      now destruct (String.eqb format "%s %s %d %s").
Qed.

Lemma method_printsNoAccessLine (h0 : Handler) route0 r :
  forallb printsNoAccessLine (method h0 route0 r) = true.
Proof.
  assert (Hexec : forall name,
             forallb printsNoAccessLine (execute h0 name (pageData h0)) = true).
  { intros name. unfold execute.
    destruct (template.ExecuteTemplate (tmpl h0) name (pageData h0)) as [out err].
    cbn [calls]. rewrite forallb_app. apply andb_true_intro. split.
    - induction out as [|p out IH]; [reflexivity | exact IH].
    - destruct err; reflexivity. }
  destruct route0; cbn [method]; try apply Hexec.
  - unfold Handler_Contact. destruct (ParseForm r) as [r' [err|]]; reflexivity.
  - reflexivity.
Qed.

(** Serving one request adds lines to the log of which exactly one is an
    access line, that of the request. *)
Lemma serve_log (s : Server) (x : Exchange) :
  exists s' w code added,
    serve s x = Some (s', w) /\ h s' = h s /\
    stdlog s' = stdlog s ++ added /\
    List.filter isAccessLine added
    = [accessLine (request x) code (start x) (finish x)].
Proof.
  rewrite serve_unfold.
  destruct (run_total (method (h s) (route x) (request x))
              (method_codes (h s) (route x) (request x)) newResponse (stdlog s))
    as (w & l & Hrun).
  rewrite Hrun. cbv zeta.
  destruct (run_log _ (method_printsNoAccessLine (h s) (route x) (request x))
              _ _ _ _ Hrun) as (added1 & -> & Hnone1).
  match goal with |- context [finishRequest (?w0, ?l0)] =>
    destruct (finishRequest_log w0 l0) as (added2 & Hadded2 & Hnone2) end.
  assert (Hnone3 : List.filter isAccessLine (queryWarning (request x)) = [])
    by (unfold queryWarning; now destruct (url.Contains _ _)).
  eexists _, _, _, (added1 ++ ([_] ++ queryWarning (request x)) ++ added2).
  split; [reflexivity|]. split; [reflexivity|]. cbn [stdlog].
  split; [rewrite Hadded2, <- !app_assoc; reflexivity|].
  rewrite !List.filter_app, Hnone1, Hnone2, Hnone3. reflexivity.
Qed.

(** X18.  The log over many requests.  Serving any sequence of requests
    completes, only appends to the log, and adds exactly one access line
    for each request, in the order of the requests, with the method, the
    path and the two readings of the clock of that request. *)
Theorem one_access_line_per_request (xs : list Exchange) :
  forall s : Server,
  exists s' added,
    serveAll s xs = Some s' /\
    stdlog s' = stdlog s ++ added /\
    Forall2 (fun line x =>
               exists code,
                 line = accessLine (request x) code (start x) (finish x))
            (List.filter isAccessLine added) xs.
Proof.
  induction xs as [|x xs IH]; intros s; cbn [serveAll].
  - exists s, []. rewrite app_nil_r. repeat split. constructor.
  - destruct (serve_log s x) as (s1 & w & code & added1 & -> & _ & Hlog1 & Hacc1).
    destruct (IH s1) as (s' & added2 & -> & Hlog2 & Hacc2).
    exists s', (added1 ++ added2). split; [reflexivity|].
    split; [rewrite Hlog2, Hlog1, app_assoc; reflexivity|].
    rewrite List.filter_app, Hacc1. constructor; [eauto | exact Hacc2].
Qed.

End ServingMore.

(** ** The further properties at work on the sample data *)

Lemma loadJSON_blank_file_witness :
  loadJSON (sample.tree sample.about_json "   ") "data/skills.json"
    (zero (T := list string))
  = ([], Some EOF).
Proof.
  exact (loadJSON_blank_file_is_EOF (T := list string)
           (sample.tree sample.about_json "   ") "data/skills.json" "   " []
           eq_refl eq_refl).
Defined.

Lemma loadJSON_leading_whitespace_witness :
  loadJSON (sample.tree sample.about_json ("   " +:+ sample.skills_json))
    "data/skills.json" (zero (T := list string))
  = loadJSON (sample.tree sample.about_json sample.skills_json)
      "data/skills.json" (zero (T := list string)).
Proof.
  exact (loadJSON_skips_leading_whitespace (T := list string)
           (sample.tree sample.about_json sample.skills_json)
           (sample.tree sample.about_json ("   " +:+ sample.skills_json))
           "data/skills.json" "   " sample.skills_json None []
           eq_refl eq_refl eq_refl).
Defined.

Lemma null_fixture_witness :
  loadError (sample.tree "null" sample.skills_json) AboutFile = None /\
  PageData_About (loaded (sample.tree "null" sample.skills_json)) = zero.
Proof.
  destruct (fixture_top_level_value (sample.tree "null" sample.skills_json)
              AboutFile {| io.data := "null"; io.failure := None |} VNull
              EmptyString eq_refl eq_refl) as [Hnull _].
  exact (Hnull eq_refl).
Defined.

Lemma unknown_member_witness :
  store (VObject [("name", VString "Ada"); ("nickname", VArray [VNull]);
                  ("bio", VString "Builds things.")]) (zero (T := About))
  = store (VObject [("name", VString "Ada"); ("bio", VString "Builds things.")])
      (zero (T := About)).
Proof.
  apply (unknown_members_are_ignored "handler.About" (zero (T := About)) About_fields
           [("name", VString "Ada")] [("bio", VString "Builds things.")]
           "nickname" (VArray [VNull]) (zero (T := About))).
  intros f Hin. cbn in Hin.
  repeat (destruct Hin as [<-|Hin]; [split; [discriminate | reflexivity]|]).
  destruct Hin.
Defined.

Lemma member_key_case_witness :
  Name (fst (store (VObject [("NAME", VString "Ada")]) (zero (T := About)))) = "Ada".
Proof.
  exact (f_equal (fun p => Name (fst p))
           (member_keys_ignore_case "handler.About" (zero (T := About)) About_fields
              "NAME" (VString "Ada") _ (zero (T := About))
              (proj2 (proj2 (proj2 handler_tags_caseDistinct)))
              eq_refl (or_introl eq_refl) eq_refl)).
Defined.

Lemma last_name_member_witness :
  Name (fst (store (VObject [("name", VString "Ada"); ("name", VString "Grace");
                             ("bio", VString "Builds things.")])
               (zero (T := About)))) = "Grace".
Proof.
  apply (last_name_member_wins [("name", VString "Ada")]
           [("bio", VString "Builds things.")] "Grace" (zero (T := About))).
  intros k v [[= <- <-]|[]]. reflexivity.
Defined.

Lemma Contact_field_values_witness :
  printed (Handler_Contact (Mime := sample.plain)
             (main.h (sample.server sample.pages)) twoNames)
  = [submission "Jane" "q@x.com" 4].
Proof.
  destruct (Contact_reads_first_value_body_first (Mime := sample.plain)
              (main.h (sample.server sample.pages)) twoNames
              (fst (http.ParseForm (Mime := sample.plain) twoNames)))
    as [_ Hlog]; [vm_compute; reflexivity .. |].
  etransitivity; [exact Hlog | vm_compute; reflexivity].
Defined.

Lemma Contact_semicolon_witness :
  (exists w,
      main.serve (Mime := sample.plain) (sample.server sample.pages)
        (sample.exchange main.POST_contact (sample.post "name=Jane&message=a;b"))
      = Some ({| main.h := main.h (sample.server sample.pages);
                 main.stdlog :=
                   [accessLine (sample.post "name=Jane&message=a;b") 400 0 1500] |}, w) /\
      http.status w = 400 /\
      http.body w = "bad request" +:+ str1 (byte 10)) /\
  (exists w,
      main.serve (Mime := sample.plain) (sample.server sample.pages)
        (sample.exchange main.POST_contact semicolonQuery)
      = Some ({| main.h := main.h (sample.server sample.pages);
                 main.stdlog :=
                   [accessLine semicolonQuery 400 0 1500; http.semicolonWarning] |}, w) /\
      http.status w = 400 /\
      http.body w = "bad request" +:+ str1 (byte 10)).
Proof.
  split.
  - apply (Contact_rejects_semicolons (Mime := sample.plain)
             (sample.server sample.pages) (sample.post "name=Jane&message=a;b") 0 1500);
      [reflexivity | reflexivity |].
    left. repeat split; reflexivity.
  - apply (Contact_rejects_semicolons (Mime := sample.plain)
             (sample.server sample.pages) semicolonQuery 0 1500);
      [reflexivity | reflexivity |].
    right. reflexivity.
Defined.

Lemma Contact_unreadable_body_witness :
  exists w,
    main.serve (Mime := sample.plain) (sample.server sample.pages)
      (sample.exchange main.POST_contact cutShort)
    = Some ({| main.h := main.h (sample.server sample.pages);
               main.stdlog := [accessLine cutShort 400 0 1500] |}, w) /\
    http.status w = 400 /\
    http.body w = "bad request" +:+ str1 (byte 10).
Proof.
  apply (Contact_rejects_oversized_or_unreadable_body (Mime := sample.plain)
           (sample.server sample.pages) cutShort 0 1500);
    [reflexivity | reflexivity | reflexivity |].
  right. exists ErrUnexpectedEOF. split; [reflexivity | discriminate].
Defined.

Lemma render_reply_headers_witness :
  (exists s' w,
      main.serve (Mime := sample.plain) (sample.server sample.pages)
        (sample.exchange main.GET_root (sample.get "/")) = Some (s', w) /\
      http.sent w = ∅) /\
  (exists s' w,
      main.serve (Mime := sample.plain) (sample.server sample.broken)
        (sample.exchange main.GET_root (sample.get "/")) = Some (s', w) /\
      http.sent w = ∅).
Proof.
  split.
  - exact (render_reply_headers (Mime := sample.plain) (sample.server sample.pages)
             (sample.exchange main.GET_root (sample.get "/"))
             "base" ["<h1>base</h1>"] None eq_refl eq_refl).
  - exact (render_reply_headers (Mime := sample.plain) (sample.server sample.broken)
             (sample.exchange main.GET_root (sample.get "/"))
             "base" ["<html>"] (Some (LibError "template" "can't evaluate field"))
             eq_refl eq_refl).
Defined.

Lemma loadJSON_truncated_witness :
  loadJSON (sample.tree sample.about_json (q "['Go', 'Ro"))
    "data/skills.json" (zero (T := list string))
  = ([], Some ErrUnexpectedEOF).
Proof.
  exact (loadJSON_truncated_file_fails (T := list string)
           (sample.tree sample.about_json (q "['Go', 'Ro")) "data/skills.json"
           sample.skills_json (q "['Go', 'Ro") (q "cq']")
           (VArray [VString "Go"; VString "Rocq"]) []
           eq_refl eq_refl ltac:(discriminate) eq_refl).
Defined.

Lemma New_printed_fixtures_witness :
  New (Tpl := sample.engine sample.pages) (printedTree "12" (sample.page sample.ada))
  = (Some (@Build_Handler (sample.engine sample.pages) sample.pages
             (sample.page sample.ada)), None).
Proof.
  apply (New_loads_the_printed_fixtures (Tpl := sample.engine sample.pages)
           (printedTree "12" (sample.page sample.ada)) sample.pages
           (sample.page sample.ada) "12" (fun _ => EmptyString) (fun _ => None)).
  - reflexivity.
  - reflexivity.
  - intros []; reflexivity.
  - intros []; reflexivity.
Defined.

Lemma Contact_submission_witness :
  exists w,
    main.serve (Mime := sample.plain) (sample.server sample.pages)
      (sample.exchange main.POST_contact (submit "Jane Doe" "jane@x.com" "50% off; ok?"))
    = Some ({| main.h := main.h (sample.server sample.pages);
               main.stdlog :=
                 [submission "Jane Doe" "jane@x.com" 12;
                  accessLine (submit "Jane Doe" "jane@x.com" "50% off; ok?") 200 0 1500] |},
            w) /\
    http.status w = 200 /\ http.body w = successFragment.
Proof.
  apply (Contact_logs_the_submitted_fields (Mime := sample.plain)
           (sample.server sample.pages) "Jane Doe" "jane@x.com" "50% off; ok?" 0 1500).
  - reflexivity.
  - vm_compute. discriminate.
Defined.
